(** * pymachinetalk.dns_sd: service discovery bookkeeping

    A shallow embedding of [pymachinetalk/dns_sd.py] and the properties of
    its four classes: [Service], [ServiceDiscoveryFilter], [ServiceDiscovery]
    and [ServiceContainer].

    Python objects are mutable and shared by reference: a [Service] is held
    by the discovery's registry, by containers, and reaches its containers
    back through the bound methods in [on_ready_changed].  The embedding
    keeps one store per class, indexed by object identity (a [nat]), and
    every method is a computation over that store that either returns or
    raises; what a raising method had already written stays written. *)

From stdpp Require Import base option list gmap strings functions.
From Stdlib Require Import ZArith.

Local Open Scope list_scope.

(** ** Values, exceptions *)

(** The exceptions the module can raise, by their Python class. *)
Inductive exn :=
  | TypeError
  | RuntimeError
  | KeyError
  | ValueError
  | AttributeError
  | UnicodeDecodeError.

Inductive result (A : Type) :=
  | Ok (a : A)
  | Raise (e : exn).
Arguments Ok {A} a.
Arguments Raise {A} e.

#[global] Instance exn_eq_dec : EqDecision exn.
Proof. solve_decision. Defined.

#[global] Instance result_eq_dec `{EqDecision A} : EqDecision (result A).
Proof. solve_decision. Defined.

(** The value of a TXT key as zeroconf's [ServiceInfo.properties] holds
    it: a byte string, or, for a key that came without a value, a value
    that is not a byte string ([None]; a boolean in the versions of the
    library that read [b'true'] and [b'false'] as such).  [==] between two
    such values is equality. *)
Inductive txt :=
  | TxtBytes (b : string)
  | TxtNone
  | TxtBool (b : bool).

#[global] Instance txt_eq_dec : EqDecision txt.
Proof. solve_decision. Defined.

(** [Service.version] holds the integer [0] or the value of a TXT key. *)
Inductive pyval :=
  | PyInt (z : Z)
  | PyTxt (v : txt).

(** [bytes.decode()] with the interpreter's default codec (ASCII on
    Python 2, UTF-8 on Python 3): [None] stands for [UnicodeDecodeError]. *)
Class Codec := decode : string → option string.

(** A codec both interpreters agree with on 7-bit input. *)
Fixpoint is_ascii (b : string) : bool :=
  match b with
  | EmptyString => true
  | String c b' => Nat.ltb (Ascii.nat_of_ascii c) 128 && is_ascii b'
  end.

Definition ascii_codec : Codec := λ b, if is_ascii b then Some b else None.

(** [sub in s] on strings. *)
Fixpoint str_in (sub s : string) : bool :=
  String.prefix sub s
  || match s with
     | EmptyString => false
     | String _ s' => str_in sub s'
     end.

(** [list.remove(x)]: drops the first element [y] with [y == x];
    [None] stands for [ValueError]. *)
Fixpoint list_remove {A} (eq : A → A → bool) (x : A) (l : list A) : option (list A) :=
  match l with
  | [] => None
  | y :: l' => if eq y x then Some l' else cons y <$> list_remove eq x l'
  end.

(** ** zeroconf's objects *)

(** [zeroconf.ServiceInfo]: the resolved record.  Its [__eq__] compares
    the names of two records. *)
Module ServiceInfo.
Record t := mk {
  type : string;
  name : string;
  properties : gmap string txt }.

Definition __eq__ (self other : t) : bool := String.eqb (name other) (name self).

(** [info.properties.get(key, b'')] *)
Definition get (self : t) (key : string) : txt :=
  default (TxtBytes "") (properties self !! key).
End ServiceInfo.

(** [zeroconf.Zeroconf]: a browsing session, multicast or unicast, open
    until [close()]. *)
Module Zeroconf.
Record t := mk { unicast : bool; closed : bool }.
Definition close (self : t) : t := mk (unicast self) true.
End Zeroconf.

(** [zeroconf.ServiceBrowser(zc, type_, listener, addr=, delay=)]. *)
Module ServiceBrowser.
Record t := mk {
  zc : nat;
  type_ : string;
  addr : option string;
  delay : Z }.
End ServiceBrowser.

(** What a method can be handed where it tests [isinstance]. *)
Inductive pyobj :=
  | PService (s : nat)
  | PServiceContainer (c : nat)
  | PServiceInfo (info : ServiceInfo.t)
  | PNone.

(** A callable subscribed to [Service.on_ready_changed]: the bound method
    [_update_services_ready] of container [c], or a callable of the
    caller's, known by a number. *)
Inductive callback :=
  | BoundUpdateServicesReady (c : nat)
  | Callable (k : nat).

#[global] Instance callback_eq_dec : EqDecision callback.
Proof. solve_decision. Defined.

(** One call of a subscriber: by service [s] from its [ready] setter, or
    by container [c] from its [services_ready] setter. *)
Inductive event :=
  | ReadyChanged (s : nat) (cb : callback) (value : bool)
  | ServicesReadyChanged (c : nat) (k : nat) (value : bool).

(** ** Attributes of the module's classes *)

Module ServiceAttrs.
Record t := mk {
  type : string;
  domain : string;
  base_type : string;
  protocol : string;
  name : string;
  uri : string;
  uuid : string;
  version : pyval;
  _ready : bool;
  service_infos : list ServiceInfo.t;
  on_ready_changed : list callback }.

Definition with_name (v : string) (o : t) : t :=
  mk (type o) (domain o) (base_type o) (protocol o) v (uri o) (uuid o)
     (version o) (_ready o) (service_infos o) (on_ready_changed o).
Definition with_uri (v : string) (o : t) : t :=
  mk (type o) (domain o) (base_type o) (protocol o) (name o) v (uuid o)
     (version o) (_ready o) (service_infos o) (on_ready_changed o).
Definition with_uuid (v : string) (o : t) : t :=
  mk (type o) (domain o) (base_type o) (protocol o) (name o) (uri o) v
     (version o) (_ready o) (service_infos o) (on_ready_changed o).
Definition with_version (v : pyval) (o : t) : t :=
  mk (type o) (domain o) (base_type o) (protocol o) (name o) (uri o) (uuid o)
     v (_ready o) (service_infos o) (on_ready_changed o).
Definition with__ready (v : bool) (o : t) : t :=
  mk (type o) (domain o) (base_type o) (protocol o) (name o) (uri o) (uuid o)
     (version o) v (service_infos o) (on_ready_changed o).
Definition with_service_infos (v : list ServiceInfo.t) (o : t) : t :=
  mk (type o) (domain o) (base_type o) (protocol o) (name o) (uri o) (uuid o)
     (version o) (_ready o) v (on_ready_changed o).
Definition with_on_ready_changed (v : list callback) (o : t) : t :=
  mk (type o) (domain o) (base_type o) (protocol o) (name o) (uri o) (uuid o)
     (version o) (_ready o) (service_infos o) v.
End ServiceAttrs.

Module ServiceContainerAttrs.
Record t := mk {
  _services : list nat;
  _services_ready : bool;
  on_services_ready_changed : list nat }.

Definition with__services (v : list nat) (o : t) : t :=
  mk v (_services_ready o) (on_services_ready_changed o).
Definition with__services_ready (v : bool) (o : t) : t :=
  mk (_services o) v (on_services_ready_changed o).
End ServiceContainerAttrs.

(** ** ServiceDiscoveryFilter *)

Module ServiceDiscoveryFilter.
(** [txt_records] is a dict; the list gives its items in the order
    [six.iteritems] yields them. *)
Record t := mk {
  name : string;
  txt_records : list (string * txt) }.

Definition __init__ (name : string) (txt_records : list (string * txt)) : t :=
  mk name txt_records.

(** The loop over [txt_records], entered with the current [match]. *)
Fixpoint check_txt_records (properties : gmap string txt)
    (items : list (string * txt)) (match_ : bool) : result bool :=
  match items with
  | [] => Ok match_
  | (name, value) :: items' =>
      match properties !! name with
      | None => Raise KeyError
      | Some v =>
          if negb (bool_decide (v = value)) then Ok false
          else check_txt_records properties items' match_
      end
  end.

Definition matches_service_info (self : t) (info : pyobj) : result bool :=
  match info with
  | PServiceInfo info =>
      let match_ := true in
      let match_ :=
        if negb (str_in (name self) (ServiceInfo.name info)) then false else match_ in
      check_txt_records (ServiceInfo.properties info) (txt_records self) match_
  | _ => Raise TypeError
  end.
End ServiceDiscoveryFilter.

Module ServiceDiscoveryAttrs.
Record t := mk {
  service_type : string;
  filter : ServiceDiscoveryFilter.t;
  nameservers : list string;
  lookup_interval : Z;
  is_ready : bool;
  services : list nat;
  _browsers : option (list ServiceBrowser.t);
  _zeroconfs : option (list nat) }.

Definition with_is_ready (v : bool) (o : t) : t :=
  mk (service_type o) (filter o) (nameservers o) (lookup_interval o) v
     (services o) (_browsers o) (_zeroconfs o).
Definition with_services (v : list nat) (o : t) : t :=
  mk (service_type o) (filter o) (nameservers o) (lookup_interval o) (is_ready o)
     v (_browsers o) (_zeroconfs o).
Definition with__browsers (v : option (list ServiceBrowser.t)) (o : t) : t :=
  mk (service_type o) (filter o) (nameservers o) (lookup_interval o) (is_ready o)
     (services o) v (_zeroconfs o).
Definition with__zeroconfs (v : option (list nat)) (o : t) : t :=
  mk (service_type o) (filter o) (nameservers o) (lookup_interval o) (is_ready o)
     (services o) (_browsers o) v.
End ServiceDiscoveryAttrs.

(** ** The object store *)

(** Every object of the process, by identity.  [sessions] holds the
    [Zeroconf] instances constructed so far, [next_session] the identity
    the next one gets; [calls] is the sequence of subscriber calls made. *)
Record World := mkWorld {
  svc : nat → ServiceAttrs.t;
  cont : nat → ServiceContainerAttrs.t;
  disc : nat → ServiceDiscoveryAttrs.t;
  sessions : nat → Zeroconf.t;
  next_session : nat;
  calls : list event }.

(** A method body: runs on the store, returns or raises, and leaves the
    store as the body left it. *)
Definition M (A : Type) : Type := World → result A * World.

#[global] Instance M_ret : MRet M := λ A a w, (Ok a, w).
#[global] Instance M_bind : MBind M := λ A B k m w,
  match m w with
  | (Ok a, w') => k a w'
  | (Raise e, w') => (Raise e, w')
  end.

Definition raise {A} (e : exn) : M A := λ w, (Raise e, w).

Definition lift {A} (r : result A) : M A := λ w, (r, w).

(** [for x in l: body(x)], over a list the body does not write to. *)
Fixpoint for_each {A} (l : list A) (body : A → M unit) : M unit :=
  match l with
  | [] => mret tt
  | x :: l' => body x;; for_each l' body
  end.

(** Reading an object, and writing one of its attributes. *)
Definition get_service (s : nat) : M ServiceAttrs.t := λ w, (Ok (svc w s), w).
Definition get_container (c : nat) : M ServiceContainerAttrs.t := λ w, (Ok (cont w c), w).
Definition get_discovery (d : nat) : M ServiceDiscoveryAttrs.t := λ w, (Ok (disc w d), w).

Definition set_service (s : nat) (f : ServiceAttrs.t → ServiceAttrs.t) : M unit :=
  λ w, (Ok tt, mkWorld (<[s := f (svc w s)]> (svc w)) (cont w) (disc w)
                       (sessions w) (next_session w) (calls w)).
Definition set_container (c : nat)
    (f : ServiceContainerAttrs.t → ServiceContainerAttrs.t) : M unit :=
  λ w, (Ok tt, mkWorld (svc w) (<[c := f (cont w c)]> (cont w)) (disc w)
                       (sessions w) (next_session w) (calls w)).
Definition set_discovery (d : nat)
    (f : ServiceDiscoveryAttrs.t → ServiceDiscoveryAttrs.t) : M unit :=
  λ w, (Ok tt, mkWorld (svc w) (cont w) (<[d := f (disc w d)]> (disc w))
                       (sessions w) (next_session w) (calls w)).

(** [Zeroconf(unicast=...)]: a new open session. *)
Definition new_session (unicast : bool) : M nat :=
  λ w, (Ok (next_session w),
        mkWorld (svc w) (cont w) (disc w)
                (<[next_session w := Zeroconf.mk unicast false]> (sessions w))
                (S (next_session w)) (calls w)).

(** [zeroconf.close()] *)
Definition close_session (z : nat) : M unit :=
  λ w, (Ok tt, mkWorld (svc w) (cont w) (disc w)
                       (<[z := Zeroconf.close (sessions w z)]> (sessions w))
                       (next_session w) (calls w)).

Definition record_call (e : event) : M unit :=
  λ w, (Ok tt, mkWorld (svc w) (cont w) (disc w) (sessions w) (next_session w)
                       (calls w ++ [e])).

(** ** ServiceContainer *)

Module ServiceContainer.
Include ServiceContainerAttrs.

Definition __init__ : t := mk [] false [].

Definition services (self : t) : list nat := _services self.
Definition services_ready (self : t) : bool := _services_ready self.

(** [list.remove] compares a stored [Service] with the argument by
    [Service.__eq__], which is false between two services, after the
    identity test: equality of identities.  Two bound methods are equal
    when they are the same method of the same container. *)
Definition add_service (c : nat) (service : pyobj) : M unit :=
  match service with
  | PService s =>
      set_container c (λ self, with__services (_services self ++ [s]) self);;
      set_service s (λ o, ServiceAttrs.with_on_ready_changed
        (ServiceAttrs.on_ready_changed o ++ [BoundUpdateServicesReady c]) o)
  | _ => raise TypeError
  end.

Definition remove_service (c : nat) (service : pyobj) : M unit :=
  match service with
  | PService s =>
      self ← get_container c;
      match list_remove Nat.eqb s (_services self) with
      | None => raise ValueError
      | Some l =>
          set_container c (with__services l);;
          o ← get_service s;
          match list_remove (λ x y, bool_decide (x = y)) (BoundUpdateServicesReady c)
                            (ServiceAttrs.on_ready_changed o) with
          | None => raise ValueError
          | Some cbs => set_service s (ServiceAttrs.with_on_ready_changed cbs)
          end
      end
  | _ => raise TypeError
  end.

(** The [services_ready] setter.  The subscribers of a container are
    callables of the caller's. *)
Definition services_ready_setter (c : nat) (value : bool) : M unit :=
  self ← get_container c;
  if negb (Bool.eqb value (_services_ready self)) then
    set_container c (with__services_ready value);;
    for_each (on_services_ready_changed self)
             (λ k, record_call (ServicesReadyChanged c k value))
  else mret tt.

(** The loop of [_update_services_ready]; [service.ready] reads [_ready]. *)
Fixpoint all_ready (w : World) (l : list nat) : bool :=
  match l with
  | [] => true
  | service :: l' =>
      if negb (ServiceAttrs._ready (svc w service)) then false else all_ready w l'
  end.

Definition _update_services_ready (c : nat) (_ : bool) : M unit :=
  self ← get_container c;
  ready ← (λ w, (Ok (all_ready w (_services self)), w));
  services_ready_setter c ready.
End ServiceContainer.

(** ** Service *)

Module Service.
Include ServiceAttrs.

Definition __init__ (type_ : string) : t :=
  mk type_ "local" "machinekit" "tcp" "" "" "" (PyInt 0) false [] [].

Definition ready (self : t) : bool := _ready self.

Definition typestring (self : t) : string :=
  "_" +:+ base_type self +:+ "._" +:+ protocol self +:+ "." +:+ domain self +:+ ".".

Definition __eq__ (self : t) (other : pyobj) : bool :=
  match other with
  | PServiceInfo other => String.eqb (name self) (ServiceInfo.name other)
  | _ => false
  end.

(** [cb(value)] for a subscriber of service [s].  A callable of the
    caller's observes the call and returns. *)
Definition call (s : nat) (cb : callback) (value : bool) : M unit :=
  record_call (ReadyChanged s cb value);;
  match cb with
  | BoundUpdateServicesReady c => ServiceContainer._update_services_ready c value
  | Callable _ => mret tt
  end.

(** The [ready] setter. *)
Definition ready_setter (s : nat) (value : bool) : M unit :=
  self ← get_service s;
  if negb (Bool.eqb value (_ready self)) then
    set_service s (with__ready value);;
    for_each (on_ready_changed self) (λ cb, call s cb value)
  else mret tt.

Definition _init_all_values (s : nat) : M unit :=
  set_service s (with_name "");;
  set_service s (with_uri "");;
  set_service s (with_uuid "");;
  set_service s (with_version (PyInt 0)).

(** The first record of [self] that [self == info] holds for: what the
    loop of [remove_service_info] stops at. *)
Fixpoint first_equal (self : t) (infos : list ServiceInfo.t) : option ServiceInfo.t :=
  match infos with
  | [] => None
  | info :: infos' =>
      if __eq__ self (PServiceInfo info) then Some info else first_equal self infos'
  end.

Section WithCodec.
Context `{Codec}.

(** [value.decode()] on the value of a TXT key: only a byte string has
    the method, and it raises on bytes the codec does not read. *)
Definition txt_decode (value : txt) : result string :=
  match value with
  | TxtBytes b =>
      match decode b with
      | Some s => Ok s
      | None => Raise UnicodeDecodeError
      end
  | _ => Raise AttributeError
  end.

Definition matches_service_info (self : t) (info : ServiceInfo.t) : result bool :=
  match txt_decode (ServiceInfo.get info "service") with
  | Ok service =>
      Ok (String.eqb (type self) service && str_in (typestring self) (ServiceInfo.type info))
  | Raise e => Raise e
  end.

Definition _set_all_values_from_service_info (s : nat) (info : ServiceInfo.t) : M unit :=
  set_service s (with_name (ServiceInfo.name info));;
  uri ← lift (txt_decode (ServiceInfo.get info "dsn"));
  set_service s (with_uri uri);;
  uuid ← lift (txt_decode (ServiceInfo.get info "uuid"));
  set_service s (with_uuid uuid);;
  set_service s (with_version (PyTxt (ServiceInfo.get info "version"))).

Definition _update (s : nat) : M unit :=
  self ← get_service s;
  match service_infos self with
  | info :: _ =>
      _set_all_values_from_service_info s info;;
      ready_setter s true
  | [] =>
      ready_setter s false;;
      _init_all_values s
  end.

Definition add_service_info (s : nat) (info : ServiceInfo.t) : M unit :=
  set_service s (λ self, with_service_infos (service_infos self ++ [info]) self);;
  _update s.

(** The loop variable is named [info] as the parameter is, so the
    parameter is not read. *)
Definition remove_service_info (s : nat) (info : ServiceInfo.t) : M unit :=
  self ← get_service s;
  match first_equal self (service_infos self) with
  | Some info =>
      match list_remove ServiceInfo.__eq__ info (service_infos self) with
      | Some infos => set_service s (with_service_infos infos)
      | None => raise ValueError
      end
  | None => mret tt
  end;;
  _update s.

Definition clear_service_infos (s : nat) : M unit :=
  set_service s (with_service_infos []);;
  _update s.
End WithCodec.
End Service.

(** ** ServiceDiscovery *)

Definition _LOOKUP_INTERVAL : Z := 500.

(** Truth value of an attribute that holds [None] or a list. *)
Definition truthy {A} (v : option (list A)) : bool :=
  match v with
  | Some (_ :: _) => true
  | _ => false
  end.

(** The [zeroconf] argument of the listener callbacks, by what
    [zeroconf.get_service_info(type_, name)] answers. *)
Definition resolver : Type := string → string → option ServiceInfo.t.

Module ServiceDiscovery.
Include ServiceDiscoveryAttrs.

Definition __init__ (service_type : string) (filter_ : ServiceDiscoveryFilter.t)
    (nameservers : list string) (lookup_interval : Z) : t :=
  mk service_type filter_ nameservers lookup_interval false [] None None.

(** [self._zeroconfs.append(zeroconf)], [self._browsers.append(browser)] *)
Definition _zeroconfs_append (d : nat) (zeroconf : nat) : M unit :=
  self ← get_discovery d;
  match _zeroconfs self with
  | Some l => set_discovery d (with__zeroconfs (Some (l ++ [zeroconf])))
  | None => raise AttributeError
  end.

Definition _browsers_append (d : nat) (browser : ServiceBrowser.t) : M unit :=
  self ← get_discovery d;
  match _browsers self with
  | Some l => set_discovery d (with__browsers (Some (l ++ [browser])))
  | None => raise AttributeError
  end.

Definition _start_multicast_discovery (d : nat) : M unit :=
  self ← get_discovery d;
  let type_string := "_" +:+ service_type self +:+ "._tcp.local." in
  zeroconf ← new_session false;
  _zeroconfs_append d zeroconf;;
  _browsers_append d (ServiceBrowser.mk zeroconf type_string None (lookup_interval self)).

Definition _start_unicast_discovery (d : nat) : M unit :=
  self ← get_discovery d;
  for_each (services self) (λ s,
    service ← get_service s;
    let type_string :=
      "_" +:+ Service.type service +:+ "._sub._" +:+ service_type self +:+ "._tcp.local." in
    zeroconf ← new_session true;
    _zeroconfs_append d zeroconf;;
    for_each (nameservers self) (λ nameserver,
      _browsers_append d
        (ServiceBrowser.mk zeroconf type_string (Some nameserver) (lookup_interval self)))).

(** [any(self.nameservers)]: some address is a non-empty string. *)
Definition any_nameserver (nameservers : list string) : bool :=
  existsb (λ nameserver, negb (String.eqb nameserver "")) nameservers.

Definition _start_discovery (d : nat) : M unit :=
  set_discovery d (with__zeroconfs (Some []));;
  set_discovery d (with__browsers (Some []));;
  self ← get_discovery d;
  if any_nameserver (nameservers self) then _start_unicast_discovery d
  else _start_multicast_discovery d.

Definition _verify_item_and_run (item : pyobj) (cmd : nat → M unit) : M unit :=
  match item with
  | PServiceContainer c =>
      container ← get_container c;
      for_each (ServiceContainer.services container) cmd
  | PService s => cmd s
  | _ => raise TypeError
  end.

(** [self.services.append], [self.services.remove] *)
Definition services_append (d : nat) (s : nat) : M unit :=
  set_discovery d (λ self, with_services (services self ++ [s]) self).

Definition services_remove (d : nat) (s : nat) : M unit :=
  self ← get_discovery d;
  match list_remove Nat.eqb s (services self) with
  | Some l => set_discovery d (with_services l)
  | None => raise ValueError
  end.

Definition register (d : nat) (item : pyobj) : M unit :=
  self ← get_discovery d;
  if is_ready self then raise RuntimeError
  else _verify_item_and_run item (services_append d).

Definition unregister (d : nat) (item : pyobj) : M unit :=
  self ← get_discovery d;
  if is_ready self then raise RuntimeError
  else _verify_item_and_run item (services_remove d).

Definition start (d : nat) : M unit :=
  self ← get_discovery d;
  if negb (truthy (_browsers self)) then
    set_discovery d (with_is_ready true);;
    _start_discovery d
  else mret tt.

Section WithCodec.
Context `{Codec}.

Definition _stop_discovery (d : nat) : M unit :=
  self ← get_discovery d;
  match _zeroconfs self with
  | Some zeroconfs => for_each zeroconfs close_session
  | None => raise TypeError
  end;;
  self ← get_discovery d;
  match _zeroconfs self with
  | Some _ => set_discovery d (with__zeroconfs (Some []))
  | None => raise TypeError
  end;;
  self ← get_discovery d;
  match _browsers self with
  | Some _ => set_discovery d (with__browsers (Some []))
  | None => raise TypeError
  end;;
  self ← get_discovery d;
  for_each (services self) Service.clear_service_infos.

Definition stop (d : nat) : M unit :=
  self ← get_discovery d;
  if truthy (_browsers self) then
    set_discovery d (with_is_ready false);;
    _stop_discovery d
  else mret tt.

(** The test of the two listener callbacks: [and] asks the service only
    when the filter said yes. *)
Definition both_match (self : t) (s : nat) (info : ServiceInfo.t) : M bool :=
  by_filter ← lift (ServiceDiscoveryFilter.matches_service_info (filter self) (PServiceInfo info));
  if (by_filter : bool) then
    service ← get_service s;
    lift (Service.matches_service_info service info)
  else mret false.

Definition remove_service (d : nat) (zeroconf : resolver) (type_ name : string) : M unit :=
  match zeroconf type_ name with
  | None => mret tt
  | Some info =>
      self ← get_discovery d;
      for_each (services self) (λ s,
        matched ← both_match self s info;
        if (matched : bool) then Service.remove_service_info s info else mret tt)
  end.

Definition add_service (d : nat) (zeroconf : resolver) (type_ name : string) : M unit :=
  match zeroconf type_ name with
  | None => mret tt
  | Some info =>
      self ← get_discovery d;
      for_each (services self) (λ s,
        matched ← both_match self s info;
        if (matched : bool) then Service.add_service_info s info else mret tt)
  end.
End WithCodec.
End ServiceDiscovery.

(** ** Calls from outside *)

(** A call into a discovery object: by its owner, or by zeroconf's
    browser thread for the two listener callbacks. *)
Inductive request :=
  | Start
  | Stop
  | Register (item : pyobj)
  | Unregister (item : pyobj)
  | AddService (zeroconf : resolver) (type_ name : string)
  | RemoveService (zeroconf : resolver) (type_ name : string).

Section WithCodec.
Context `{Codec}.

Definition serve (d : nat) (r : request) : M unit :=
  match r with
  | Start => ServiceDiscovery.start d
  | Stop => ServiceDiscovery.stop d
  | Register item => ServiceDiscovery.register d item
  | Unregister item => ServiceDiscovery.unregister d item
  | AddService zeroconf type_ name => ServiceDiscovery.add_service d zeroconf type_ name
  | RemoveService zeroconf type_ name => ServiceDiscovery.remove_service d zeroconf type_ name
  end.

(** The store after a sequence of calls, each returning or raising to a
    caller that goes on. *)
Fixpoint serve_all (d : nat) (rs : list request) (w : World) : World :=
  match rs with
  | [] => w
  | r :: rs' => serve_all d rs' (serve d r w).2
  end.

(** The three mutating methods of [Service]. *)
Inductive mutation :=
  | AddRecord (info : ServiceInfo.t)
  | RemoveRecord (info : ServiceInfo.t)
  | ClearRecords.

Definition mutate (s : nat) (m : mutation) : M unit :=
  match m with
  | AddRecord info => Service.add_service_info s info
  | RemoveRecord info => Service.remove_service_info s info
  | ClearRecords => Service.clear_service_infos s
  end.
End WithCodec.

(** * Properties *)

(** ** The monad and the store *)

Lemma bind_ok {A B} (m : M A) (k : A → M B) w a w1 :
  m w = (Ok a, w1) → (m ≫= k) w = k a w1.
Proof. intros E. unfold mbind, M_bind. by rewrite E. Qed.

Lemma bind_raise {A B} (m : M A) (k : A → M B) w e w1 :
  m w = (Raise e, w1) → (m ≫= k) w = (Raise e, w1).
Proof. intros E. unfold mbind, M_bind. by rewrite E. Qed.

(** A bind that returned went through both of its halves. *)
Lemma bind_inv {A B} (m : M A) (k : A → M B) w b w' :
  (m ≫= k) w = (Ok b, w') → ∃ a w1, m w = (Ok a, w1) ∧ k a w1 = (Ok b, w').
Proof.
  unfold mbind, M_bind. destruct (m w) as [[a|e] w1]; intros E.
  - by exists a, w1.
  - discriminate.
Qed.

Lemma world_eta w :
  mkWorld (svc w) (cont w) (disc w) (sessions w) (next_session w) (calls w) = w.
Proof. by destruct w. Qed.

(** ** Strings and lists *)

Lemma append_nil (q : string) : "" +:+ q = q.
Proof. reflexivity. Qed.

Lemma append_cons c (a q : string) : String c a +:+ q = String c (a +:+ q).
Proof. reflexivity. Qed.

Lemma prefix_spec (a s : string) :
  String.prefix a s = true ↔ ∃ q, s = a +:+ q.
Proof.
  revert s. induction a as [|c a IH]; intros s.
  - split; [intros _; by exists s | by destruct s].
  - destruct s as [|c' s]; cbn.
    + split; [done | intros [q Hq]; discriminate].
    + destruct (Ascii.ascii_dec c c') as [->|Hne].
      * rewrite IH. split; intros [q Hq]; exists q; rewrite append_cons in *; congruence.
      * split; [done | intros [q Hq]; rewrite append_cons in Hq; congruence].
Qed.

(** [str_in] is Python's substring test. *)
Lemma str_in_spec (a s : string) :
  str_in a s = true ↔ ∃ p q, s = p +:+ a +:+ q.
Proof.
  induction s as [|c s IH]; cbn [str_in].
  - rewrite orb_false_r, prefix_spec. split.
    + intros [q Hq]. by exists "", q.
    + intros [p [q Hq]]. destruct p; [by exists q | discriminate].
  - rewrite orb_true_iff, prefix_spec, IH. split.
    + intros [[q Hq] | [p [q Hq]]].
      * by exists "", q.
      * exists (String c p), q. rewrite append_cons. by rewrite Hq.
    + intros [p [q Hq]]. destruct p as [|c' p].
      * left. by exists q.
      * right. exists p, q. rewrite append_cons in Hq. congruence.
Qed.

Lemma all_ready_forallb w l :
  ServiceContainer.all_ready w l = forallb (λ s, Service.ready (svc w s)) l.
Proof.
  induction l as [|s l IH]; simpl; [done|].
  unfold Service.ready. destruct (ServiceAttrs._ready (svc w s)); simpl; [apply IH | done].
Qed.

(** ** Subscriber calls *)

(** What a call of a subscriber leaves as it was: every service, every
    discovery, every session, and the members of every container. *)
Definition notified (w w' : World) : Prop :=
  svc w' = svc w ∧ disc w' = disc w ∧ sessions w' = sessions w
  ∧ next_session w' = next_session w
  ∧ ∀ c, ServiceContainer._services (cont w' c) = ServiceContainer._services (cont w c).

Definition container_event (e : event) : Prop :=
  match e with
  | ServicesReadyChanged _ _ _ => True
  | ReadyChanged _ _ _ => False
  end.

(** The calls service [s] made, in order. *)
Definition calls_of_service (s : nat) (l : list event) : list (callback * bool) :=
  omap (λ e, match e with
             | ReadyChanged s' cb v => if decide (s' = s) then Some (cb, v) else None
             | ServicesReadyChanged _ _ _ => None
             end) l.

(** The calls container [c] made, in order. *)
Definition calls_of_container (c : nat) (l : list event) : list (nat * bool) :=
  omap (λ e, match e with
             | ServicesReadyChanged c' k v => if decide (c' = c) then Some (k, v) else None
             | ReadyChanged _ _ _ => None
             end) l.

(** [services_ready] of container [c] is the conjunction over its members. *)
Definition aggregated (w : World) (c : nat) : Prop :=
  ServiceContainer.services_ready (cont w c)
  = forallb (λ s, Service.ready (svc w s)) (ServiceContainer.services (cont w c)).

Lemma notified_refl w : notified w w.
Proof. by repeat split. Qed.

Lemma notified_trans w1 w2 w3 : notified w1 w2 → notified w2 w3 → notified w1 w3.
Proof.
  intros (?&?&?&?&?) (?&?&?&?&?). repeat split; congruence.
Qed.

Lemma calls_of_service_container_events s evs :
  Forall container_event evs → calls_of_service s evs = [].
Proof.
  induction 1 as [|e evs He _ IH]; [done|].
  by destruct e.
Qed.

Lemma for_each_record_call {A} (f : A → event) l w :
  for_each l (λ k, record_call (f k)) w
  = (Ok tt, mkWorld (svc w) (cont w) (disc w) (sessions w) (next_session w)
                    (calls w ++ map f l)).
Proof.
  revert w. induction l as [|k l IH]; intros w; simpl.
  - by rewrite app_nil_r, world_eta.
  - unfold mbind, M_bind. simpl. rewrite IH. simpl. by rewrite <- app_assoc.
Qed.

Lemma services_ready_setter_same c v w :
  v = ServiceContainer.services_ready (cont w c) →
  ServiceContainer.services_ready_setter c v w = (Ok tt, w).
Proof.
  intros ->. unfold ServiceContainer.services_ready_setter, mbind, M_bind. simpl.
  unfold ServiceContainer.services_ready. by rewrite eqb_reflx.
Qed.

Lemma services_ready_setter_flip c v w :
  v ≠ ServiceContainer.services_ready (cont w c) →
  ServiceContainer.services_ready_setter c v w
  = (Ok tt, mkWorld (svc w)
                    (<[c := ServiceContainer.with__services_ready v (cont w c)]> (cont w))
                    (disc w) (sessions w) (next_session w)
                    (calls w ++ map (λ k, ServicesReadyChanged c k v)
                       (ServiceContainer.on_services_ready_changed (cont w c)))).
Proof.
  intros Hne. unfold ServiceContainer.services_ready_setter, mbind, M_bind. simpl.
  destruct (Bool.eqb v _) eqn:E.
  - apply eqb_prop in E. done.
  - simpl. by rewrite for_each_record_call.
Qed.

Lemma services_ready_setter_spec c v w :
  ∃ w', ServiceContainer.services_ready_setter c v w = (Ok tt, w')
    ∧ notified w w'
    ∧ ServiceContainer.services_ready (cont w' c) = v
    ∧ (∀ c', c' ≠ c → cont w' c' = cont w c')
    ∧ ∃ evs, calls w' = calls w ++ evs ∧ Forall container_event evs.
Proof.
  destruct (decide (v = ServiceContainer.services_ready (cont w c))) as [E|E].
  - exists w. rewrite services_ready_setter_same by done.
    repeat split; try done. exists []. by rewrite app_nil_r.
  - eexists. rewrite services_ready_setter_flip by done.
    split; [done|]. simpl. split; [|split; [|split]].
    + repeat split; try done. intros c'. simpl.
      destruct (decide (c = c')) as [->|Hc].
      * by rewrite fn_lookup_insert.
      * by rewrite fn_lookup_insert_ne.
    + by rewrite fn_lookup_insert.
    + intros c' Hc. by rewrite fn_lookup_insert_ne.
    + eexists. split; [done|]. apply Forall_map. by apply Forall_true.
Qed.

Lemma _update_services_ready_unfold c v w :
  ServiceContainer._update_services_ready c v w
  = ServiceContainer.services_ready_setter c
      (forallb (λ s, Service.ready (svc w s)) (ServiceContainer.services (cont w c))) w.
Proof.
  unfold ServiceContainer._update_services_ready, mbind, M_bind. simpl.
  by rewrite all_ready_forallb.
Qed.

Lemma forallb_ready_notified w w' l :
  svc w' = svc w →
  forallb (λ s, Service.ready (svc w' s)) l = forallb (λ s, Service.ready (svc w s)) l.
Proof. by intros ->. Qed.

(** The bound method leaves its container aggregated. *)
Lemma _update_services_ready_spec c v w :
  ∃ w', ServiceContainer._update_services_ready c v w = (Ok tt, w')
    ∧ notified w w'
    ∧ aggregated w' c
    ∧ (∀ c', c' ≠ c → cont w' c' = cont w c')
    ∧ ∃ evs, calls w' = calls w ++ evs ∧ Forall container_event evs.
Proof.
  rewrite _update_services_ready_unfold.
  destruct (services_ready_setter_spec c
    (forallb (λ s, Service.ready (svc w s)) (ServiceContainer.services (cont w c))) w)
    as (w' & E & N & V & F & Evs).
  exists w'. repeat split; try done; try apply N.
  unfold aggregated. rewrite V.
  destruct N as (Hs & _ & _ & _ & Hm). unfold ServiceContainer.services.
  by rewrite Hm, Hs.
Qed.

Lemma call_spec s cb v w :
  ∃ w', Service.call s cb v w = (Ok tt, w')
    ∧ notified w w'
    ∧ (∀ c, cb = BoundUpdateServicesReady c → aggregated w' c)
    ∧ (∀ c, cb ≠ BoundUpdateServicesReady c → cont w' c = cont w c)
    ∧ ∃ evs, calls w' = calls w ++ ReadyChanged s cb v :: evs ∧ Forall container_event evs.
Proof.
  unfold Service.call, mbind, M_bind. simpl. destruct cb as [c|k].
  - match goal with |- context [ServiceContainer._update_services_ready c v ?w1] =>
      destruct (_update_services_ready_spec c v w1) as (w' & E & N & Agg & F & evs & Evs & Hevs)
    end.
    exists w'. rewrite E. repeat split; try apply N.
    + intros c' [= <-]. done.
    + intros c' Hc. rewrite F by congruence. done.
    + exists evs. split; [|done]. rewrite Evs. simpl. by rewrite <- app_assoc.
  - eexists. split; [done|]. repeat split; try done. by exists [].
Qed.

(** The loop of the [ready] setter: every subscriber is called once, in
    order, and every subscribed container ends aggregated. *)
Lemma for_each_call_spec s v cbs w :
  ∃ w', for_each cbs (λ cb, Service.call s cb v) w = (Ok tt, w')
    ∧ notified w w'
    ∧ (∀ c, BoundUpdateServicesReady c ∈ cbs → aggregated w' c)
    ∧ (∀ c, BoundUpdateServicesReady c ∉ cbs → cont w' c = cont w c)
    ∧ ∃ evs, calls w' = calls w ++ evs
        ∧ calls_of_service s evs = map (λ cb, (cb, v)) cbs.
Proof.
  revert w. induction cbs as [|cb cbs IH]; intros w; simpl.
  - exists w. repeat split; try done.
    + intros c Hc. by apply elem_of_nil in Hc.
    + exists []. by rewrite app_nil_r.
  - destruct (call_spec s cb v w) as (w1 & E1 & N1 & Agg1 & F1 & evs1 & Evs1 & Hevs1).
    destruct (IH w1) as (w' & E & N & Agg & F & evs & Evs & Hevs).
    exists w'. rewrite (bind_ok _ _ _ _ _ E1), E.
    split; [done|]. split; [by eapply notified_trans|]. split; [|split].
    + intros c Hc. destruct (decide (BoundUpdateServicesReady c ∈ cbs)) as [Hin|Hout].
      * by apply Agg.
      * apply elem_of_cons in Hc as [Hc|Hc]; [|done].
        unfold aggregated. rewrite (F c Hout).
        destruct N as (Hs & _). rewrite Hs. by apply Agg1.
    + intros c Hc. apply not_elem_of_cons in Hc as [Hc1 Hc2].
      rewrite (F c Hc2). apply F1. congruence.
    + exists (ReadyChanged s cb v :: evs1 ++ evs). split.
      * rewrite Evs, Evs1. rewrite <- app_assoc. done.
      * simpl. rewrite decide_True by done. f_equal.
        unfold calls_of_service in *. rewrite omap_app.
        fold (calls_of_service s evs1). rewrite calls_of_service_container_events by done.
        done.
Qed.

(** ** Methods of one service *)

(** What a method of service [s] does to the store: the attributes of
    [s] go from [o] to [f o]; the other services, the discoveries, the
    sessions and the members of the containers stay. *)
Definition service_step (s : nat) (f : Service.t → Service.t) (w w' : World) : Prop :=
  svc w' s = f (svc w s)
  ∧ (∀ s', s' ≠ s → svc w' s' = svc w s')
  ∧ disc w' = disc w ∧ sessions w' = sessions w ∧ next_session w' = next_session w
  ∧ ∀ c, ServiceContainer._services (cont w' c) = ServiceContainer._services (cont w c).

Lemma service_step_trans s f g w w1 w2 :
  service_step s f w w1 → service_step s g w1 w2 → service_step s (g ∘ f) w w2.
Proof.
  intros (E1&O1&?&?&?&?) (E2&O2&?&?&?&?). repeat split; try congruence.
  - simpl. by rewrite E2, E1.
  - intros s' Hs. by rewrite O2, O1.
Qed.

Lemma service_step_ext s f g w w' :
  f (svc w s) = g (svc w s) → service_step s f w w' → service_step s g w w'.
Proof. intros E (E1&?). split; [congruence | done]. Qed.

Lemma notified_service_step s w w' : notified w w' → service_step s id w w'.
Proof.
  intros (Hs&?&?&?&?). repeat split; try done; by rewrite Hs.
Qed.

Lemma set_service_step s f w :
  ∃ w', set_service s f w = (Ok tt, w') ∧ service_step s f w w'.
Proof.
  eexists. split; [done|]. repeat split; simpl.
  - by rewrite fn_lookup_insert.
  - intros s' Hs. by rewrite fn_lookup_insert_ne.
Qed.

Lemma with__ready_id (o : Service.t) : Service.with__ready (Service._ready o) o = o.
Proof. by destruct o. Qed.

Lemma ready_setter_same s v w :
  v = Service.ready (svc w s) → Service.ready_setter s v w = (Ok tt, w).
Proof.
  intros ->. unfold Service.ready_setter, mbind, M_bind. simpl.
  unfold Service.ready. by rewrite eqb_reflx.
Qed.

Lemma ready_setter_flip s v w :
  v ≠ Service.ready (svc w s) →
  ∃ w', Service.ready_setter s v w = (Ok tt, w')
    ∧ service_step s (Service.with__ready v) w w'
    ∧ (∀ c, BoundUpdateServicesReady c ∈ Service.on_ready_changed (svc w s) →
            aggregated w' c)
    ∧ ∃ evs, calls w' = calls w ++ evs
        ∧ calls_of_service s evs = map (λ cb, (cb, v)) (Service.on_ready_changed (svc w s)).
Proof.
  intros Hne. unfold Service.ready_setter, mbind at 1, M_bind. simpl.
  destruct (Bool.eqb v _) eqn:E; [apply eqb_prop in E; done|]. simpl.
  destruct (set_service_step s (Service.with__ready v) w) as (w1 & E1 & S1).
  destruct (for_each_call_spec s v (Service.on_ready_changed (svc w s)) w1)
    as (w' & E2 & N & Agg & _ & evs & Evs & Hevs).
  exists w'. rewrite (bind_ok _ _ _ _ _ E1), E2. split; [done|]. split; [|split].
  - eapply service_step_ext; [|eapply service_step_trans; [exact S1|]].
    2: by apply notified_service_step. done.
  - done.
  - exists evs. split; [|done]. rewrite Evs. f_equal.
    by injection E1 as <-.
Qed.

Lemma ready_setter_spec s v w :
  ∃ w', Service.ready_setter s v w = (Ok tt, w')
    ∧ service_step s (Service.with__ready v) w w'.
Proof.
  destruct (decide (v = Service.ready (svc w s))) as [->|Hne].
  - exists w. rewrite ready_setter_same by done. split; [done|].
    eapply service_step_ext; [|apply notified_service_step, notified_refl].
    simpl. unfold Service.ready. by rewrite with__ready_id.
  - destruct (ready_setter_flip s v w Hne) as (w' & ? & ? & _). by exists w'.
Qed.

Section WithCodec.
Context `{Codec}.

(** What [_update] makes of the attributes of a service, or what it
    raises: the exception of the first TXT value of the first record, of
    [b'dsn'] and [b'uuid'] in this order, that [decode()] fails on. *)
Definition resolved (self : Service.t) : result Service.t :=
  match Service.service_infos self with
  | info :: _ =>
      match Service.txt_decode (ServiceInfo.get info "dsn") with
      | Raise e => Raise e
      | Ok uri =>
          match Service.txt_decode (ServiceInfo.get info "uuid") with
          | Raise e => Raise e
          | Ok uuid =>
              Ok (Service.mk (Service.type self) (Service.domain self)
                    (Service.base_type self) (Service.protocol self)
                    (ServiceInfo.name info) uri uuid
                    (PyTxt (ServiceInfo.get info "version")) true
                    (Service.service_infos self) (Service.on_ready_changed self))
          end
      end
  | [] =>
      Ok (Service.mk (Service.type self) (Service.domain self) (Service.base_type self)
            (Service.protocol self) "" "" "" (PyInt 0) false
            [] (Service.on_ready_changed self))
  end.

Lemma _init_all_values_spec s w :
  ∃ w', Service._init_all_values s w = (Ok tt, w')
    ∧ service_step s (λ o, Service.with_version (PyInt 0)
        (Service.with_uuid "" (Service.with_uri "" (Service.with_name "" o)))) w w'.
Proof.
  eexists. split; [done|]. repeat split; simpl.
  - by rewrite !fn_lookup_insert.
  - intros s' Hs. by rewrite !fn_lookup_insert_ne.
Qed.

Lemma bind_get_service {B} s (k : Service.t → M B) w :
  (get_service s ≫= k) w = k (svc w s) w.
Proof. reflexivity. Qed.

Lemma _update_spec s w :
  match resolved (svc w s) with
  | Ok o => ∃ w', Service._update s w = (Ok tt, w') ∧ service_step s (λ _, o) w w'
  | Raise e => ∃ w', Service._update s w = (Raise e, w')
  end.
Proof.
  unfold resolved, Service._update. rewrite bind_get_service.
  destruct (Service.service_infos (svc w s)) as [|info infos] eqn:Einfos.
  - destruct (ready_setter_spec s false w) as (w1 & E1 & S1).
    destruct (_init_all_values_spec s w1) as (w' & E2 & S2).
    exists w'. rewrite (bind_ok _ _ _ _ _ E1), E2. split; [done|].
    eapply service_step_ext; [|eapply service_step_trans; [exact S1 | exact S2]].
    simpl. destruct (svc w s); simpl in *. by subst.
  - unfold Service._set_all_values_from_service_info, lift.
    unfold mbind, M_bind. simpl.
    destruct (Service.txt_decode (ServiceInfo.get info "dsn")) as [uri|?]; simpl; [|by eexists].
    destruct (Service.txt_decode (ServiceInfo.get info "uuid")) as [uuid|?]; simpl; [|by eexists].
    match goal with |- context [Service.ready_setter s true ?w1] =>
      destruct (ready_setter_spec s true w1) as (w' & E' & (E1&O1&?&?&?&?)); simpl in *
    end.
    exists w'. rewrite E'. split; [done|]. repeat split; try done.
    + rewrite E1. rewrite !fn_lookup_insert. destruct (svc w s); simpl in *. by subst.
    + intros s' Hs. rewrite O1 by done. by rewrite !fn_lookup_insert_ne.
Qed.
End WithCodec.

Lemma bind_set_service {B} s f (k : unit → M B) w :
  (set_service s f ≫= k) w
  = k tt (mkWorld (<[s := f (svc w s)]> (svc w)) (cont w) (disc w)
                  (sessions w) (next_session w) (calls w)).
Proof. reflexivity. Qed.

Lemma first_equal_remove self infos info :
  Service.first_equal self infos = Some info →
  is_Some (list_remove ServiceInfo.__eq__ info infos).
Proof.
  induction infos as [|x infos IH]; simpl; [done|].
  destruct (String.eqb _ _) eqn:E.
  - intros [= <-]. unfold ServiceInfo.__eq__. by rewrite String.eqb_refl.
  - intros Hf. destruct (ServiceInfo.__eq__ x info); [done|].
    destruct (IH Hf) as [l ->]. done.
Qed.

Section WithCodec.
Context `{Codec}.

(** The record collection a mutating method leaves, before [_update]. *)
Definition records_after (m : mutation) (self : Service.t) : list ServiceInfo.t :=
  match m with
  | AddRecord info => Service.service_infos self ++ [info]
  | RemoveRecord _ =>
      match Service.first_equal self (Service.service_infos self) with
      | Some info =>
          default (Service.service_infos self)
                  (list_remove ServiceInfo.__eq__ info (Service.service_infos self))
      | None => Service.service_infos self
      end
  | ClearRecords => []
  end.

Lemma with_service_infos_id (o : Service.t) :
  Service.with_service_infos (Service.service_infos o) o = o.
Proof. by destruct o. Qed.

Lemma _update_after s infos w :
  match resolved (Service.with_service_infos infos (svc w s)) with
  | Ok o =>
      ∃ w', (set_service s (Service.with_service_infos infos);; Service._update s) w
            = (Ok tt, w')
        ∧ service_step s (λ _, o) w w'
  | Raise e =>
      ∃ w', (set_service s (Service.with_service_infos infos);; Service._update s) w
            = (Raise e, w')
  end.
Proof.
  rewrite bind_set_service.
  match goal with |- context [Service._update s ?w1] =>
    pose proof (_update_spec s w1) as Hu; set (w1' := w1) in *
  end.
  assert (Hs : svc w1' s = Service.with_service_infos infos (svc w s))
    by (subst w1'; simpl; by rewrite fn_lookup_insert).
  rewrite Hs in Hu.
  destruct (resolved _) as [o|e]; [|done].
  destruct Hu as (w' & E & (E1&O1&?&?&?&?)). exists w'. split; [done|].
  repeat split; try done.
  intros s' Hs'. rewrite O1 by done. subst w1'. simpl. by rewrite fn_lookup_insert_ne.
Qed.

(** Each mutating method leaves its record collection and then what
    [_update] makes of it, or raises on a TXT value that does not decode. *)
Lemma mutate_spec s m w :
  match resolved (Service.with_service_infos (records_after m (svc w s)) (svc w s)) with
  | Ok o => ∃ w', mutate s m w = (Ok tt, w') ∧ service_step s (λ _, o) w w'
  | Raise e => ∃ w', mutate s m w = (Raise e, w')
  end.
Proof.
  destruct m as [info|info|]; simpl.
  - apply (_update_after s (Service.service_infos (svc w s) ++ [info]) w).
  - unfold Service.remove_service_info.
    destruct (Service.first_equal _ _) as [info'|] eqn:Ef.
    + destruct (first_equal_remove _ _ _ Ef) as [l El].
      pose proof (_update_after s l w) as Hu. rewrite El. simpl.
      assert (Hrun : ∀ r w', (set_service s (Service.with_service_infos l);; Service._update s) w
                              = (r, w') →
                (match Service.first_equal (svc w s) (Service.service_infos (svc w s)) with
                 | Some info =>
                     match list_remove ServiceInfo.__eq__ info (Service.service_infos (svc w s)) with
                     | Some infos => set_service s (Service.with_service_infos infos)
                     | None => raise ValueError
                     end
                 | None => mret tt
                 end;; Service._update s) w = (r, w')).
      { intros r w' E. by rewrite Ef, El. }
      rewrite bind_get_service.
      destruct (resolved _) as [o|e].
      * destruct Hu as (w' & E & ?). exists w'. split; [by apply Hrun | done].
      * destruct Hu as (w' & E). exists w'. by apply Hrun.
    + pose proof (_update_spec s w) as Hu. rewrite with_service_infos_id.
      rewrite bind_get_service, Ef.
      destruct (resolved _) as [o|e].
      * destruct Hu as (w' & E & ?). exists w'. split; [exact E | done].
      * destruct Hu as (w' & E). exists w'. exact E.
  - apply (_update_after s [] w).
Qed.
End WithCodec.

Section WithCodec.
Context `{Codec}.

(** The state [_update] leaves a service in: ready exactly when it holds
    a record, resolved from the first record when ready, reset when not. *)
Definition consistent (self : Service.t) : Prop :=
  (Service.ready self = true ↔ Service.service_infos self ≠ [])
  ∧ (Service.ready self = true →
       ∃ info, head (Service.service_infos self) = Some info
         ∧ Service.name self = ServiceInfo.name info
         ∧ Service.txt_decode (ServiceInfo.get info "dsn") = Ok (Service.uri self)
         ∧ Service.txt_decode (ServiceInfo.get info "uuid") = Ok (Service.uuid self)
         ∧ Service.version self = PyTxt (ServiceInfo.get info "version"))
  ∧ (Service.ready self = false →
       Service.name self = "" ∧ Service.uri self = "" ∧ Service.uuid self = ""
       ∧ Service.version self = PyInt 0).

Lemma resolved_consistent self o : resolved self = Ok o → consistent o.
Proof.
  unfold resolved, consistent. destruct (Service.service_infos self) as [|info infos] eqn:E.
  - intros [= <-]. simpl. repeat split; try done.
  - destruct (Service.txt_decode (ServiceInfo.get info "dsn")) as [uri|?] eqn:Euri; [|done].
    destruct (Service.txt_decode (ServiceInfo.get info "uuid")) as [uuid|?] eqn:Euuid; [|done].
    simpl. intros [= <-]. simpl. repeat split; try done.
    intros _. by exists info.
Qed.

Lemma mutate_consistent s m w w' :
  mutate s m w = (Ok tt, w') → consistent (svc w' s).
Proof.
  intros E. pose proof (mutate_spec s m w) as Hm.
  destruct (resolved _) as [o|e] eqn:Er.
  - destruct Hm as (w'' & E' & (Es & _)). rewrite E in E'. injection E' as <-.
    rewrite Es. by eapply resolved_consistent.
  - destruct Hm as (w'' & E'). rewrite E in E'. discriminate.
Qed.

(** A mutating method returns when the TXT values it decodes, those of
    the record that ends first in the collection, decode. *)
Lemma mutate_returns s m w :
  (∀ info, head (records_after m (svc w s)) = Some info →
     (∃ uri, Service.txt_decode (ServiceInfo.get info "dsn") = Ok uri)
     ∧ (∃ uuid, Service.txt_decode (ServiceInfo.get info "uuid") = Ok uuid)) →
  ∃ w', mutate s m w = (Ok tt, w').
Proof.
  intros Hd. pose proof (mutate_spec s m w) as Hm. unfold resolved in Hm. simpl in Hm.
  destruct (records_after m (svc w s)) as [|info infos].
  - destruct Hm as (w' & E & _). by exists w'.
  - destruct (Hd info eq_refl) as [[uri Euri] [uuid Euuid]].
    rewrite Euri, Euuid in Hm. simpl in Hm. destruct Hm as (w' & E & _). by exists w'.
Qed.

(** In a consistent service [self == info] holds for the first record, so
    [remove_service_info] drops the first record whatever it is handed. *)
Lemma remove_drops_first self info :
  consistent self →
  records_after (RemoveRecord info) self = tail (Service.service_infos self).
Proof.
  intros (Hr & Hm & _). simpl.
  destruct (Service.service_infos self) as [|x l] eqn:E; [done|].
  destruct (Hm (proj2 Hr ltac:(done))) as (i & Hi & Hn & _).
  injection Hi as <-. simpl. rewrite Hn, String.eqb_refl. simpl.
  unfold ServiceInfo.__eq__. by rewrite String.eqb_refl.
Qed.
End WithCodec.

(** ** Sample objects *)

(** A store of freshly constructed objects, with no session open. *)
Definition blank : World :=
  mkWorld (λ _, Service.__init__ "webtalk") (λ _, ServiceContainer.__init__)
          (λ _, ServiceDiscovery.__init__ "machinekit" (ServiceDiscoveryFilter.__init__ "" [])
                  [] _LOOKUP_INTERVAL)
          (λ _, Zeroconf.mk false true) 0 [].

(** A record announced under [_machinekit._tcp.local.]. *)
Definition announced (name service dsn : string) : ServiceInfo.t :=
  ServiceInfo.mk "_machinekit._tcp.local." name
                 (<["service" := TxtBytes service]> (<["dsn" := TxtBytes dsn]> ∅)).

Definition record_a : ServiceInfo.t := announced "a" "webtalk" "ws://10.0.0.5:8080".
Definition record_b : ServiceInfo.t := announced "b" "webtalk" "ws://10.0.0.6:8080".

(** Service 0 after it was handed [record_a], then [record_b]. *)
Definition two_records : World :=
  (@Service.add_service_info ascii_codec 0 record_b
     (@Service.add_service_info ascii_codec 0 record_a blank).2).2.

Section WithCodec.
Context `{Codec}.

(** X19. After each of the three mutating methods of a Service has
    returned, [ready] is true exactly when the record collection is not
    empty; when ready, [name], [uri], [uuid] and [version] are those of the
    first record in the collection (the two middle ones decoded); when not
    ready, [name == uri == uuid == ''] and [version == 0]. *)
Theorem mutation_leaves_service_resolved s m w w' :
  mutate s m w = (Ok tt, w') →
  (Service.ready (svc w' s) = true ↔ Service.service_infos (svc w' s) ≠ [])
  ∧ (Service.ready (svc w' s) = true →
       ∃ info, head (Service.service_infos (svc w' s)) = Some info
         ∧ Service.name (svc w' s) = ServiceInfo.name info
         ∧ Service.txt_decode (ServiceInfo.get info "dsn") = Ok (Service.uri (svc w' s))
         ∧ Service.txt_decode (ServiceInfo.get info "uuid") = Ok (Service.uuid (svc w' s))
         ∧ Service.version (svc w' s) = PyTxt (ServiceInfo.get info "version"))
  ∧ (Service.ready (svc w' s) = false →
       Service.name (svc w' s) = "" ∧ Service.uri (svc w' s) = ""
       ∧ Service.uuid (svc w' s) = "" ∧ Service.version (svc w' s) = PyInt 0).
Proof. intros E. exact (mutate_consistent s m w w' E). Qed.
End WithCodec.

Lemma mutation_leaves_service_resolved_witness :
  Service.ready (svc two_records 0) = true
  ∧ Service.uri (svc two_records 0) = "ws://10.0.0.5:8080".
Proof.
  destruct (@mutation_leaves_service_resolved ascii_codec 0 (AddRecord record_b)
              (@Service.add_service_info ascii_codec 0 record_a blank).2 two_records)
    as (Hr & Hm & _).
  - vm_compute. reflexivity.
  - split; [apply Hr; vm_compute; discriminate | vm_compute; reflexivity].
Defined.

(** C7. [remove_service_info(record_b)] on a service that holds
    [record_a] and [record_b] removes [record_a]: the loop variable hides
    the argument, and [self == info] compares the service's resolved name,
    the first record's, with each stored record. *)
Example remove_service_info_removes_first_record :
  map ServiceInfo.name (Service.service_infos (svc two_records 0)) = ["a"; "b"]
  ∧ map ServiceInfo.name
      (Service.service_infos
         (svc (@Service.remove_service_info ascii_codec 0 record_b two_records).2 0))
    = ["b"].
Proof. split; vm_compute; reflexivity. Qed.

(** C4. A filter that asks for a TXT key the record does not have raises
    [KeyError]: [info.properties[name]] is a plain subscript. *)
Example filter_missing_key_raises :
  ServiceDiscoveryFilter.matches_service_info
    (ServiceDiscoveryFilter.__init__ "" [("uuid", TxtBytes "abc-123")])
    (PServiceInfo record_a)
  = Raise KeyError.
Proof. vm_compute. reflexivity. Qed.

(** C8. Setting [Service.ready] or [ServiceContainer.services_ready] to
    the value it has calls no subscriber and changes nothing; setting it
    to the other value stores the value and calls each subscriber, in
    subscription order, once per subscription, with the new value. *)
Theorem setters_notify_once_per_transition w :
  (∀ s v,
     (v = Service.ready (svc w s) → Service.ready_setter s v w = (Ok tt, w))
     ∧ (v ≠ Service.ready (svc w s) →
          ∃ w' evs, Service.ready_setter s v w = (Ok tt, w')
            ∧ Service.ready (svc w' s) = v
            ∧ calls w' = calls w ++ evs
            ∧ calls_of_service s evs
              = map (λ cb, (cb, v)) (Service.on_ready_changed (svc w s))))
  ∧ (∀ c v,
     (v = ServiceContainer.services_ready (cont w c) →
        ServiceContainer.services_ready_setter c v w = (Ok tt, w))
     ∧ (v ≠ ServiceContainer.services_ready (cont w c) →
          ∃ w', ServiceContainer.services_ready_setter c v w = (Ok tt, w')
            ∧ ServiceContainer.services_ready (cont w' c) = v
            ∧ calls w' = calls w ++ map (λ k, ServicesReadyChanged c k v)
                (ServiceContainer.on_services_ready_changed (cont w c)))).
Proof.
  split.
  - intros s v. split.
    + apply ready_setter_same.
    + intros Hne. destruct (ready_setter_flip s v w Hne)
        as (w' & E & (Es & _) & _ & evs & Evs & Hevs).
      exists w', evs. repeat split; try done. by rewrite Es.
  - intros c v. split.
    + apply services_ready_setter_same.
    + intros Hne. eexists. rewrite services_ready_setter_flip by done.
      split; [done|]. simpl. split; [|done]. by rewrite fn_lookup_insert.
Qed.

(** Service 0 with two subscribers, the bound method of container 3
    first, and container 3 with one subscriber. *)
Definition subscribed : World :=
  (set_container 3 (λ _, ServiceContainer.mk [0] false [7])
     (set_service 0 (Service.with_on_ready_changed [BoundUpdateServicesReady 3; Callable 5])
        blank).2).2.

Lemma setters_notify_once_per_transition_witness :
  (Service.ready_setter 0 false subscribed).2 = subscribed
  ∧ calls (Service.ready_setter 0 true subscribed).2
    = [ReadyChanged 0 (BoundUpdateServicesReady 3) true;
       ServicesReadyChanged 3 7 true;
       ReadyChanged 0 (Callable 5) true].
Proof.
  destruct (setters_notify_once_per_transition subscribed) as [Hs _].
  split.
  - destruct (Hs 0 false) as [Hsame _]. rewrite Hsame; [done | vm_compute; reflexivity].
  - vm_compute. reflexivity.
Defined.

(** ** Starting and stopping discovery *)

(** What [start] leaves as it was: services, containers, the calls made,
    and of every discovery all but its session and browser lists. *)
Definition browsing (w w' : World) : Prop :=
  svc w' = svc w ∧ cont w' = cont w ∧ calls w' = calls w
  ∧ ∀ d, ServiceDiscovery.is_ready (disc w' d) = ServiceDiscovery.is_ready (disc w d)
       ∧ ServiceDiscovery.services (disc w' d) = ServiceDiscovery.services (disc w d)
       ∧ ServiceDiscovery.nameservers (disc w' d) = ServiceDiscovery.nameservers (disc w d)
       ∧ ServiceDiscovery.filter (disc w' d) = ServiceDiscovery.filter (disc w d).

Definition keeps_browsing {A} (m : M A) : Prop := ∀ w, browsing w (m w).2.

Lemma browsing_refl w : browsing w w.
Proof. by repeat split. Qed.

Lemma browsing_trans w1 w2 w3 : browsing w1 w2 → browsing w2 w3 → browsing w1 w3.
Proof.
  intros (?&?&?&H12) (?&?&?&H23). repeat split; try congruence;
    destruct (H12 d) as (?&?&?&?), (H23 d) as (?&?&?&?); congruence.
Qed.

Lemma keeps_browsing_bind {A B} (m : M A) (k : A → M B) :
  keeps_browsing m → (∀ a, keeps_browsing (k a)) → keeps_browsing (m ≫= k).
Proof.
  intros Hm Hk w. unfold mbind, M_bind. specialize (Hm w).
  destruct (m w) as [[a|e] w1]; simpl in *; [|done].
  eapply browsing_trans; [exact Hm | apply Hk].
Qed.

Lemma keeps_browsing_ret {A} (a : A) : keeps_browsing (mret a).
Proof. intros w. apply browsing_refl. Qed.

Lemma keeps_browsing_raise {A} e : keeps_browsing (@raise A e).
Proof. intros w. apply browsing_refl. Qed.

Lemma keeps_browsing_for_each {A} (l : list A) body :
  (∀ x, keeps_browsing (body x)) → keeps_browsing (for_each l body).
Proof.
  intros Hb. induction l as [|x l IH]; simpl.
  - apply keeps_browsing_ret.
  - apply keeps_browsing_bind; [apply Hb | intros _; apply IH].
Qed.

Lemma keeps_browsing_set_lists d f :
  (∀ o, ServiceDiscovery.is_ready (f o) = ServiceDiscovery.is_ready o
      ∧ ServiceDiscovery.services (f o) = ServiceDiscovery.services o
      ∧ ServiceDiscovery.nameservers (f o) = ServiceDiscovery.nameservers o
      ∧ ServiceDiscovery.filter (f o) = ServiceDiscovery.filter o) →
  keeps_browsing (set_discovery d f).
Proof.
  intros Hf w. repeat split; simpl;
    (destruct (decide (d = d0)) as [<-|Hd];
      [rewrite fn_lookup_insert; apply Hf | by rewrite fn_lookup_insert_ne]).
Qed.

Lemma keeps_browsing__start_discovery d :
  keeps_browsing (ServiceDiscovery._start_discovery d).
Proof.
  unfold ServiceDiscovery._start_discovery.
  repeat (apply keeps_browsing_bind; [|intros ?]);
    try (apply keeps_browsing_set_lists; by intros []).
  - intros w. apply browsing_refl.
  - destruct (ServiceDiscovery.any_nameserver _).
    + unfold ServiceDiscovery._start_unicast_discovery.
      apply keeps_browsing_bind; [intros w; apply browsing_refl | intros self].
      apply keeps_browsing_for_each. intros s.
      apply keeps_browsing_bind; [intros w; apply browsing_refl | intros service].
      apply keeps_browsing_bind; [intros w; by repeat split | intros zeroconf].
      apply keeps_browsing_bind.
      * unfold ServiceDiscovery._zeroconfs_append.
        apply keeps_browsing_bind; [intros w; apply browsing_refl | intros o].
        destruct (ServiceDiscovery._zeroconfs o);
          [apply keeps_browsing_set_lists; by intros [] | apply keeps_browsing_raise].
      * intros _. apply keeps_browsing_for_each. intros nameserver.
        unfold ServiceDiscovery._browsers_append.
        apply keeps_browsing_bind; [intros w; apply browsing_refl | intros o].
        destruct (ServiceDiscovery._browsers o);
          [apply keeps_browsing_set_lists; by intros [] | apply keeps_browsing_raise].
    + unfold ServiceDiscovery._start_multicast_discovery.
      apply keeps_browsing_bind; [intros w; apply browsing_refl | intros self].
      apply keeps_browsing_bind; [intros w; by repeat split | intros zeroconf].
      apply keeps_browsing_bind.
      * unfold ServiceDiscovery._zeroconfs_append.
        apply keeps_browsing_bind; [intros w; apply browsing_refl | intros o].
        destruct (ServiceDiscovery._zeroconfs o);
          [apply keeps_browsing_set_lists; by intros [] | apply keeps_browsing_raise].
      * intros _. unfold ServiceDiscovery._browsers_append.
        apply keeps_browsing_bind; [intros w; apply browsing_refl | intros o].
        destruct (ServiceDiscovery._browsers o);
          [apply keeps_browsing_set_lists; by intros [] | apply keeps_browsing_raise].
Qed.

(** [start] leaves the discovery running, unless it was handed one with
    browsers and [is_ready] false, a state no method leaves. *)
Lemma start_running d w :
  (truthy (ServiceDiscovery._browsers (disc w d)) = true →
   ServiceDiscovery.is_ready (disc w d) = true) →
  ServiceDiscovery.is_ready (disc (ServiceDiscovery.start d w).2 d) = true.
Proof.
  intros Hinv. unfold ServiceDiscovery.start, mbind at 1, M_bind at 1. simpl.
  destruct (truthy _) eqn:Et; simpl; [by apply Hinv|].
  unfold mbind, M_bind at 1. simpl.
  match goal with |- context [ServiceDiscovery._start_discovery d ?w1] =>
    pose proof (keeps_browsing__start_discovery d w1) as (_&_&_&Hd);
    destruct (ServiceDiscovery._start_discovery d w1) as [[[]|e] w'] eqn:E
  end; simpl in *; destruct (Hd d) as (-> & _); by rewrite fn_lookup_insert.
Qed.

(** C3. While a ServiceDiscovery is running, that is while [is_ready]
    holds as [start()] left it, [register(item)] and [unregister(item)]
    raise [RuntimeError] whatever the item is, and leave the registered
    services, as every other object, as they were. *)
Theorem register_refused_while_running w d item :
  ServiceDiscovery.is_ready (disc w d) = true →
  ServiceDiscovery.register d item w = (Raise RuntimeError, w)
  ∧ ServiceDiscovery.unregister d item w = (Raise RuntimeError, w).
Proof.
  intros Hr. unfold ServiceDiscovery.register, ServiceDiscovery.unregister.
  unfold mbind, M_bind. simpl. by rewrite Hr.
Qed.

Lemma register_refused_while_running_witness :
  ServiceDiscovery.register 0 (PService 1) (ServiceDiscovery.start 0 blank).2
  = (Raise RuntimeError, (ServiceDiscovery.start 0 blank).2).
Proof.
  apply (register_refused_while_running (ServiceDiscovery.start 0 blank).2 0 (PService 1)).
  vm_compute. reflexivity.
Defined.

(** ** Containers follow their members *)

Lemma aggregated_ext w w' c :
  (∀ s, Service.ready (svc w' s) = Service.ready (svc w s)) →
  cont w' c = cont w c → aggregated w c → aggregated w' c.
Proof.
  unfold aggregated. intros Hr -> ->.
  induction (ServiceContainer.services (cont w c)) as [|s l IH]; simpl; [done|].
  by rewrite Hr, IH.
Qed.

Section WithCodec.
Context `{Codec}.

(** A mutating method is a write of the record collection, then [_update]. *)
Lemma mutate_update s m w r w' :
  mutate s m w = (r, w') →
  ∃ w1, svc w1 s = Service.with_service_infos (records_after m (svc w s)) (svc w s)
    ∧ (∀ s', s' ≠ s → svc w1 s' = svc w s')
    ∧ cont w1 = cont w ∧ disc w1 = disc w ∧ calls w1 = calls w
    ∧ Service._update s w1 = (r, w').
Proof.
  destruct m as [info|info|]; simpl.
  - unfold Service.add_service_info. rewrite bind_set_service. intros E.
    eexists. split; [|split; [|split; [|split; [|split; [|exact E]]]]]; simpl; try done.
    + by rewrite fn_lookup_insert.
    + intros s' Hs. by rewrite fn_lookup_insert_ne.
  - unfold Service.remove_service_info. rewrite bind_get_service.
    destruct (Service.first_equal _ _) as [info'|] eqn:Ef.
    + destruct (first_equal_remove _ _ _ Ef) as [l El]. rewrite El. simpl.
      rewrite bind_set_service. intros E.
      eexists. split; [|split; [|split; [|split; [|split; [|exact E]]]]]; simpl; try done.
      * by rewrite fn_lookup_insert.
      * intros s' Hs. by rewrite fn_lookup_insert_ne.
    + intros E. exists w. rewrite with_service_infos_id. repeat split; try done.
  - unfold Service.clear_service_infos. rewrite bind_set_service. intros E.
    eexists. split; [|split; [|split; [|split; [|split; [|exact E]]]]]; simpl; try done.
    + by rewrite fn_lookup_insert.
    + intros s' Hs. by rewrite fn_lookup_insert_ne.
Qed.

(** When [_update] flips [ready], every subscribed container ends
    aggregated. *)
Lemma _update_aggregates s w w' :
  Service._update s w = (Ok tt, w') →
  Service.ready (svc w' s) ≠ Service.ready (svc w s) →
  ∀ c, BoundUpdateServicesReady c ∈ Service.on_ready_changed (svc w s) → aggregated w' c.
Proof.
  unfold Service._update. rewrite bind_get_service.
  destruct (Service.service_infos (svc w s)) as [|info infos] eqn:Einfos.
  - intros E Hflip c Hc.
    destruct (decide (false = Service.ready (svc w s))) as [Hsame|Hne].
    + exfalso. apply Hflip. rewrite (bind_ok _ _ _ _ _ (ready_setter_same s false w Hsame)) in E.
      injection E as <-. simpl. rewrite !fn_lookup_insert. simpl. done.
    + destruct (ready_setter_flip s false w Hne) as (w1 & E1 & _ & Agg & _).
      rewrite (bind_ok _ _ _ _ _ E1) in E. injection E as <-.
      apply (aggregated_ext w1); [|done|by apply Agg].
      intros s'. simpl. destruct (decide (s = s')) as [<-|Hs].
      * by rewrite !fn_lookup_insert.
      * by rewrite !fn_lookup_insert_ne.
  - unfold Service._set_all_values_from_service_info, lift.
    unfold mbind, M_bind. simpl.
    destruct (Service.txt_decode (ServiceInfo.get info "dsn")) as [uri|?]; simpl; [|done].
    destruct (Service.txt_decode (ServiceInfo.get info "uuid")) as [uuid|?]; simpl; [|done].
    match goal with |- context [Service.ready_setter s true ?w1] => set (w1' := w1) end.
    intros E Hflip c Hc.
    assert (Hr1 : Service.ready (svc w1' s) = Service.ready (svc w s))
      by (subst w1'; simpl; by rewrite !fn_lookup_insert).
    assert (Hc1 : Service.on_ready_changed (svc w1' s) = Service.on_ready_changed (svc w s))
      by (subst w1'; simpl; by rewrite !fn_lookup_insert).
    destruct (decide (true = Service.ready (svc w1' s))) as [Hsame|Hne].
    + exfalso. apply Hflip. rewrite (ready_setter_same s true w1' Hsame) in E.
      injection E as <-. congruence.
    + destruct (ready_setter_flip s true w1' Hne) as (w1 & E1 & _ & Agg & _).
      rewrite E1 in E. injection E as <-. apply Agg. by rewrite Hc1.
Qed.

Lemma mutate_aggregates s m w w' :
  mutate s m w = (Ok tt, w') →
  Service.ready (svc w' s) ≠ Service.ready (svc w s) →
  ∀ c, BoundUpdateServicesReady c ∈ Service.on_ready_changed (svc w s) → aggregated w' c.
Proof.
  intros E Hflip c Hc.
  destruct (mutate_update s m w _ _ E) as (w1 & Es & _ & _ & _ & _ & Eu).
  apply (_update_aggregates s w1 w' Eu); rewrite Es; by destruct (svc w s).
Qed.
End WithCodec.

(** [add_service] and [remove_service] write the member list and the
    subscription, and never [_services_ready]. *)
Lemma add_service_keeps_services_ready c item w c' :
  ServiceContainer.services_ready (cont (ServiceContainer.add_service c item w).2 c')
  = ServiceContainer.services_ready (cont w c').
Proof.
  destruct item; simpl; try done.
  destruct (decide (c = c')) as [<-|Hc].
  - by rewrite fn_lookup_insert.
  - by rewrite fn_lookup_insert_ne.
Qed.

Lemma remove_service_keeps_services_ready c item w c' :
  ServiceContainer.services_ready (cont (ServiceContainer.remove_service c item w).2 c')
  = ServiceContainer.services_ready (cont w c').
Proof.
  destruct item as [s| | |]; simpl; try done.
  unfold mbind, M_bind. simpl.
  destruct (list_remove Nat.eqb s _) as [l|]; simpl; [|done].
  assert (Hc : ServiceContainer.services_ready
                 ((<[c := ServiceContainer.with__services l (cont w c)]> (cont w)) c')
               = ServiceContainer.services_ready (cont w c')).
  { destruct (decide (c = c')) as [<-|Hc].
    - by rewrite fn_lookup_insert.
    - by rewrite fn_lookup_insert_ne. }
  destruct (list_remove _ (BoundUpdateServicesReady c) _); simpl; exact Hc.
Qed.

Lemma add_service_subscribes c s w :
  ∃ w', ServiceContainer.add_service c (PService s) w = (Ok tt, w')
    ∧ s ∈ ServiceContainer.services (cont w' c)
    ∧ BoundUpdateServicesReady c ∈ Service.on_ready_changed (svc w' s).
Proof.
  eexists. split; [done|]. simpl. rewrite !fn_lookup_insert. simpl.
  split; apply elem_of_app; right; apply list_elem_of_here.
Qed.

(** C2, as the code has it.  A container is constructed with
    [services_ready] false, and [add_service] and [remove_service] leave
    [services_ready] as it is.  It is recomputed by [_update_services_ready],
    which every flip of the [ready] of a subscribed member runs: from the
    setter, and so from each mutating method of the member.  After that
    [services_ready] is the conjunction of [ready] over the members, true
    when there are none. *)
Theorem services_ready_follows_member_flips `{Codec} w :
  ServiceContainer.services_ready ServiceContainer.__init__ = false
  ∧ (∀ c item c',
       ServiceContainer.services_ready (cont (ServiceContainer.add_service c item w).2 c')
       = ServiceContainer.services_ready (cont w c')
       ∧ ServiceContainer.services_ready
           (cont (ServiceContainer.remove_service c item w).2 c')
         = ServiceContainer.services_ready (cont w c'))
  ∧ (∀ c value, ∃ w',
       ServiceContainer._update_services_ready c value w = (Ok tt, w')
       ∧ ServiceContainer.services_ready (cont w' c)
         = forallb (λ s, Service.ready (svc w' s)) (ServiceContainer.services (cont w' c)))
  ∧ (∀ s value, value ≠ Service.ready (svc w s) →
       ∃ w', Service.ready_setter s value w = (Ok tt, w')
         ∧ ∀ c, BoundUpdateServicesReady c ∈ Service.on_ready_changed (svc w s) →
             ServiceContainer.services_ready (cont w' c)
             = forallb (λ s, Service.ready (svc w' s))
                       (ServiceContainer.services (cont w' c)))
  ∧ (∀ s m w', mutate s m w = (Ok tt, w') →
       Service.ready (svc w' s) ≠ Service.ready (svc w s) →
       ∀ c, BoundUpdateServicesReady c ∈ Service.on_ready_changed (svc w s) →
         ServiceContainer.services_ready (cont w' c)
         = forallb (λ s, Service.ready (svc w' s))
                   (ServiceContainer.services (cont w' c))).
Proof.
  split; [done|]. split; [|split; [|split]].
  - intros c item c'. split.
    + apply add_service_keeps_services_ready.
    + apply remove_service_keeps_services_ready.
  - intros c value.
    destruct (_update_services_ready_spec c value w) as (w' & E & _ & Agg & _).
    by exists w'.
  - intros s value Hne.
    destruct (ready_setter_flip s value w Hne) as (w' & E & _ & Agg & _).
    exists w'. split; [done|]. intros c Hc. by apply Agg.
  - intros s m w' E Hflip c Hc. by apply (mutate_aggregates s m w w' E Hflip c Hc).
Qed.

Lemma services_ready_follows_member_flips_witness :
  ServiceContainer.services_ready
    (cont (@mutate ascii_codec 0 (AddRecord record_a) subscribed).2 3) = true.
Proof.
  destruct (@services_ready_follows_member_flips ascii_codec subscribed)
    as (_ & _ & _ & _ & Hm).
  rewrite (Hm 0 (AddRecord record_a)
              (@mutate ascii_codec 0 (AddRecord record_a) subscribed).2).
  - vm_compute. reflexivity.
  - vm_compute. reflexivity.
  - vm_compute. discriminate.
  - vm_compute. apply list_elem_of_here.
Defined.

(** The claim as stated fails on a freshly constructed container, which
    has no member and [services_ready] false, and after [add_service]:
    container 3, aggregated and empty, is handed service 1, not ready, and
    keeps [services_ready] true. *)
Lemma services_ready_is_not_always_the_conjunction :
  (cont blank 0 = ServiceContainer.__init__
   ∧ ServiceContainer.services (cont blank 0) = []
   ∧ ServiceContainer.services_ready (cont blank 0) = false
   ∧ ¬ aggregated blank 0)
  ∧ (let w := (ServiceContainer.add_service 3 (PService 1)
                 (ServiceContainer._update_services_ready 3 true blank).2).2 in
     ServiceContainer.services (cont w 3) = [1]
     ∧ Service.ready (svc w 1) = false
     ∧ ServiceContainer.services_ready (cont w 3) = true
     ∧ ¬ aggregated w 3).
Proof.
  split.
  - repeat split. vm_compute. discriminate.
  - repeat split. vm_compute. discriminate.
Qed.

(** ** Stopping *)

Lemma bind_get_discovery {B} d (k : ServiceDiscovery.t → M B) w :
  (get_discovery d ≫= k) w = k (disc w d) w.
Proof. reflexivity. Qed.

Lemma bind_set_discovery {B} d f (k : unit → M B) w :
  (set_discovery d f ≫= k) w
  = k tt (mkWorld (svc w) (cont w) (<[d := f (disc w d)]> (disc w))
                  (sessions w) (next_session w) (calls w)).
Proof. reflexivity. Qed.

(** Runs a leading attribute write of the method in the goal. *)
Ltac run_set_discovery :=
  match goal with
  | |- ∃ _, ?m ?w0 = _ ∧ _ => rewrite (bind_set_discovery _ _ _ w0)
  end.

Lemma for_each_close_session zs w :
  ∃ w', for_each zs close_session w = (Ok tt, w')
    ∧ svc w' = svc w ∧ cont w' = cont w ∧ disc w' = disc w
    ∧ next_session w' = next_session w ∧ calls w' = calls w
    ∧ (∀ z, z ∈ zs → Zeroconf.closed (sessions w' z) = true)
    ∧ (∀ z, Zeroconf.closed (sessions w z) = true → Zeroconf.closed (sessions w' z) = true)
    ∧ (∀ z, z ∉ zs → sessions w' z = sessions w z).
Proof.
  revert w. induction zs as [|z0 zs IH]; intros w; simpl.
  - exists w. repeat split; try done. intros z Hz. by apply elem_of_nil in Hz.
  - unfold mbind, M_bind. simpl.
    match goal with |- context [for_each zs close_session ?w1] =>
      destruct (IH w1) as (w' & E & ? & ? & ? & ? & ? & Hin & Hkeep & Hout)
    end.
    exists w'. rewrite E. simpl in *. repeat split; try done.
    + intros z Hz. destruct (decide (z ∈ zs)) as [Hzs|Hzs]; [by apply Hin|].
      apply elem_of_cons in Hz as [->|Hz]; [|done].
      apply Hkeep. by rewrite fn_lookup_insert.
    + intros z Hz. apply Hkeep. destruct (decide (z0 = z)) as [->|Hne].
      * by rewrite fn_lookup_insert.
      * by rewrite fn_lookup_insert_ne.
    + intros z Hz. apply not_elem_of_cons in Hz as [Hz1 Hz2].
      rewrite Hout by done. by rewrite fn_lookup_insert_ne.
Qed.

(** A service with no record, as [clear_service_infos] leaves it. *)
Definition cleared (o : Service.t) : Service.t :=
  Service.mk (Service.type o) (Service.domain o) (Service.base_type o) (Service.protocol o)
             "" "" "" (PyInt 0) false [] (Service.on_ready_changed o).

Section WithCodec.
Context `{Codec}.

Lemma clear_service_infos_spec s w :
  ∃ w', Service.clear_service_infos s w = (Ok tt, w') ∧ service_step s cleared w w'.
Proof. exact (mutate_spec s ClearRecords w). Qed.

Lemma for_each_clear_service_infos l w :
  ∃ w', for_each l Service.clear_service_infos w = (Ok tt, w')
    ∧ disc w' = disc w ∧ sessions w' = sessions w ∧ next_session w' = next_session w
    ∧ (∀ s, s ∈ l → svc w' s = cleared (svc w s))
    ∧ (∀ s, s ∉ l → svc w' s = svc w s).
Proof.
  revert w. induction l as [|s0 l IH]; intros w; simpl.
  - exists w. repeat split; try done. intros s Hs. by apply elem_of_nil in Hs.
  - destruct (clear_service_infos_spec s0 w) as (w1 & E1 & (Es & Eo & ? & ? & ? & _)).
    destruct (IH w1) as (w' & E & ? & ? & ? & Hin & Hout).
    exists w'. rewrite (bind_ok _ _ _ _ _ E1), E. repeat split; try congruence.
    + intros s Hs. destruct (decide (s ∈ l)) as [Hl|Hl].
      * rewrite (Hin s Hl). destruct (decide (s = s0)) as [->|Hne].
        -- by rewrite Es.
        -- by rewrite Eo.
      * apply elem_of_cons in Hs as [->|Hs]; [|done]. by rewrite (Hout s0 Hl).
    + intros s Hs. apply not_elem_of_cons in Hs as [Hs1 Hs2].
      rewrite (Hout s Hs2). by apply Eo.
Qed.

(** C6, as the code has it.  [stop()] on a discovery that has a browser,
    which is what it tests, and the sessions [start()] opened and listed in
    [_zeroconfs], closes each of these sessions, empties the lists of
    sessions and of browsers, sets [is_ready] to false, and clears every
    registered service: no record, not ready, [name == uri == uuid == ''],
    [version == 0].  On a discovery with no browser [stop()] changes
    nothing, whatever [is_ready] is. *)
Theorem stop_closes_sessions_and_clears_services w d :
  (truthy (ServiceDiscovery._browsers (disc w d)) = false →
     ServiceDiscovery.stop d w = (Ok tt, w))
  ∧ (truthy (ServiceDiscovery._browsers (disc w d)) = true →
     ∀ zeroconfs, ServiceDiscovery._zeroconfs (disc w d) = Some zeroconfs →
     ∃ w', ServiceDiscovery.stop d w = (Ok tt, w')
       ∧ (∀ z, z ∈ zeroconfs → Zeroconf.closed (sessions w' z) = true)
       ∧ ServiceDiscovery._zeroconfs (disc w' d) = Some []
       ∧ ServiceDiscovery._browsers (disc w' d) = Some []
       ∧ ServiceDiscovery.is_ready (disc w' d) = false
       ∧ ∀ s, s ∈ ServiceDiscovery.services (disc w d) →
           Service.service_infos (svc w' s) = []
           ∧ Service.ready (svc w' s) = false
           ∧ Service.name (svc w' s) = "" ∧ Service.uri (svc w' s) = ""
           ∧ Service.uuid (svc w' s) = "" ∧ Service.version (svc w' s) = PyInt 0).
Proof.
  unfold ServiceDiscovery.stop. rewrite bind_get_discovery. split; intros Ht; rewrite Ht.
  - done.
  - intros zs Hzs. rewrite bind_set_discovery.
    unfold ServiceDiscovery._stop_discovery. rewrite bind_get_discovery. simpl.
    rewrite fn_lookup_insert. simpl. rewrite Hzs.
    match goal with |- context [(for_each zs close_session ≫= _) ?w0] =>
      destruct (for_each_close_session zs w0)
        as (w1 & E1 & Hs1 & Hc1 & Hd1 & Hn1 & Hk1 & Hin & _ & _)
    end.
    assert (Hd1' : disc w1 d = ServiceDiscovery.with_is_ready false (disc w d))
      by (rewrite Hd1; simpl; by rewrite fn_lookup_insert).
    rewrite (bind_ok _ _ _ _ _ E1). rewrite bind_get_discovery.
    rewrite Hd1'. simpl. rewrite Hzs. cbv beta iota.
    run_set_discovery. rewrite bind_get_discovery. simpl.
    rewrite fn_lookup_insert, Hd1'. simpl.
    destruct (ServiceDiscovery._browsers (disc w d)) as [bs|] eqn:Hbs; [|done].
    cbv beta iota. run_set_discovery. rewrite bind_get_discovery. simpl.
    rewrite !fn_lookup_insert. simpl.
    match goal with |- context [for_each ?l Service.clear_service_infos ?w3] =>
      destruct (for_each_clear_service_infos l w3)
        as (w' & E & Hd & Hse & Hn & Hcl & _)
    end.
    exists w'. split; [exact E|]. simpl in *.
    rewrite Hd, Hse. rewrite !fn_lookup_insert. simpl.
    repeat split; try done.
    all: by rewrite (Hcl s).
Qed.
End WithCodec.

(** Discovery 0 running over services 0 and 1, each holding [record_a]. *)
Definition discovering : World :=
  @serve_all ascii_codec 0
    [Register (PService 0); Register (PService 1); Start;
     AddService (λ _ _, Some record_a) "_machinekit._tcp.local." "a"]
    blank.

Lemma stop_closes_sessions_and_clears_services_witness :
  ServiceDiscovery.is_ready (disc discovering 0) = true
  ∧ ∃ w', @ServiceDiscovery.stop ascii_codec 0 discovering = (Ok tt, w')
      ∧ Zeroconf.closed (sessions w' 0) = true
      ∧ ServiceDiscovery.is_ready (disc w' 0) = false
      ∧ Service.service_infos (svc w' 0) = [] ∧ Service.ready (svc w' 0) = false
      ∧ Service.service_infos (svc w' 1) = [] ∧ Service.ready (svc w' 1) = false.
Proof.
  split; [vm_compute; reflexivity|].
  pose proof (proj2 (@stop_closes_sessions_and_clears_services ascii_codec discovering 0))
    as Hstop.
  assert (Ht : truthy (ServiceDiscovery._browsers (disc discovering 0)) = true)
    by (vm_compute; reflexivity).
  assert (Hz : ServiceDiscovery._zeroconfs (disc discovering 0) = Some [0])
    by (vm_compute; reflexivity).
  assert (Hs : ServiceDiscovery.services (disc discovering 0) = [0; 1])
    by (vm_compute; reflexivity).
  specialize (Hstop Ht [0] Hz). clear Ht Hz.
  destruct Hstop as (w' & E & Hclosed & _ & _ & Hr & Hcl).
  rewrite Hs in Hcl. clear Hs.
  exists w'. split; [exact E|]. clear E.
  split; [exact (Hclosed 0 (list_elem_of_here 0 []))|].
  split; [exact Hr|].
  pose proof (Hcl 0 (list_elem_of_here 0 [1])) as (H0 & H0' & _).
  pose proof (Hcl 1 (list_elem_of_further 1 0 [1] (list_elem_of_here 1 []))) as (H1 & H1' & _).
  exact (conj H0 (conj H0' (conj H1 H1'))).
Defined.

(** ** Records delivered by the browser *)

(** The filter's test, when it returns: the name is a substring of the
    record's, and every TXT item of the filter is an item of the record. *)
Definition filter_accepts (f : ServiceDiscoveryFilter.t) (info : ServiceInfo.t) : bool :=
  str_in (ServiceDiscoveryFilter.name f) (ServiceInfo.name info)
  && forallb (λ item, bool_decide (ServiceInfo.properties info !! item.1 = Some item.2))
             (ServiceDiscoveryFilter.txt_records f).

Lemma check_txt_records_ok properties items match_ b :
  ServiceDiscoveryFilter.check_txt_records properties items match_ = Ok b →
  b = match_ && forallb (λ item, bool_decide (properties !! item.1 = Some item.2)) items.
Proof.
  induction items as [|[k v] items IH]; simpl.
  - intros [= <-]. by rewrite andb_true_r.
  - destruct (properties !! k) as [x|]; [|done].
    destruct (decide (x = v)) as [->|Hne].
    + rewrite bool_decide_eq_true_2 by done. simpl. intros Hc.
      rewrite bool_decide_eq_true_2 by done. by apply IH.
    + rewrite bool_decide_eq_false_2 by done. simpl. intros [= <-].
      rewrite bool_decide_eq_false_2 by congruence. simpl. by rewrite andb_false_r.
Qed.

Lemma filter_matches_ok f info b :
  ServiceDiscoveryFilter.matches_service_info f (PServiceInfo info) = Ok b →
  b = filter_accepts f info.
Proof.
  unfold ServiceDiscoveryFilter.matches_service_info, filter_accepts. intros Hc.
  apply check_txt_records_ok in Hc as ->. by destruct (str_in _ _).
Qed.

Section WithCodec.
Context `{Codec}.

(** The service's test, when it returns: the record's [b'service'] value
    decodes to the service's [type], and [typestring] is a substring of
    the record's type. *)
Definition service_accepts (self : Service.t) (info : ServiceInfo.t) : bool :=
  bool_decide (Service.txt_decode (ServiceInfo.get info "service") = Ok (Service.type self))
  && str_in (Service.typestring self) (ServiceInfo.type info).

Lemma service_matches_ok self info b :
  Service.matches_service_info self info = Ok b → b = service_accepts self info.
Proof.
  unfold Service.matches_service_info, service_accepts.
  destruct (Service.txt_decode _) as [service|e]; [|done]. intros [= <-]. f_equal.
  destruct (String.eqb _ _) eqn:E.
  - apply String.eqb_eq in E as ->. by rewrite bool_decide_eq_true_2.
  - apply String.eqb_neq in E. rewrite bool_decide_eq_false_2; [done | congruence].
Qed.

Lemma service_accepts_ext self self' info :
  Service.type self' = Service.type self →
  Service.typestring self' = Service.typestring self →
  service_accepts self' info = service_accepts self info.
Proof. unfold service_accepts. by intros -> ->. Qed.

Lemma both_match_ok self s info w b w' :
  ServiceDiscovery.both_match self s info w = (Ok b, w') →
  w' = w ∧ b = filter_accepts (ServiceDiscovery.filter self) info
               && service_accepts (svc w s) info.
Proof.
  unfold ServiceDiscovery.both_match, mbind, M_bind, lift. simpl.
  destruct (ServiceDiscoveryFilter.check_txt_records _ _ _) as [bf|e] eqn:Ef; [|done].
  apply (filter_matches_ok (ServiceDiscovery.filter self) info) in Ef as ->.
  destruct (filter_accepts _ _); simpl.
  - destruct (Service.matches_service_info _ _) as [bs|e] eqn:Es; [|done].
    apply service_matches_ok in Es as ->. by intros [= <- <-].
  - by intros [= <- <-].
Qed.

(** [add_service_info], when it returns, has appended the record and left
    what [matches_service_info] reads, and every other service. *)
Lemma add_service_info_ok s info w w' :
  Service.add_service_info s info w = (Ok tt, w') →
  Service.service_infos (svc w' s) = Service.service_infos (svc w s) ++ [info]
  ∧ Service.type (svc w' s) = Service.type (svc w s)
  ∧ Service.typestring (svc w' s) = Service.typestring (svc w s)
  ∧ (∀ s', s' ≠ s → svc w' s' = svc w s')
  ∧ disc w' = disc w ∧ sessions w' = sessions w ∧ next_session w' = next_session w.
Proof.
  intros E. pose proof (mutate_spec s (AddRecord info) w) as Hm. simpl in Hm.
  unfold resolved in Hm. simpl in Hm.
  destruct (Service.service_infos (svc w s) ++ [info]) as [|i l] eqn:El.
  { by destruct (Service.service_infos (svc w s)). }
  destruct (Service.txt_decode (ServiceInfo.get i "dsn")); simpl in Hm;
    [|destruct Hm as (? & Hm); rewrite E in Hm; discriminate].
  destruct (Service.txt_decode (ServiceInfo.get i "uuid")); simpl in Hm;
    [|destruct Hm as (? & Hm); rewrite E in Hm; discriminate].
  destruct Hm as (w'' & E' & (Es & Eo & ? & ? & ? & _)).
  rewrite E in E'. injection E' as <-. rewrite Es. simpl.
  unfold Service.typestring. simpl. repeat split; try done.
Qed.

Lemma add_service_loop self info l w w' :
  for_each l (λ s,
    matched ← ServiceDiscovery.both_match self s info;
    if (matched : bool) then Service.add_service_info s info else mret tt) w
  = (Ok tt, w') →
  disc w' = disc w ∧ sessions w' = sessions w ∧ next_session w' = next_session w
  ∧ ∀ s,
      Service.service_infos (svc w' s)
      = Service.service_infos (svc w s)
        ++ (if filter_accepts (ServiceDiscovery.filter self) info
               && service_accepts (svc w s) info
            then repeat info (count_occ Nat.eq_dec l s) else [])
      ∧ Service.type (svc w' s) = Service.type (svc w s)
      ∧ Service.typestring (svc w' s) = Service.typestring (svc w s).
Proof.
  revert w. induction l as [|s0 l IH]; intros w; simpl.
  - intros [= <-]. repeat split; try done.
    destruct (_ && _); simpl; by rewrite app_nil_r.
  - intros E. apply bind_inv in E as ([] & w1 & Eb & El).
    apply bind_inv in Eb as (matched & w0 & Em & Eb).
    apply both_match_ok in Em as [-> ->].
    destruct (IH w1 El) as (Hd & Hse & Hn & Hl). clear IH El.
    destruct (filter_accepts _ _ && service_accepts (svc w s0) info) eqn:Eacc.
    + apply add_service_info_ok in Eb as (Ea & Et & Ets & Eo & Hd1 & Hse1 & Hn1).
      split; [congruence|]. split; [congruence|]. split; [congruence|]. intros s.
      destruct (Hl s) as (Hi & Hty & Htys).
      destruct (Nat.eq_dec s0 s) as [<-|Hne].
      * rewrite Hi, Ea, Hty, Htys, Et, Ets.
        rewrite (service_accepts_ext (svc w s0) (svc w1 s0)) by done.
        rewrite Eacc. simpl. by rewrite <- app_assoc.
      * rewrite Hi, Hty, Htys, (Eo s) by done. done.
    + injection Eb as <-. split; [done|]. split; [done|]. split; [done|]. intros s.
      destruct (Hl s) as (Hi & Hty & Htys). rewrite Hi.
      destruct (Nat.eq_dec s0 s) as [<-|Hne]; [|done].
      rewrite Eacc. done.
Qed.

(** X20. When a record-added event is delivered and the call returns: if
    the resolution gave nothing, nothing has changed; otherwise every
    service has gained the record once per time it is registered if the
    filter and the service both match it (the record's [b'service'] value
    is the service's [type] and its [typestring] is in the record's
    type), and has gained nothing if one of them does not. *)
Theorem add_service_fans_out d zeroconf type_ name w w' :
  ServiceDiscovery.add_service d zeroconf type_ name w = (Ok tt, w') →
  match zeroconf type_ name with
  | None => w' = w
  | Some info =>
      ∀ s, Service.service_infos (svc w' s)
           = Service.service_infos (svc w s)
             ++ (if filter_accepts (ServiceDiscovery.filter (disc w d)) info
                    && service_accepts (svc w s) info
                 then repeat info (count_occ Nat.eq_dec
                                     (ServiceDiscovery.services (disc w d)) s)
                 else [])
  end.
Proof.
  unfold ServiceDiscovery.add_service. destruct (zeroconf type_ name) as [info|].
  - rewrite bind_get_discovery. intros E s.
    by destruct (add_service_loop _ _ _ _ _ E) as (_ & _ & _ & Hl), (Hl s) as (-> & _).
  - by intros [= <-].
Qed.
End WithCodec.

(** Services 0 and 1 registered with one discovery, service 1 of another
    [type]; a record for [webtalk] arrives. *)
Definition two_types : World :=
  @serve_all ascii_codec 0 [Register (PService 0); Register (PService 1); Start]
    (set_service 1 (λ _, Service.__init__ "launcher") blank).2.

Definition record_delivered : World :=
  (@ServiceDiscovery.add_service ascii_codec 0 (λ _ _, Some record_a)
     "_machinekit._tcp.local." "a" two_types).2.

Lemma add_service_fans_out_witness :
  Service.service_infos (svc record_delivered 0) = [record_a]
  ∧ Service.service_infos (svc record_delivered 1) = [].
Proof.
  assert (E : @ServiceDiscovery.add_service ascii_codec 0 (λ _ _, Some record_a)
                "_machinekit._tcp.local." "a" two_types = (Ok tt, record_delivered))
    by (vm_compute; reflexivity).
  pose proof (@add_service_fans_out ascii_codec 0 (λ _ _, Some record_a)
                "_machinekit._tcp.local." "a" two_types record_delivered E) as Hf.
  cbv beta iota in Hf. clear E.
  split; rewrite Hf; vm_compute; reflexivity.
Defined.

(** ** A discovery that cannot be stopped *)

(** Discovery [d] is ready with an empty browser list, no registered
    service and a unicast nameserver. *)
Definition stuck (d : nat) (w : World) : Prop :=
  ServiceDiscovery.is_ready (disc w d) = true
  ∧ ServiceDiscovery._browsers (disc w d) = Some []
  ∧ ServiceDiscovery.services (disc w d) = []
  ∧ ServiceDiscovery.any_nameserver (ServiceDiscovery.nameservers (disc w d)) = true.

Lemma start_without_services d w :
  ServiceDiscovery.services (disc w d) = [] →
  truthy (ServiceDiscovery._browsers (disc w d)) = false →
  ServiceDiscovery.any_nameserver (ServiceDiscovery.nameservers (disc w d)) = true →
  ∃ w', ServiceDiscovery.start d w = (Ok tt, w')
    ∧ stuck d w'
    ∧ ServiceDiscovery._zeroconfs (disc w' d) = Some []
    ∧ sessions w' = sessions w ∧ next_session w' = next_session w.
Proof.
  intros Hs Ht Hn. unfold ServiceDiscovery.start. rewrite bind_get_discovery, Ht.
  cbv beta iota. unfold negb. rewrite (bind_set_discovery _ _ _ w).
  unfold ServiceDiscovery._start_discovery.
  match goal with |- ∃ _, ?m ?w0 = _ ∧ _ => rewrite (bind_set_discovery _ _ _ w0) end.
  match goal with |- ∃ _, ?m ?w0 = _ ∧ _ => rewrite (bind_set_discovery _ _ _ w0) end.
  rewrite bind_get_discovery. simpl. rewrite !fn_lookup_insert. simpl. rewrite Hn.
  unfold ServiceDiscovery._start_unicast_discovery. rewrite bind_get_discovery. simpl.
  rewrite !fn_lookup_insert. simpl. rewrite Hs. simpl.
  eexists. split; [reflexivity|]. unfold stuck. simpl. rewrite !fn_lookup_insert. simpl.
  by rewrite Hs, Hn.
Qed.

Section WithCodec.
Context `{Codec}.

Lemma stuck_serve d r w :
  stuck d w →
  stuck d (serve d r w).2
  ∧ sessions (serve d r w).2 = sessions w
  ∧ next_session (serve d r w).2 = next_session w.
Proof.
  intros (Hr & Hb & Hs & Hn). destruct r as [| |item|item|zeroconf type_ name|zeroconf type_ name];
    simpl.
  - destruct (start_without_services d w Hs) as (w' & -> & ? & _ & ? & ?);
      [by rewrite Hb | done | done].
  - unfold ServiceDiscovery.stop. rewrite bind_get_discovery, Hb. by repeat split.
  - unfold ServiceDiscovery.register. rewrite bind_get_discovery, Hr. by repeat split.
  - unfold ServiceDiscovery.unregister. rewrite bind_get_discovery, Hr. by repeat split.
  - unfold ServiceDiscovery.add_service. destruct (zeroconf type_ name); [|by repeat split].
    rewrite bind_get_discovery, Hs. by repeat split.
  - unfold ServiceDiscovery.remove_service. destruct (zeroconf type_ name); [|by repeat split].
    rewrite bind_get_discovery, Hs. by repeat split.
Qed.

Lemma stuck_serve_all d rs w :
  stuck d w →
  stuck d (serve_all d rs w)
  ∧ sessions (serve_all d rs w) = sessions w
  ∧ next_session (serve_all d rs w) = next_session w.
Proof.
  revert w. induction rs as [|r rs IH]; intros w Hw; simpl; [done|].
  destruct (stuck_serve d r w Hw) as (Hw1 & Hs1 & Hn1).
  destruct (IH _ Hw1) as (? & ? & ?). split; [done|]. split; congruence.
Qed.

(** C9, as the code has it.  A discovery constructed with a nameserver
    list holding a non-empty address, and started with no service
    registered, is ready with no session opened and an empty browser
    list.  [stop()] then changes nothing, and whatever is called on the
    discovery afterwards it stays ready, opens no session, and raises
    [RuntimeError] on [register] and [unregister]. *)
Theorem started_without_services_stays_ready
    service_type filter_ nameservers lookup_interval d w :
  disc w d = ServiceDiscovery.__init__ service_type filter_ nameservers lookup_interval →
  ServiceDiscovery.any_nameserver nameservers = true →
  ∃ w1, ServiceDiscovery.start d w = (Ok tt, w1)
    ∧ ServiceDiscovery.is_ready (disc w1 d) = true
    ∧ ServiceDiscovery._browsers (disc w1 d) = Some []
    ∧ ServiceDiscovery._zeroconfs (disc w1 d) = Some []
    ∧ sessions w1 = sessions w ∧ next_session w1 = next_session w
    ∧ ServiceDiscovery.stop d w1 = (Ok tt, w1)
    ∧ ∀ rs item,
        ServiceDiscovery.is_ready (disc (serve_all d rs w1) d) = true
        ∧ next_session (serve_all d rs w1) = next_session w
        ∧ ServiceDiscovery.register d item (serve_all d rs w1)
          = (Raise RuntimeError, serve_all d rs w1)
        ∧ ServiceDiscovery.unregister d item (serve_all d rs w1)
          = (Raise RuntimeError, serve_all d rs w1).
Proof.
  intros Hd Hn.
  destruct (start_without_services d w) as (w1 & E & Hst & Hz & Hse & Hne);
    try (rewrite Hd; done).
  exists w1. destruct Hst as (Hr & Hb & Hs & Hn1) eqn:Est. clear Est.
  repeat split; try done.
  - unfold ServiceDiscovery.stop. by rewrite bind_get_discovery, Hb.
  - by destruct (stuck_serve_all d rs w1) as ((? & _) & _).
  - destruct (stuck_serve_all d rs w1) as (_ & _ & ->); done.
  - destruct (stuck_serve_all d rs w1) as ((Hr2 & _) & _); [done|].
    unfold ServiceDiscovery.register. by rewrite bind_get_discovery, Hr2.
  - destruct (stuck_serve_all d rs w1) as ((Hr2 & _) & _); [done|].
    unfold ServiceDiscovery.unregister. by rewrite bind_get_discovery, Hr2.
Qed.
End WithCodec.

(** A fresh discovery with one unicast nameserver, and one whose only
    nameserver address is the empty string. *)
Definition unicast_idle : World :=
  (set_discovery 0 (λ _, ServiceDiscovery.__init__ "machinekit"
     (ServiceDiscoveryFilter.__init__ "" []) ["10.0.0.1"] _LOOKUP_INTERVAL) blank).2.

Definition empty_address : World :=
  (set_discovery 0 (λ _, ServiceDiscovery.__init__ "machinekit"
     (ServiceDiscoveryFilter.__init__ "" []) [""] _LOOKUP_INTERVAL) blank).2.

Lemma started_without_services_stays_ready_witness :
  ServiceDiscovery.is_ready
    (disc (@serve_all ascii_codec 0 [Stop; Register (PService 1); Start; Stop]
             (ServiceDiscovery.start 0 unicast_idle).2) 0) = true.
Proof.
  destruct (@started_without_services_stays_ready ascii_codec "machinekit"
              (ServiceDiscoveryFilter.__init__ "" []) ["10.0.0.1"] _LOOKUP_INTERVAL
              0 unicast_idle)
    as (w1 & E & _ & _ & _ & _ & _ & _ & Hall).
  - vm_compute. reflexivity.
  - vm_compute. reflexivity.
  - rewrite E. exact (proj1 (Hall [Stop; Register (PService 1); Start; Stop] PNone)).
Defined.

(** The claim as stated fails when the nameserver list is non-empty but
    holds no non-empty address: [any(self.nameservers)] is false, [start()]
    opens a multicast session, and [stop()] then stops the discovery. *)
Lemma empty_address_starts_multicast :
  ServiceDiscovery.nameservers (disc empty_address 0) ≠ []
  ∧ ServiceDiscovery.services (disc empty_address 0) = []
  ∧ next_session (ServiceDiscovery.start 0 empty_address).2
    = S (next_session empty_address)
  ∧ length <$> ServiceDiscovery._browsers
                 (disc (ServiceDiscovery.start 0 empty_address).2 0) = Some 1
  ∧ ServiceDiscovery.is_ready
      (disc (@ServiceDiscovery.stop ascii_codec 0
               (ServiceDiscovery.start 0 empty_address).2).2 0) = false
  ∧ (ServiceDiscovery.register 0 (PService 1)
       (@ServiceDiscovery.stop ascii_codec 0
          (ServiceDiscovery.start 0 empty_address).2).2).1 = Ok tt.
Proof. repeat split; vm_compute; (reflexivity || discriminate). Qed.

(** C6 as stated fails on a discovery that is running with no browser,
    as one started with a nameserver and no service: [is_ready] is true,
    [register] is refused as on a running discovery, and [stop()] returns
    with [is_ready] still true. *)
Lemma stop_leaves_discovery_without_browser_ready :
  ServiceDiscovery.is_ready (disc (ServiceDiscovery.start 0 unicast_idle).2 0) = true
  ∧ (ServiceDiscovery.register 0 (PService 1) (ServiceDiscovery.start 0 unicast_idle).2).1
    = Raise RuntimeError
  ∧ (@ServiceDiscovery.stop ascii_codec 0 (ServiceDiscovery.start 0 unicast_idle).2).1
    = Ok tt
  ∧ ServiceDiscovery.is_ready
      (disc (@ServiceDiscovery.stop ascii_codec 0
               (ServiceDiscovery.start 0 unicast_idle).2).2 0) = true.
Proof. repeat split; vm_compute; reflexivity. Qed.

(** * Further properties *)

(** ** The two matching tests *)

Lemma str_in_empty s : str_in "" s = true.
Proof. apply str_in_spec. by exists "", s. Qed.

Lemma check_txt_records_raise properties items match_ e :
  ServiceDiscoveryFilter.check_txt_records properties items match_ = Raise e →
  e = KeyError ∧ ∃ k v, (k, v) ∈ items ∧ properties !! k = None.
Proof.
  induction items as [|[k v] items IH]; simpl; [done|].
  destruct (properties !! k) as [x|] eqn:Ek.
  - destruct (negb _); [done|]. intros Hr. destruct (IH Hr) as (-> & k' & v' & Hin & Hk).
    split; [done|]. exists k', v'. split; [by apply list_elem_of_further | done].
  - intros [= <-]. split; [done|]. exists k, v. split; [apply list_elem_of_here | done].
Qed.

Lemma check_txt_records_present properties items match_ :
  (∀ k v, (k, v) ∈ items → is_Some (properties !! k)) →
  ∃ b, ServiceDiscoveryFilter.check_txt_records properties items match_ = Ok b.
Proof.
  induction items as [|[k v] items IH]; simpl; intros Hp; [by eexists|].
  destruct (Hp k v (list_elem_of_here _ _)) as [x ->].
  destruct (negb _); [by eexists|]. apply IH. intros k' v' Hin.
  apply (Hp k' v'). by apply list_elem_of_further.
Qed.

Lemma forallb_items (properties : gmap string txt) (items : list (string * txt)) :
  forallb (λ item, bool_decide (properties !! item.1 = Some item.2)) items = true
  ↔ ∀ k v, (k, v) ∈ items → properties !! k = Some v.
Proof.
  induction items as [|[k v] items IH]; simpl.
  - split; [|done]. intros _ k v Hin. by apply elem_of_nil in Hin.
  - rewrite andb_true_iff, bool_decide_eq_true, IH. simpl. split.
    + intros [Hk Hi] k' v' Hin. apply elem_of_cons in Hin as [[= -> ->]|Hin]; [done|].
      by apply Hi.
    + intros Hall. split.
      * apply Hall, list_elem_of_here.
      * intros k' v' Hin. by apply Hall, list_elem_of_further.
Qed.

(** X1. [ServiceDiscoveryFilter.matches_service_info] raises [TypeError]
    on anything but a record.  On a record it returns when every TXT key
    of the filter is a key of the record, and then returns true exactly
    when the filter's name is a substring of the record's name and every
    TXT item of the filter is an item of the record; when it raises, it
    raises [KeyError], and some TXT key of the filter is missing from the
    record.  A filter with an empty name and no TXT item matches every
    record. *)
Theorem filter_matches_characterised f item :
  match item with
  | PServiceInfo info =>
      (∀ b, ServiceDiscoveryFilter.matches_service_info f item = Ok b →
         (b = true ↔
            (∃ p q, ServiceInfo.name info = p +:+ ServiceDiscoveryFilter.name f +:+ q)
            ∧ ∀ k v, (k, v) ∈ ServiceDiscoveryFilter.txt_records f →
                ServiceInfo.properties info !! k = Some v))
      ∧ ((∀ k v, (k, v) ∈ ServiceDiscoveryFilter.txt_records f →
            is_Some (ServiceInfo.properties info !! k)) →
         ∃ b, ServiceDiscoveryFilter.matches_service_info f item = Ok b)
      ∧ (∀ e, ServiceDiscoveryFilter.matches_service_info f item = Raise e →
           e = KeyError
           ∧ ∃ k v, (k, v) ∈ ServiceDiscoveryFilter.txt_records f
               ∧ ServiceInfo.properties info !! k = None)
      ∧ ServiceDiscoveryFilter.matches_service_info
          (ServiceDiscoveryFilter.__init__ "" []) item = Ok true
  | _ => ServiceDiscoveryFilter.matches_service_info f item = Raise TypeError
  end.
Proof.
  destruct item as [| |info|]; try done. split; [|split; [|split]].
  - intros b Hb. apply filter_matches_ok in Hb as ->. unfold filter_accepts.
    by rewrite andb_true_iff, str_in_spec, forallb_items.
  - intros Hp. by apply check_txt_records_present.
  - intros e He. by apply check_txt_records_raise in He.
  - simpl. by rewrite str_in_empty.
Qed.

(** ** Mutating methods: errors, notifications, the first record *)

Section WithCodec.
Context `{Codec}.

(** What a raising [_update] has written of a service: the name of the
    first record, and the uri when [b'dsn'] decoded and [b'uuid'] did not. *)
Definition half_resolved (self : Service.t) : Service.t :=
  match Service.service_infos self with
  | info :: _ =>
      match Service.txt_decode (ServiceInfo.get info "dsn") with
      | Ok uri => Service.with_uri uri (Service.with_name (ServiceInfo.name info) self)
      | Raise _ => Service.with_name (ServiceInfo.name info) self
      end
  | [] => self
  end.

(** When a TXT value of the first record does not decode, [_update]
    raises what [decode()] raised, having written the name (and the uri):
    the record collection, the subscribers, [ready] and [version] are as
    they were, and no subscriber is called. *)
Lemma _update_raises s w e :
  resolved (svc w s) = Raise e →
  ∃ w', Service._update s w = (Raise e, w')
    ∧ svc w' s = half_resolved (svc w s)
    ∧ (∀ s', s' ≠ s → svc w' s' = svc w s')
    ∧ cont w' = cont w ∧ disc w' = disc w ∧ calls w' = calls w.
Proof.
  unfold resolved, half_resolved, Service._update. rewrite bind_get_service.
  destruct (Service.service_infos (svc w s)) as [|info infos] eqn:Einfos; [done|].
  unfold Service._set_all_values_from_service_info, lift.
  unfold mbind, M_bind. simpl.
  destruct (Service.txt_decode (ServiceInfo.get info "dsn")) as [uri|e1]; simpl.
  2: { intros [= <-]. eexists. split; [done|]. simpl. rewrite fn_lookup_insert.
       repeat split; try done. intros s' Hs. by rewrite fn_lookup_insert_ne. }
  destruct (Service.txt_decode (ServiceInfo.get info "uuid")) as [uuid|e2]; simpl; [done|].
  intros [= <-]. eexists. split; [done|]. simpl. rewrite !fn_lookup_insert.
  repeat split; try done. intros s' Hs. by rewrite !fn_lookup_insert_ne.
Qed.

Lemma half_resolved_keeps self :
  Service.service_infos (half_resolved self) = Service.service_infos self
  ∧ Service.on_ready_changed (half_resolved self) = Service.on_ready_changed self
  ∧ Service.ready (half_resolved self) = Service.ready self
  ∧ Service.uuid (half_resolved self) = Service.uuid self
  ∧ Service.version (half_resolved self) = Service.version self
  ∧ Service.type (half_resolved self) = Service.type self
  ∧ Service.typestring (half_resolved self) = Service.typestring self.
Proof.
  unfold half_resolved, Service.typestring.
  destruct (Service.service_infos self) as [|info l] eqn:E; [done|].
  by destruct (Service.txt_decode _).
Qed.

(** What [_update] does to the calls made: nothing when [ready] stays,
    one call of each subscriber with the new value when it flips. *)
Lemma _update_calls s w w' :
  Service._update s w = (Ok tt, w') →
  (Service.ready (svc w' s) = Service.ready (svc w s) → calls w' = calls w)
  ∧ (Service.ready (svc w' s) ≠ Service.ready (svc w s) →
       ∃ evs, calls w' = calls w ++ evs
         ∧ calls_of_service s evs
           = map (λ cb, (cb, Service.ready (svc w' s)))
                 (Service.on_ready_changed (svc w s))).
Proof.
  unfold Service._update. rewrite bind_get_service.
  destruct (Service.service_infos (svc w s)) as [|info infos] eqn:Einfos.
  - intros E.
    destruct (decide (false = Service.ready (svc w s))) as [Hsame|Hne].
    + rewrite (bind_ok _ _ _ _ _ (ready_setter_same s false w Hsame)) in E.
      injection E as <-. simpl. rewrite !fn_lookup_insert. simpl. split; [done|].
      intros Hflip. by destruct Hflip.
    + destruct (ready_setter_flip s false w Hne) as (w1 & E1 & (Es1 & _) & _ & evs & Evs & Hevs).
      rewrite (bind_ok _ _ _ _ _ E1) in E. injection E as <-. simpl.
      rewrite !fn_lookup_insert. simpl. rewrite Es1. simpl. split.
      * intros Hsame. by destruct Hne.
      * intros _. by exists evs.
  - unfold Service._set_all_values_from_service_info, lift.
    unfold mbind, M_bind. simpl.
    destruct (Service.txt_decode (ServiceInfo.get info "dsn")) as [uri|?]; simpl; [|done].
    destruct (Service.txt_decode (ServiceInfo.get info "uuid")) as [uuid|?]; simpl; [|done].
    match goal with |- context [Service.ready_setter s true ?w1] => set (w1' := w1) end.
    intros E.
    assert (Hr1 : Service.ready (svc w1' s) = Service.ready (svc w s))
      by (subst w1'; simpl; by rewrite !fn_lookup_insert).
    assert (Hc1 : Service.on_ready_changed (svc w1' s) = Service.on_ready_changed (svc w s))
      by (subst w1'; simpl; by rewrite !fn_lookup_insert).
    assert (Hk1 : calls w1' = calls w) by done.
    destruct (decide (true = Service.ready (svc w1' s))) as [Hsame|Hne].
    + rewrite (ready_setter_same s true w1' Hsame) in E. injection E as <-.
      split; [done|]. intros Hflip. by destruct Hflip.
    + destruct (ready_setter_flip s true w1' Hne) as (w1 & E1 & (Es1 & _) & _ & evs & Evs & Hevs).
      rewrite E1 in E. injection E as <-. rewrite Es1. simpl. split.
      * intros Hsame. destruct Hne. congruence.
      * intros _. exists evs. by rewrite Evs, Hk1, Hevs, Hc1.
Qed.
End WithCodec.

Section WithCodec.
Context `{Codec}.

Lemma mutate_outcome s m w r w' :
  mutate s m w = (r, w') →
  Service.service_infos (svc w' s) = records_after m (svc w s)
  ∧ Service.type (svc w' s) = Service.type (svc w s)
  ∧ Service.typestring (svc w' s) = Service.typestring (svc w s)
  ∧ match resolved (Service.with_service_infos (records_after m (svc w s)) (svc w s)) with
    | Ok o => r = Ok tt ∧ svc w' s = o
    | Raise e => r = Raise e
              ∧ Service.ready (svc w' s) = Service.ready (svc w s)
              ∧ calls w' = calls w
              ∧ svc w' s
                = half_resolved
                    (Service.with_service_infos (records_after m (svc w s)) (svc w s))
    end.
Proof.
  intros E. destruct (mutate_update s m w r w' E) as (w1 & Es & _ & _ & _ & Ek & Eu).
  pose proof (_update_spec s w1) as Hu. rewrite Es in Hu.
  destruct (resolved _) as [o|e] eqn:Er.
  - destruct Hu as (w'' & E' & (Eo & _)). rewrite Eu in E'. injection E' as -> <-.
    rewrite Eo. unfold resolved in Er. simpl in Er.
    destruct (records_after m (svc w s)) as [|i l].
    + injection Er as <-. unfold Service.typestring. simpl. by repeat split.
    + destruct (Service.txt_decode (ServiceInfo.get i "dsn")); simpl in Er; [|done].
      destruct (Service.txt_decode (ServiceInfo.get i "uuid")); simpl in Er; [|done].
      injection Er as <-. unfold Service.typestring. simpl. by repeat split.
  - rewrite <- Es in Er.
    destruct (_update_raises s w1 e Er) as (w'' & E' & Eh & _ & _ & _ & Hk).
    rewrite Eu in E'. injection E' as -> <-.
    destruct (half_resolved_keeps (svc w1 s)) as (Hi & _ & Hr & _ & _ & Ht & Hts).
    rewrite Eh, Hi, Hr, Ht, Hts, Hk, Ek, Es. clear.
    unfold Service.typestring. by destruct (svc w s).
Qed.

(** X3. A mutating method of a Service writes the record collection
    first (the record appended, the first record [self == info] holds for
    removed, or all removed) and then resolves.  It returns when the
    collection it leaves is empty or the [b'dsn'] and [b'uuid'] values of
    its first record decode.  Otherwise it raises what [decode()] raised
    on the first of the two that fails, [AttributeError] for a value that
    is not a byte string and [UnicodeDecodeError] for bytes the codec does
    not read, and nothing else: the collection stays as written, [ready]
    stays as it was and no subscriber is called. *)
Theorem mutation_raises_only_on_undecodable_first_record s m w r w' :
  mutate s m w = (r, w') →
  Service.service_infos (svc w' s) = records_after m (svc w s)
  ∧ match head (Service.service_infos (svc w' s)) with
    | None => r = Ok tt
    | Some info =>
        match ServiceInfo.get info "dsn", ServiceInfo.get info "uuid" with
        | TxtBytes dsn, TxtBytes uuid =>
            match decode dsn, decode uuid with
            | Some _, Some _ => r = Ok tt
            | _, _ => r = Raise UnicodeDecodeError
                      ∧ Service.ready (svc w' s) = Service.ready (svc w s)
                      ∧ calls w' = calls w
            end
        | TxtBytes dsn, _ =>
            r = Raise (match decode dsn with
                       | Some _ => AttributeError
                       | None => UnicodeDecodeError
                       end)
            ∧ Service.ready (svc w' s) = Service.ready (svc w s)
            ∧ calls w' = calls w
        | _, _ =>
            r = Raise AttributeError
            ∧ Service.ready (svc w' s) = Service.ready (svc w s)
            ∧ calls w' = calls w
        end
    end.
Proof.
  intros E. destruct (mutate_outcome s m w r w' E) as (Hi & _ & _ & Ho).
  split; [done|]. rewrite Hi. unfold resolved in Ho. simpl in Ho.
  destruct (records_after m (svc w s)) as [|info l]; simpl in *; [by destruct Ho|].
  unfold Service.txt_decode in Ho.
  destruct (ServiceInfo.get info "dsn") as [dsn| |b1];
    [|by destruct Ho as (? & ? & ? & _);
         destruct (ServiceInfo.get info "uuid")..].
  destruct (decode dsn) as [uri|].
  - destruct (ServiceInfo.get info "uuid") as [uuid| |b2];
      [|by destruct Ho as (? & ? & ? & _)..].
    destruct (decode uuid); [by destruct Ho | by destruct Ho as (? & ? & ? & _)].
  - destruct (ServiceInfo.get info "uuid") as [uuid| |b2];
      [|by destruct Ho as (? & ? & ? & _)..].
    destruct (decode uuid); by destruct Ho as (? & ? & ? & _).
Qed.

(** The calls a mutation that returns makes, by whether it flipped
    [ready]. *)
Lemma mutate_calls s m w w' :
  mutate s m w = (Ok tt, w') →
  (Service.ready (svc w' s) = Service.ready (svc w s) → calls w' = calls w)
  ∧ (Service.ready (svc w' s) ≠ Service.ready (svc w s) →
       ∃ evs, calls w' = calls w ++ evs
         ∧ calls_of_service s evs
           = map (λ cb, (cb, Service.ready (svc w' s)))
                 (Service.on_ready_changed (svc w s))).
Proof.
  intros E. destruct (mutate_update s m w _ _ E) as (w1 & Es & _ & _ & _ & Ek & Eu).
  destruct (_update_calls s w1 w' Eu) as [Hsame Hflip].
  rewrite Es, Ek in Hsame, Hflip. by destruct (svc w s).
Qed.

(** X4. A mutating method that returns calls the subscribers of the
    service only if it flipped [ready]: then each subscriber is called
    once, in subscription order, with the new value; when [ready] stays,
    no call is made at all. *)
Theorem mutation_notifies_on_transition_only s m w w' :
  mutate s m w = (Ok tt, w') →
  (Service.ready (svc w' s) = Service.ready (svc w s) → calls w' = calls w)
  ∧ (Service.ready (svc w' s) ≠ Service.ready (svc w s) →
       ∃ evs, calls w' = calls w ++ evs
         ∧ calls_of_service s evs
           = map (λ cb, (cb, Service.ready (svc w' s)))
                 (Service.on_ready_changed (svc w s))).
Proof. exact (mutate_calls s m w w'). Qed.

(** X5. The first record wins: handing a further record to a service
    that is ready returns, appends the record, and changes nothing else
    of the service; its resolved fields stay those of the first record and
    no subscriber is called. *)
Theorem add_to_ready_service_appends_only s info w :
  consistent (svc w s) →
  Service.ready (svc w s) = true →
  ∃ w', Service.add_service_info s info w = (Ok tt, w')
    ∧ svc w' s
      = Service.with_service_infos (Service.service_infos (svc w s) ++ [info]) (svc w s)
    ∧ calls w' = calls w.
Proof.
  intros (Hr & Hm & _) Hready.
  destruct (Hm Hready) as (i & Hh & Hn & Hu & Hd & Hv).
  destruct (Service.add_service_info s info w) as [r w'] eqn:E.
  destruct (mutate_outcome s (AddRecord info) w r w' E) as (_ & _ & _ & Ho).
  unfold resolved in Ho. simpl in Ho.
  destruct (Service.service_infos (svc w s)) as [|i' l] eqn:El; [done|].
  injection Hh as ->. simpl in Ho. rewrite Hu, Hd in Ho. simpl in Ho.
  destruct Ho as [-> Ho]. exists w'. split; [done|].
  assert (Es : svc w' s = Service.with_service_infos ((i :: l) ++ [info]) (svc w s)).
  { rewrite Ho. unfold Service.ready in Hready. destruct (svc w s); simpl in *. by subst. }
  split; [done|].
  apply (proj1 (mutate_calls s (AddRecord info) w w' E)).
  rewrite Es. by destruct (svc w s).
Qed.
End WithCodec.

(** A record whose [b'dsn'] value no codec of the two decodes. *)
Definition record_undecodable : ServiceInfo.t :=
  announced "c" "webtalk" (String (Ascii.ascii_of_nat 255) EmptyString).

(** Service 0 after it was handed [record_a]. *)
Definition one_record : World := (@Service.add_service_info ascii_codec 0 record_a blank).2.

Lemma mutation_raises_only_on_undecodable_first_record_witness :
  Service.service_infos
    (svc (@mutate ascii_codec 0 (AddRecord record_undecodable) blank).2 0)
  = [record_undecodable]
  ∧ Service.ready (svc (@mutate ascii_codec 0 (AddRecord record_undecodable) blank).2 0)
    = false.
Proof.
  destruct (@mutation_raises_only_on_undecodable_first_record ascii_codec 0
              (AddRecord record_undecodable) blank (Raise UnicodeDecodeError)
              (@mutate ascii_codec 0 (AddRecord record_undecodable) blank).2)
    as [Hi Ho].
  - vm_compute. reflexivity.
  - split; [rewrite Hi; vm_compute; reflexivity|].
    rewrite Hi in Ho. vm_compute in Ho. destruct Ho as (_ & Hr & _). exact Hr.
Defined.

Lemma mutation_notifies_on_transition_only_witness :
  ∃ evs, calls (@mutate ascii_codec 0 (AddRecord record_a) subscribed).2
         = calls subscribed ++ evs
    ∧ calls_of_service 0 evs
      = [(BoundUpdateServicesReady 3, true); (Callable 5, true)].
Proof.
  destruct (@mutation_notifies_on_transition_only ascii_codec 0 (AddRecord record_a)
              subscribed (@mutate ascii_codec 0 (AddRecord record_a) subscribed).2)
    as [_ Hflip].
  - vm_compute. reflexivity.
  - destruct Hflip as (evs & Evs & Hevs).
    + vm_compute. discriminate.
    + exists evs. split; [exact Evs|]. rewrite Hevs. vm_compute. reflexivity.
Defined.

Lemma add_to_ready_service_appends_only_witness :
  ∃ w', @Service.add_service_info ascii_codec 0 record_b one_record = (Ok tt, w')
    ∧ Service.uri (svc w' 0) = "ws://10.0.0.5:8080"
    ∧ calls w' = [].
Proof.
  destruct (@add_to_ready_service_appends_only ascii_codec 0 record_b one_record)
    as (w' & E & Es & Ek).
  - apply (@mutate_consistent ascii_codec 0 (AddRecord record_a) blank). vm_compute.
    reflexivity.
  - vm_compute. reflexivity.
  - exists w'. split; [exact E|]. rewrite Es, Ek. split; vm_compute; reflexivity.
Defined.

(** ** Mutating methods that raise *)

Section WithCodec.
Context `{Codec}.

(** C1. A mutating method of a Service that raises leaves the service
    unresolved.  The record collection is written and not empty, [name] is
    that of its first record, and [ready], [uuid] and [version] are what
    they were before the call; [uri] is what it was when it is [b'dsn']
    that did not decode, and the decoded [b'dsn'] when it is [b'uuid'].
    So a service that was not ready holds a record and is not ready. *)
Theorem mutation_that_raises_leaves_service_unresolved s m w e w' :
  mutate s m w = (Raise e, w') →
  ∃ info rest,
    Service.service_infos (svc w' s) = info :: rest
    ∧ Service.name (svc w' s) = ServiceInfo.name info
    ∧ Service.ready (svc w' s) = Service.ready (svc w s)
    ∧ Service.uuid (svc w' s) = Service.uuid (svc w s)
    ∧ Service.version (svc w' s) = Service.version (svc w s)
    ∧ (Service.txt_decode (ServiceInfo.get info "dsn") = Raise e
       ∧ Service.uri (svc w' s) = Service.uri (svc w s)
       ∨ Service.txt_decode (ServiceInfo.get info "dsn") = Ok (Service.uri (svc w' s))
         ∧ Service.txt_decode (ServiceInfo.get info "uuid") = Raise e)
    ∧ (Service.ready (svc w s) = false →
       ¬ (Service.ready (svc w' s) = true ↔ Service.service_infos (svc w' s) ≠ [])).
Proof.
  intros E. destruct (mutate_outcome s m w _ _ E) as (Hi & _ & _ & Ho).
  unfold resolved in Ho. simpl in Ho.
  destruct (records_after m (svc w s)) as [|info rest] eqn:El; [by destruct Ho|].
  exists info, rest. split; [done|].
  assert (Hbroken : Service.ready (svc w' s) = Service.ready (svc w s) →
            Service.ready (svc w s) = false →
            ¬ (Service.ready (svc w' s) = true ↔ Service.service_infos (svc w' s) ≠ [])).
  { intros Hr Hf [_ Hne]. rewrite Hr, Hf, Hi in Hne. by discriminate Hne. }
  unfold half_resolved in Ho. simpl in Ho.
  destruct (Service.txt_decode (ServiceInfo.get info "dsn")) as [uri|e1] eqn:Edsn.
  - destruct (Service.txt_decode (ServiceInfo.get info "uuid")) as [uuid|e2] eqn:Euuid;
      [by destruct Ho|].
    destruct Ho as ([= <-] & Hr & _ & Es). specialize (Hbroken Hr). revert Hbroken.
    rewrite Es. simpl. intros Hbroken. repeat split; try done. by right.
  - destruct Ho as ([= <-] & Hr & _ & Es). specialize (Hbroken Hr). revert Hbroken.
    rewrite Es. simpl. intros Hbroken. repeat split; try done. by left.
Qed.







End WithCodec.

Lemma mutation_that_raises_leaves_service_unresolved_witness :
  Service.service_infos
    (svc (@Service.add_service_info ascii_codec 0 record_undecodable blank).2 0)
  = [record_undecodable]
  ∧ Service.ready (svc (@Service.add_service_info ascii_codec 0 record_undecodable blank).2 0)
    = false
  ∧ Service.name (svc (@Service.add_service_info ascii_codec 0 record_undecodable blank).2 0)
    = "c".
Proof.
  destruct (@mutation_that_raises_leaves_service_unresolved ascii_codec 0
              (AddRecord record_undecodable) blank UnicodeDecodeError
              (@Service.add_service_info ascii_codec 0 record_undecodable blank).2)
    as (info & rest & Hi & Hn & Hr & _).
  - vm_compute. reflexivity.
  - assert (Ei : Service.service_infos
                   (svc (@Service.add_service_info ascii_codec 0 record_undecodable blank).2 0)
                 = [record_undecodable]) by (vm_compute; reflexivity).
    rewrite Ei in Hi. injection Hi as <- <-.
    split; [exact Ei|]. split; [rewrite Hr; vm_compute; reflexivity|].
    rewrite Hn. vm_compute. reflexivity.
Defined.







(** ** A delivery that raises *)

Section WithCodec.
Context `{Codec}.

(** A mutating method that raises has written its service only. *)
Lemma mutate_raises_frame s m w e w' :
  mutate s m w = (Raise e, w') →
  (∀ s', s' ≠ s → svc w' s' = svc w s') ∧ disc w' = disc w.
Proof.
  intros E. destruct (mutate_update s m w _ _ E) as (w1 & _ & Eo & _ & Ed & _ & Eu).
  pose proof (_update_spec s w1) as Hu.
  destruct (resolved (svc w1 s)) as [o|e1] eqn:Er.
  - destruct Hu as (w2 & E2 & _). rewrite Eu in E2. discriminate.
  - destruct (_update_raises s w1 e1 Er) as (w2 & E2 & _ & Eo2 & _ & Ed2 & _).
    rewrite Eu in E2. injection E2 as _ <-. split; [|congruence].
    intros s' Hs. by rewrite Eo2, Eo.
Qed.

(** C5. A record-added event stops at the first registered service
    whose [add_service_info] raises: that service has the record, the
    exception leaves the callback, and the services registered after it
    are not asked and do not get the record, matching or not. *)
Theorem add_service_stops_at_first_failure d zeroconf type_ name info s l e w w1 :
  zeroconf type_ name = Some info →
  ServiceDiscovery.services (disc w d) = s :: l →
  ServiceDiscoveryFilter.matches_service_info
    (ServiceDiscovery.filter (disc w d)) (PServiceInfo info) = Ok true →
  Service.matches_service_info (svc w s) info = Ok true →
  Service.add_service_info s info w = (Raise e, w1) →
  ServiceDiscovery.add_service d zeroconf type_ name w = (Raise e, w1)
  ∧ Service.service_infos (svc w1 s) = Service.service_infos (svc w s) ++ [info]
  ∧ ∀ s', s' ≠ s → svc w1 s' = svc w s'.
Proof.
  intros Hz Hs Hf Hm Ea. unfold ServiceDiscovery.add_service. rewrite Hz.
  rewrite bind_get_discovery, Hs.
  change (for_each (s :: l) ?body) with (body s;; for_each l body). cbv beta.
  assert (Eb : ServiceDiscovery.both_match (disc w d) s info w = (Ok true, w)).
  { unfold ServiceDiscovery.both_match, lift. unfold mbind at 1, M_bind at 1.
    rewrite Hf. rewrite bind_get_service. by rewrite Hm. }
  split.
  - apply bind_raise. rewrite (bind_ok _ _ _ _ _ Eb). exact Ea.
  - destruct (mutate_outcome s (AddRecord info) w _ _ Ea) as (Hi & _).
    split; [exact Hi|]. apply (mutate_raises_frame s (AddRecord info) w e w1 Ea).
Qed.
End WithCodec.

(** Services 0 and 1, both of type [webtalk], registered with one
    discovery; a record for [webtalk] arrives whose [b'dsn'] is not
    decodable. *)
Definition two_webtalks : World :=
  @serve_all ascii_codec 0 [Register (PService 0); Register (PService 1); Start] blank.

Lemma add_service_stops_at_first_failure_witness :
  (@ServiceDiscovery.add_service ascii_codec 0 (λ _ _, Some record_undecodable)
     "_machinekit._tcp.local." "c" two_webtalks).1 = Raise UnicodeDecodeError
  ∧ Service.service_infos
      (svc (@ServiceDiscovery.add_service ascii_codec 0 (λ _ _, Some record_undecodable)
              "_machinekit._tcp.local." "c" two_webtalks).2 0) = [record_undecodable]
  ∧ @Service.matches_service_info ascii_codec (svc two_webtalks 1) record_undecodable
    = Ok true
  ∧ Service.service_infos
      (svc (@ServiceDiscovery.add_service ascii_codec 0 (λ _ _, Some record_undecodable)
              "_machinekit._tcp.local." "c" two_webtalks).2 1) = [].
Proof.
  destruct (@add_service_stops_at_first_failure ascii_codec 0
              (λ _ _, Some record_undecodable) "_machinekit._tcp.local." "c"
              record_undecodable 0 [1] UnicodeDecodeError two_webtalks
              (@Service.add_service_info ascii_codec 0 record_undecodable two_webtalks).2)
    as (E & Hi & Ho).
  - reflexivity.
  - vm_compute. reflexivity.
  - vm_compute. reflexivity.
  - vm_compute. reflexivity.
  - vm_compute. reflexivity.
  - rewrite E. cbn [fst snd]. split; [reflexivity|]. split; [rewrite Hi; vm_compute; reflexivity|].
    split; [vm_compute; reflexivity|]. rewrite (Ho 1) by discriminate.
    vm_compute. reflexivity.
Defined.

(** ** Records withdrawn by the browser *)

Lemma drop_tail {A} n (l : list A) : drop n (tail l) = drop (S n) l.
Proof. destruct l; simpl; [by rewrite drop_nil | done]. Qed.

Section WithCodec.
Context `{Codec}.

Lemma remove_service_info_ok s info w w' :
  consistent (svc w s) →
  Service.remove_service_info s info w = (Ok tt, w') →
  Service.service_infos (svc w' s) = tail (Service.service_infos (svc w s))
  ∧ Service.type (svc w' s) = Service.type (svc w s)
  ∧ Service.typestring (svc w' s) = Service.typestring (svc w s)
  ∧ (∀ s', s' ≠ s → svc w' s' = svc w s')
  ∧ disc w' = disc w.
Proof.
  intros Hc E.
  destruct (mutate_outcome s (RemoveRecord info) w _ _ E) as (Hi & Ht & Hts & _).
  rewrite (remove_drops_first _ info Hc) in Hi.
  pose proof (mutate_spec s (RemoveRecord info) w) as Hm.
  destruct (resolved _).
  - destruct Hm as (w'' & E' & (_ & Ho & Hd & _)). simpl in E'. rewrite E in E'.
    injection E' as <-. done.
  - destruct Hm as (w'' & E'). simpl in E'. rewrite E in E'. discriminate.
Qed.

Lemma remove_service_loop self info l w w' :
  (∀ s, s ∈ l → consistent (svc w s)) →
  for_each l (λ s,
    matched ← ServiceDiscovery.both_match self s info;
    if (matched : bool) then Service.remove_service_info s info else mret tt) w
  = (Ok tt, w') →
  disc w' = disc w
  ∧ ∀ s,
      Service.service_infos (svc w' s)
      = drop (if filter_accepts (ServiceDiscovery.filter self) info
                 && service_accepts (svc w s) info
              then count_occ Nat.eq_dec l s else 0)
             (Service.service_infos (svc w s))
      ∧ Service.type (svc w' s) = Service.type (svc w s)
      ∧ Service.typestring (svc w' s) = Service.typestring (svc w s).
Proof.
  revert w. induction l as [|s0 l IH]; intros w Hcons; simpl.
  - intros [= <-]. split; [done|]. intros s. by destruct (_ && _).
  - intros E. apply bind_inv in E as ([] & w1 & Eb & El).
    apply bind_inv in Eb as (matched & w0 & Em & Eb).
    apply both_match_ok in Em as [-> ->].
    destruct (filter_accepts _ _ && service_accepts (svc w s0) info) eqn:Eacc.
    + pose proof (mutate_consistent s0 (RemoveRecord info) w w1 Eb) as Hc0.
      apply remove_service_info_ok in Eb as (Ea & Et & Ets & Eo & Hd1);
        [|apply Hcons, list_elem_of_here].
      destruct (IH w1) as (Hd & Hl); [|exact El|].
      { intros s Hs. destruct (decide (s = s0)) as [->|Hne]; [done|].
        rewrite (Eo s Hne). by apply Hcons, list_elem_of_further. }
      split; [congruence|]. intros s. destruct (Hl s) as (Hi & Hty & Htys).
      destruct (Nat.eq_dec s0 s) as [<-|Hne].
      * rewrite Hi, Ea, Hty, Htys, Et, Ets.
        rewrite (service_accepts_ext (svc w s0) (svc w1 s0)) by done.
        rewrite Eacc. by rewrite drop_tail.
      * rewrite Hi, Hty, Htys, (Eo s) by done. done.
    + injection Eb as <-.
      destruct (IH w) as (Hd & Hl); [|exact El|].
      { intros s Hs. by apply Hcons, list_elem_of_further. }
      split; [done|]. intros s. destruct (Hl s) as (Hi & Hty & Htys). rewrite Hi.
      destruct (Nat.eq_dec s0 s) as [<-|Hne]; [|done].
      rewrite Eacc. done.
Qed.

(** X6. When a record-removed event is delivered to a discovery whose
    registered services are as their mutating methods left them, and the
    call returns: if the resolution gave nothing, nothing has changed;
    otherwise every service the filter and the service's own test both
    match has lost its first record, once per time it is registered,
    whichever record was resolved, and every other service keeps its
    records. *)
Theorem remove_service_drops_first_records d zeroconf type_ name w w' :
  (∀ s, s ∈ ServiceDiscovery.services (disc w d) → consistent (svc w s)) →
  ServiceDiscovery.remove_service d zeroconf type_ name w = (Ok tt, w') →
  match zeroconf type_ name with
  | None => w' = w
  | Some info =>
      ∀ s, Service.service_infos (svc w' s)
           = drop (if filter_accepts (ServiceDiscovery.filter (disc w d)) info
                      && service_accepts (svc w s) info
                   then count_occ Nat.eq_dec (ServiceDiscovery.services (disc w d)) s
                   else 0)
                  (Service.service_infos (svc w s))
  end.
Proof.
  intros Hcons. unfold ServiceDiscovery.remove_service.
  destruct (zeroconf type_ name) as [info|].
  - rewrite bind_get_discovery. intros E s.
    by destruct (remove_service_loop _ _ _ _ _ Hcons E) as (_ & Hl), (Hl s) as (-> & _).
  - by intros [= <-].
Qed.
End WithCodec.

(** Proves [consistent] of a concrete service that is ready, from its
    first record. *)
Ltac consistent_by_evaluation info :=
  split; [split; [intros _; vm_compute; discriminate | intros _; vm_compute; reflexivity]|];
  split; [intros _; exists info;
          split; [vm_compute; reflexivity|];
          split; [vm_compute; reflexivity|];
          split; [vm_compute; reflexivity|];
          split; vm_compute; reflexivity
         | vm_compute; discriminate].

Lemma remove_service_drops_first_records_witness :
  map ServiceInfo.name (Service.service_infos (svc discovering 0)) = ["a"]
  ∧ Service.service_infos
      (svc (@ServiceDiscovery.remove_service ascii_codec 0 (λ _ _, Some record_b)
              "_machinekit._tcp.local." "b" discovering).2 0) = [].
Proof.
  split; [vm_compute; reflexivity|].
  assert (E : @ServiceDiscovery.remove_service ascii_codec 0 (λ _ _, Some record_b)
                "_machinekit._tcp.local." "b" discovering
              = (Ok tt, (@ServiceDiscovery.remove_service ascii_codec 0 (λ _ _, Some record_b)
                           "_machinekit._tcp.local." "b" discovering).2))
    by (vm_compute; reflexivity).
  assert (Hc : ∀ s, s ∈ ServiceDiscovery.services (disc discovering 0) →
                 @consistent ascii_codec (svc discovering s)).
  { intros s Hs. vm_compute in Hs.
    apply elem_of_cons in Hs as [->|Hs]; [consistent_by_evaluation record_a|].
    apply elem_of_cons in Hs as [->|Hs]; [consistent_by_evaluation record_a|].
    apply elem_of_nil in Hs. destruct Hs. }
  pose proof (@remove_service_drops_first_records ascii_codec 0 (λ _ _, Some record_b)
                "_machinekit._tcp.local." "b" discovering _ Hc E) as Hf.
  cbv beta iota in Hf. clear E Hc. rewrite Hf. vm_compute. reflexivity.
Defined.

(** ** What a method leaves alone, whatever its outcome *)

(** [m] leaves every store related by [R] to the one it was run on,
    whether it returns or raises. *)
Definition preserves (R : relation World) {A} (m : M A) : Prop := ∀ w, R w (m w).2.

Section Preserves.
Context (R : relation World) `{!Reflexive R, !Transitive R}.

Lemma preserves_ret {A} (a : A) : preserves R (mret a).
Proof. intros w. simpl. reflexivity. Qed.

Lemma preserves_raise {A} e : preserves R (@raise A e).
Proof. intros w. simpl. reflexivity. Qed.

Lemma preserves_lift {A} (r : result A) : preserves R (lift r).
Proof. intros w. simpl. reflexivity. Qed.

Lemma preserves_bind {A B} (m : M A) (k : A → M B) :
  preserves R m → (∀ a, preserves R (k a)) → preserves R (m ≫= k).
Proof.
  intros Hm Hk w. unfold mbind, M_bind. specialize (Hm w).
  destruct (m w) as [[a|e] w1]; simpl in *; [|done].
  etrans; [exact Hm | apply Hk].
Qed.

Lemma preserves_for_each {A} (l : list A) body :
  (∀ x, preserves R (body x)) → preserves R (for_each l body).
Proof.
  intros Hb. induction l as [|x l IH]; simpl.
  - apply preserves_ret.
  - apply preserves_bind; [apply Hb | intros _; apply IH].
Qed.

Lemma preserves_read {A} (f : World → A) : preserves R (λ w, (Ok (f w), w)).
Proof. intros w. simpl. reflexivity. Qed.

Lemma preserves_get_service s : preserves R (get_service s).
Proof. intros w. simpl. reflexivity. Qed.

Lemma preserves_get_container c : preserves R (get_container c).
Proof. intros w. simpl. reflexivity. Qed.

Lemma preserves_get_discovery d : preserves R (get_discovery d).
Proof. intros w. simpl. reflexivity. Qed.
End Preserves.

(** The discoveries and the sessions are as they were. *)
Definition same_discoveries : relation World :=
  λ w w', disc w' = disc w ∧ sessions w' = sessions w ∧ next_session w' = next_session w.

#[local] Instance same_discoveries_refl : Reflexive same_discoveries.
Proof. by intros w. Qed.

#[local] Instance same_discoveries_trans : Transitive same_discoveries.
Proof. intros w1 w2 w3 (?&?&?) (?&?&?). repeat split; congruence. Qed.

(** Solves [preserves R m] for a method built from reads, binds, loops
    and the writes listed in the hint database [frame]. *)
Create HintDb frame discriminated.

Ltac frame :=
  repeat first
    [ progress auto with frame nocore
    | apply preserves_ret; apply _
    | apply preserves_raise; apply _
    | apply preserves_lift; apply _
    | apply preserves_read; apply _
    | apply preserves_get_service; apply _
    | apply preserves_get_container; apply _
    | apply preserves_get_discovery; apply _
    | apply preserves_bind; try apply _; [|intros ?]
    | apply preserves_for_each; try apply _; intros ?
    | progress cbv beta
    | match goal with
      | |- preserves _ (match ?x with _ => _ end) => destruct x
      | |- preserves _ (if ?b then _ else _) => destruct b
      end ].

Lemma set_service_same_discoveries s f : preserves same_discoveries (set_service s f).
Proof. by intros w. Qed.

Lemma set_container_same_discoveries c f : preserves same_discoveries (set_container c f).
Proof. by intros w. Qed.

Lemma record_call_same_discoveries e : preserves same_discoveries (record_call e).
Proof. by intros w. Qed.

#[local] Hint Resolve set_service_same_discoveries set_container_same_discoveries
  record_call_same_discoveries : frame.

Lemma call_same_discoveries s cb v : preserves same_discoveries (Service.call s cb v).
Proof.
  unfold Service.call, ServiceContainer._update_services_ready,
    ServiceContainer.services_ready_setter.
  frame.
Qed.

#[local] Hint Resolve call_same_discoveries : frame.

Lemma ready_setter_same_discoveries s v :
  preserves same_discoveries (Service.ready_setter s v).
Proof. unfold Service.ready_setter. frame. Qed.

#[local] Hint Resolve ready_setter_same_discoveries : frame.

Section WithCodec.
Context `{Codec}.

Lemma mutate_same_discoveries s m : preserves same_discoveries (mutate s m).
Proof.
  destruct m; simpl;
    unfold Service.add_service_info, Service.remove_service_info,
      Service.clear_service_infos, Service._update, Service._init_all_values,
      Service._set_all_values_from_service_info, lift;
    frame.
Qed.

Lemma events_same_discoveries d zeroconf type_ name :
  preserves same_discoveries (ServiceDiscovery.add_service d zeroconf type_ name)
  ∧ preserves same_discoveries (ServiceDiscovery.remove_service d zeroconf type_ name).
Proof.
  pose proof (λ s info, mutate_same_discoveries s (AddRecord info)) as Ha.
  pose proof (λ s info, mutate_same_discoveries s (RemoveRecord info)) as Hr.
  simpl in Ha, Hr.
  split; unfold ServiceDiscovery.add_service, ServiceDiscovery.remove_service,
    ServiceDiscovery.both_match; frame; auto.
Qed.
End WithCodec.

Section WithCodec.
Context `{Codec}.

(** X7. The two listener callbacks never write a discovery or a session:
    after [add_service] or [remove_service], returned or raised, every
    discovery (its registry, [is_ready], its lists of sessions and
    browsers) and every session is as it was. *)
Theorem listener_callbacks_leave_discoveries_alone d zeroconf type_ name w :
  (disc (ServiceDiscovery.add_service d zeroconf type_ name w).2 = disc w
   ∧ sessions (ServiceDiscovery.add_service d zeroconf type_ name w).2 = sessions w
   ∧ next_session (ServiceDiscovery.add_service d zeroconf type_ name w).2 = next_session w)
  ∧ (disc (ServiceDiscovery.remove_service d zeroconf type_ name w).2 = disc w
     ∧ sessions (ServiceDiscovery.remove_service d zeroconf type_ name w).2 = sessions w
     ∧ next_session (ServiceDiscovery.remove_service d zeroconf type_ name w).2
       = next_session w).
Proof.
  destruct (events_same_discoveries d zeroconf type_ name) as [Ha Hr].
  split; [apply Ha | apply Hr].
Qed.
End WithCodec.

(** ** The registry *)

(** [list.remove] with an equality test that decides equality. *)
Section ListRemove.
Context {A : Type} (eq : A → A → bool) (eq_spec : ∀ a b, eq a b = true ↔ a = b).

Lemma list_remove_absent (x : A) (l : list A) : x ∉ l → list_remove eq x l = None.
Proof.
  induction l as [|y l IH]; simpl; [done|]. intros Hx.
  apply not_elem_of_cons in Hx as [Hne Hx].
  destruct (eq y x) eqn:E; [apply eq_spec in E; congruence|].
  by rewrite IH.
Qed.

Lemma list_remove_first (x : A) (pre rest : list A) :
  x ∉ pre → list_remove eq x (pre ++ x :: rest) = Some (pre ++ rest).
Proof.
  induction pre as [|y pre IH]; simpl; intros Hx.
  - by rewrite (proj2 (eq_spec x x) eq_refl).
  - apply not_elem_of_cons in Hx as [Hne Hx].
    destruct (eq y x) eqn:E; [apply eq_spec in E; congruence|].
    by rewrite IH.
Qed.

Lemma list_remove_present (x : A) (l : list A) :
  x ∈ l → ∃ pre rest, l = pre ++ x :: rest ∧ x ∉ pre.
Proof.
  induction l as [|y l IH]; intros Hx; [by apply elem_of_nil in Hx|].
  destruct (eq y x) eqn:E.
  - apply eq_spec in E as ->. exists [], l. split; [done|]. apply not_elem_of_nil.
  - apply elem_of_cons in Hx as [->|Hx].
    + rewrite (proj2 (eq_spec y y) eq_refl) in E. discriminate.
    + destruct (IH Hx) as (pre & rest & -> & Hpre). exists (y :: pre), rest.
      split; [done|]. apply not_elem_of_cons. split; [|done].
      intros ->. rewrite (proj2 (eq_spec y y) eq_refl) in E. discriminate.
Qed.
End ListRemove.

Lemma nat_eqb_spec (a b : nat) : Nat.eqb a b = true ↔ a = b.
Proof. apply Nat.eqb_eq. Qed.

(** [w'] is [w] with the registry of discovery [d] replaced by [l]. *)
Definition registered (d : nat) (l : list nat) (w w' : World) : Prop :=
  disc w' d = ServiceDiscovery.with_services l (disc w d)
  ∧ (∀ d', d' ≠ d → disc w' d' = disc w d')
  ∧ svc w' = svc w ∧ cont w' = cont w ∧ sessions w' = sessions w
  ∧ next_session w' = next_session w ∧ calls w' = calls w.

(** What [register] and [unregister] run their command over. *)
Definition items (w : World) (item : pyobj) : option (list nat) :=
  match item with
  | PService s => Some [s]
  | PServiceContainer c => Some (ServiceContainer.services (cont w c))
  | _ => None
  end.

Lemma with_services_id (o : ServiceDiscovery.t) :
  ServiceDiscovery.with_services (ServiceDiscovery.services o) o = o.
Proof. by destruct o. Qed.

Lemma registered_refl d w : registered d (ServiceDiscovery.services (disc w d)) w w.
Proof. unfold registered. by rewrite with_services_id. Qed.

Lemma registered_trans d l1 l2 w w1 w2 :
  registered d l1 w w1 → registered d l2 w1 w2 → registered d l2 w w2.
Proof.
  intros (E1 & O1 & ?&?&?&?&?) (E2 & O2 & ?&?&?&?&?).
  unfold registered. rewrite E2, E1. repeat split; try congruence.
  intros d' Hd. by rewrite O2, O1.
Qed.

Lemma services_append_registered d s w :
  ∃ w', ServiceDiscovery.services_append d s w = (Ok tt, w')
    ∧ registered d (ServiceDiscovery.services (disc w d) ++ [s]) w w'.
Proof.
  eexists. split; [done|]. unfold registered. simpl. rewrite fn_lookup_insert.
  repeat split; try done. intros d' Hd. by rewrite fn_lookup_insert_ne.
Qed.

Lemma for_each_services_append d l w :
  ∃ w', for_each l (ServiceDiscovery.services_append d) w = (Ok tt, w')
    ∧ registered d (ServiceDiscovery.services (disc w d) ++ l) w w'.
Proof.
  revert w. induction l as [|s l IH]; intros w; simpl.
  - exists w. split; [done|]. rewrite app_nil_r. apply registered_refl.
  - destruct (services_append_registered d s w) as (w1 & E1 & R1).
    destruct (IH w1) as (w' & E & R). exists w'.
    rewrite (bind_ok _ _ _ _ _ E1), E. split; [done|].
    eapply registered_trans; [exact R1|].
    destruct R1 as (Ed & _). rewrite Ed in R. simpl in R.
    by rewrite <- app_assoc in R.
Qed.

(** What [register] does on a discovery that is not running. *)
Lemma register_spec d item w :
  ServiceDiscovery.is_ready (disc w d) = false →
  match item with
  | PService s =>
      ∃ w', ServiceDiscovery.register d item w = (Ok tt, w')
        ∧ registered d (ServiceDiscovery.services (disc w d) ++ [s]) w w'
  | PServiceContainer c =>
      ∃ w', ServiceDiscovery.register d item w = (Ok tt, w')
        ∧ registered d (ServiceDiscovery.services (disc w d)
                        ++ ServiceContainer.services (cont w c)) w w'
  | _ => ServiceDiscovery.register d item w = (Raise TypeError, w)
  end.
Proof.
  intros Hi. unfold ServiceDiscovery.register. rewrite bind_get_discovery, Hi.
  destruct item as [s|c|info|]; simpl; try done.
  - apply services_append_registered.
  - apply for_each_services_append.
Qed.

(** X8. On a discovery that is not running, [register] returns and
    appends to the registry: the service it is handed, or the members of
    the container it is handed, in their order; nothing else changes.
    Handed anything else it raises [TypeError] and changes nothing. *)
Theorem register_when_idle d item w :
  ServiceDiscovery.is_ready (disc w d) = false →
  match item with
  | PService s =>
      ∃ w', ServiceDiscovery.register d item w = (Ok tt, w')
        ∧ registered d (ServiceDiscovery.services (disc w d) ++ [s]) w w'
  | PServiceContainer c =>
      ∃ w', ServiceDiscovery.register d item w = (Ok tt, w')
        ∧ registered d (ServiceDiscovery.services (disc w d)
                        ++ ServiceContainer.services (cont w c)) w w'
  | _ => ServiceDiscovery.register d item w = (Raise TypeError, w)
  end.
Proof. exact (register_spec d item w). Qed.

Lemma services_remove_first d s pre rest w :
  ServiceDiscovery.services (disc w d) = pre ++ s :: rest → s ∉ pre →
  ∃ w', ServiceDiscovery.services_remove d s w = (Ok tt, w')
    ∧ registered d (pre ++ rest) w w'.
Proof.
  intros Hs Hpre. unfold ServiceDiscovery.services_remove.
  rewrite bind_get_discovery, Hs, (list_remove_first Nat.eqb nat_eqb_spec) by done.
  eexists. split; [done|]. unfold registered. simpl. rewrite fn_lookup_insert.
  repeat split; try done. intros d' Hd. by rewrite fn_lookup_insert_ne.
Qed.

Lemma for_each_services_remove d l pre w :
  ServiceDiscovery.services (disc w d) = pre ++ l → (∀ s, s ∈ l → s ∉ pre) →
  ∃ w', for_each l (ServiceDiscovery.services_remove d) w = (Ok tt, w')
    ∧ registered d pre w w'.
Proof.
  revert w. induction l as [|s l IH]; intros w Hs Hl; simpl.
  - exists w. split; [done|]. rewrite app_nil_r in Hs. rewrite <- Hs.
    apply registered_refl.
  - destruct (services_remove_first d s pre l w Hs) as (w1 & E1 & R1).
    { apply Hl, list_elem_of_here. }
    destruct (IH w1) as (w' & E & R).
    { destruct R1 as (-> & _). done. }
    { intros s' Hs'. by apply Hl, list_elem_of_further. }
    exists w'. rewrite (bind_ok _ _ _ _ _ E1), E. split; [done|].
    by eapply registered_trans.
Qed.

(** X9. On a discovery that is not running, [unregister] of a service
    removes its first occurrence from the registry and changes nothing
    else; of a service that is not registered it raises [ValueError], and
    of anything but a service or a container [TypeError], and changes
    nothing.  Handed a container whose members are the last entries of
    the registry, and occur nowhere before, it removes them all. *)
Theorem unregister_when_idle d item w :
  ServiceDiscovery.is_ready (disc w d) = false →
  match item with
  | PService s =>
      (s ∉ ServiceDiscovery.services (disc w d) →
         ServiceDiscovery.unregister d item w = (Raise ValueError, w))
      ∧ (∀ pre rest,
           ServiceDiscovery.services (disc w d) = pre ++ s :: rest → s ∉ pre →
           ∃ w', ServiceDiscovery.unregister d item w = (Ok tt, w')
             ∧ registered d (pre ++ rest) w w')
  | PServiceContainer c =>
      ∀ pre,
        ServiceDiscovery.services (disc w d)
        = pre ++ ServiceContainer.services (cont w c) →
        (∀ s, s ∈ ServiceContainer.services (cont w c) → s ∉ pre) →
        ∃ w', ServiceDiscovery.unregister d item w = (Ok tt, w')
          ∧ registered d pre w w'
  | _ => ServiceDiscovery.unregister d item w = (Raise TypeError, w)
  end.
Proof.
  intros Hi. unfold ServiceDiscovery.unregister. rewrite bind_get_discovery, Hi.
  destruct item as [s|c|info|]; simpl; try done.
  - split.
    + intros Hs. unfold ServiceDiscovery.services_remove.
      by rewrite bind_get_discovery, (list_remove_absent Nat.eqb nat_eqb_spec).
    + intros pre rest Hs Hpre. by apply services_remove_first.
  - intros pre Hs Hpre. by apply for_each_services_remove.
Qed.

(** X10. On a discovery that is not running, [register(item)] followed
    by [unregister(item)], for a service or a container none of whose
    services was registered before, returns twice and leaves the store as
    it was. *)
Theorem register_then_unregister d item l w :
  ServiceDiscovery.is_ready (disc w d) = false →
  items w item = Some l →
  (∀ s, s ∈ l → s ∉ ServiceDiscovery.services (disc w d)) →
  ∃ w1 w2, ServiceDiscovery.register d item w = (Ok tt, w1)
    ∧ ServiceDiscovery.services (disc w1 d) = ServiceDiscovery.services (disc w d) ++ l
    ∧ ServiceDiscovery.unregister d item w1 = (Ok tt, w2)
    ∧ (∀ d', disc w2 d' = disc w d')
    ∧ svc w2 = svc w ∧ cont w2 = cont w ∧ sessions w2 = sessions w
    ∧ next_session w2 = next_session w ∧ calls w2 = calls w.
Proof.
  intros Hi Hitems Hnew.
  assert (Hreg : ∃ w1, ServiceDiscovery.register d item w = (Ok tt, w1)
                   ∧ registered d (ServiceDiscovery.services (disc w d) ++ l) w w1).
  { pose proof (register_spec d item w Hi) as Hr.
    destruct item as [s|c|info|]; simpl in Hitems; try done;
      injection Hitems as <-; exact Hr. }
  destruct Hreg as (w1 & E1 & R1). exists w1.
  assert (Hs1 : ServiceDiscovery.services (disc w1 d)
                = ServiceDiscovery.services (disc w d) ++ l).
  { destruct R1 as (-> & _). done. }
  assert (Hi1 : ServiceDiscovery.is_ready (disc w1 d) = false).
  { destruct R1 as (-> & _). done. }
  assert (Hl1 : items w1 item = Some l).
  { destruct R1 as (_ & _ & _ & Hc & _). destruct item; simpl in *; try done.
    by rewrite Hc. }
  destruct (for_each_services_remove d l (ServiceDiscovery.services (disc w d)) w1 Hs1 Hnew)
    as (w2 & E2 & R2).
  exists w2. split; [done|]. split; [done|]. split.
  - unfold ServiceDiscovery.unregister. rewrite bind_get_discovery, Hi1.
    destruct item as [s|c|info|]; simpl in Hl1; try done; injection Hl1 as <-.
    + simpl in E2. unfold ServiceDiscovery._verify_item_and_run.
      revert E2. unfold mbind, M_bind.
      destruct (ServiceDiscovery.services_remove d s w1) as [[[]|e] w3]; [|done].
      by intros [= <-].
    + unfold ServiceDiscovery._verify_item_and_run. simpl. exact E2.
  - pose proof (registered_trans d _ _ w w1 w2 R1 R2) as (Ed & Eo & ?&?&?&?&?).
    rewrite with_services_id in Ed. repeat split; try done.
    intros d'. destruct (decide (d' = d)) as [->|Hne]; [done | by apply Eo].
Qed.

(** Container 3 with members 4 and 5. *)
Definition with_container : World :=
  (set_container 3 (λ _, ServiceContainer.mk [4; 5] false []) blank).2.

Lemma register_when_idle_witness :
  ∃ w', ServiceDiscovery.register 0 (PServiceContainer 3) with_container = (Ok tt, w')
    ∧ ServiceDiscovery.services (disc w' 0) = [4; 5].
Proof.
  destruct (register_when_idle 0 (PServiceContainer 3) with_container)
    as (w' & E & (Ed & _)).
  - vm_compute. reflexivity.
  - exists w'. split; [exact E|]. rewrite Ed. vm_compute. reflexivity.
Defined.

Lemma unregister_when_idle_witness :
  ServiceDiscovery.unregister 0 (PService 1) blank = (Raise ValueError, blank).
Proof.
  apply (unregister_when_idle 0 (PService 1) blank).
  - vm_compute. reflexivity.
  - vm_compute. apply not_elem_of_nil.
Defined.

Lemma register_then_unregister_witness :
  ∃ w1 w2, ServiceDiscovery.register 0 (PServiceContainer 3) with_container = (Ok tt, w1)
    ∧ ServiceDiscovery.unregister 0 (PServiceContainer 3) w1 = (Ok tt, w2)
    ∧ ServiceDiscovery.services (disc w2 0) = [].
Proof.
  destruct (register_then_unregister 0 (PServiceContainer 3) [4; 5] with_container)
    as (w1 & w2 & E1 & _ & E2 & Ed & _).
  - vm_compute. reflexivity.
  - vm_compute. reflexivity.
  - intros s _. vm_compute. apply not_elem_of_nil.
  - exists w1, w2. split; [exact E1|]. split; [exact E2|]. rewrite Ed.
    vm_compute. reflexivity.
Defined.

(** ** Starting *)

(** [w'] is [w] with the session and browser lists of discovery [d]
    replaced by [zs] and [bs]. *)
Definition listed (d : nat) (zs : list nat) (bs : list ServiceBrowser.t)
    (w w' : World) : Prop :=
  disc w' d = ServiceDiscovery.with__browsers (Some bs)
                (ServiceDiscovery.with__zeroconfs (Some zs) (disc w d))
  ∧ (∀ d', d' ≠ d → disc w' d' = disc w d')
  ∧ svc w' = svc w ∧ cont w' = cont w ∧ calls w' = calls w.

Lemma listed_trans d zs1 bs1 zs2 bs2 w w1 w2 :
  listed d zs1 bs1 w w1 → listed d zs2 bs2 w1 w2 → listed d zs2 bs2 w w2.
Proof.
  intros (E1 & O1 & ?&?&?) (E2 & O2 & ?&?&?). unfold listed.
  rewrite E2, E1. repeat split; try congruence.
  intros d' Hd. by rewrite O2, O1.
Qed.

Lemma _browsers_append_listed d b zs bs w :
  ServiceDiscovery._zeroconfs (disc w d) = Some zs →
  ServiceDiscovery._browsers (disc w d) = Some bs →
  ∃ w', ServiceDiscovery._browsers_append d b w = (Ok tt, w')
    ∧ listed d zs (bs ++ [b]) w w'
    ∧ sessions w' = sessions w ∧ next_session w' = next_session w.
Proof.
  intros Hz Hb. unfold ServiceDiscovery._browsers_append.
  rewrite bind_get_discovery, Hb. eexists. split; [done|]. unfold listed. simpl.
  rewrite fn_lookup_insert. repeat split; try done.
  - destruct (disc w d); simpl in *. by subst.
  - intros d' Hd. by rewrite fn_lookup_insert_ne.
Qed.

Lemma _zeroconfs_append_listed d z zs bs w :
  ServiceDiscovery._zeroconfs (disc w d) = Some zs →
  ServiceDiscovery._browsers (disc w d) = Some bs →
  ∃ w', ServiceDiscovery._zeroconfs_append d z w = (Ok tt, w')
    ∧ listed d (zs ++ [z]) bs w w'
    ∧ sessions w' = sessions w ∧ next_session w' = next_session w.
Proof.
  intros Hz Hb. unfold ServiceDiscovery._zeroconfs_append.
  rewrite bind_get_discovery, Hz. eexists. split; [done|]. unfold listed. simpl.
  rewrite fn_lookup_insert. repeat split; try done.
  - destruct (disc w d); simpl in *. by subst.
  - intros d' Hd. by rewrite fn_lookup_insert_ne.
Qed.

Lemma listed_lists d zs bs w w' :
  listed d zs bs w w' →
  ServiceDiscovery._zeroconfs (disc w' d) = Some zs
  ∧ ServiceDiscovery._browsers (disc w' d) = Some bs.
Proof. intros (-> & _). done. Qed.

Lemma listed_refl d zs bs w :
  ServiceDiscovery._zeroconfs (disc w d) = Some zs →
  ServiceDiscovery._browsers (disc w d) = Some bs →
  listed d zs bs w w.
Proof.
  intros Hz Hb. unfold listed. split; [|done]. destruct (disc w d); simpl in *. by subst.
Qed.

Lemma for_each_browsers_append d (f : string → ServiceBrowser.t) nameservers zs bs w :
  ServiceDiscovery._zeroconfs (disc w d) = Some zs →
  ServiceDiscovery._browsers (disc w d) = Some bs →
  ∃ w', for_each nameservers (λ nameserver, ServiceDiscovery._browsers_append d (f nameserver)) w
        = (Ok tt, w')
    ∧ listed d zs (bs ++ map f nameservers) w w'
    ∧ sessions w' = sessions w ∧ next_session w' = next_session w.
Proof.
  revert w bs. induction nameservers as [|ns nss IH]; intros w bs Hz Hb; simpl.
  - exists w. split; [done|]. rewrite app_nil_r. split; [by apply listed_refl | done].
  - destruct (_browsers_append_listed d (f ns) zs bs w Hz Hb) as (w1 & E1 & L1 & Hs1 & Hn1).
    destruct (listed_lists _ _ _ _ _ L1) as [Hz1 Hb1].
    destruct (IH w1 (bs ++ [f ns]) Hz1 Hb1) as (w' & E & L & Hs & Hn).
    exists w'. rewrite (bind_ok _ _ _ _ _ E1), E. split; [done|].
    rewrite <- app_assoc in L. split; [by eapply listed_trans | split; congruence].
Qed.

(** The browsers of unicast discovery: for each registered service, in
    order, with its own session, one browser per nameserver. *)
Definition unicast_browsers (self : ServiceDiscovery.t) (w : World)
    (first : nat) (services : list nat) : list ServiceBrowser.t :=
  flat_map (λ zs : nat * nat,
      map (λ nameserver,
             ServiceBrowser.mk zs.1
               ("_" +:+ Service.type (svc w zs.2) +:+ "._sub._"
                +:+ ServiceDiscovery.service_type self +:+ "._tcp.local.")
               (Some nameserver) (ServiceDiscovery.lookup_interval self))
          (ServiceDiscovery.nameservers self))
    (zip (seq first (length services)) services).

Lemma bind_new_session {B} unicast (k : nat → M B) w :
  (new_session unicast ≫= k) w
  = k (next_session w)
      (mkWorld (svc w) (cont w) (disc w)
               (<[next_session w := Zeroconf.mk unicast false]> (sessions w))
               (S (next_session w)) (calls w)).
Proof. reflexivity. Qed.

Lemma unicast_loop d self l zs bs w :
  ServiceDiscovery._zeroconfs (disc w d) = Some zs →
  ServiceDiscovery._browsers (disc w d) = Some bs →
  ∃ w', for_each l (λ s,
          service ← get_service s;
          let type_string :=
            "_" +:+ Service.type service +:+ "._sub._"
            +:+ ServiceDiscovery.service_type self +:+ "._tcp.local." in
          zeroconf ← new_session true;
          ServiceDiscovery._zeroconfs_append d zeroconf;;
          for_each (ServiceDiscovery.nameservers self) (λ nameserver,
            ServiceDiscovery._browsers_append d
              (ServiceBrowser.mk zeroconf type_string (Some nameserver)
                 (ServiceDiscovery.lookup_interval self)))) w
        = (Ok tt, w')
    ∧ listed d (zs ++ seq (next_session w) (length l))
               (bs ++ unicast_browsers self w (next_session w) l) w w'
    ∧ next_session w' = next_session w + length l
    ∧ (∀ z, next_session w ≤ z < next_session w + length l →
            sessions w' z = Zeroconf.mk true false)
    ∧ (∀ z, z < next_session w → sessions w' z = sessions w z).
Proof.
  revert w zs bs. induction l as [|s l IH]; intros w zs bs Hz Hb.
  - exists w. split; [done|]. unfold unicast_browsers. simpl. rewrite !app_nil_r.
    split; [by apply listed_refl|]. split; [lia|]. split; [lia | done].
  - change (for_each (s :: l) ?body) with (body s;; for_each l body).
    set (body := λ s : nat, _).
    set (f := λ ns, ServiceBrowser.mk (next_session w)
                      ("_" +:+ Service.type (svc w s) +:+ "._sub._"
                       +:+ ServiceDiscovery.service_type self +:+ "._tcp.local.")
                      (Some ns) (ServiceDiscovery.lookup_interval self)).
    set (w0 := mkWorld (svc w) (cont w) (disc w)
                 (<[next_session w := Zeroconf.mk true false]> (sessions w))
                 (S (next_session w)) (calls w)).
    destruct (_zeroconfs_append_listed d (next_session w) zs bs w0 Hz Hb)
      as (w1 & E1 & L1 & Hs1 & Hn1).
    destruct (listed_lists _ _ _ _ _ L1) as [Hz1 Hb1].
    destruct (for_each_browsers_append d f (ServiceDiscovery.nameservers self)
                _ _ w1 Hz1 Hb1) as (w2 & E2 & L2 & Hs2 & Hn2).
    assert (Ebody : body s w = (Ok tt, w2)).
    { subst body. cbv beta. rewrite bind_get_service. cbv zeta.
      rewrite bind_new_session. fold w0. rewrite (bind_ok _ _ _ _ _ E1). exact E2. }
    destruct (listed_lists _ _ _ _ _ L2) as [Hz2 Hb2].
    destruct (IH w2 _ _ Hz2 Hb2) as (w' & E & L & Hn & Hnew & Hold).
    exists w'. rewrite (bind_ok _ _ _ _ _ Ebody). split; [exact E|].
    assert (Hn02 : next_session w2 = S (next_session w)) by (rewrite Hn2, Hn1; done).
    assert (Hs02 : sessions w2 = <[next_session w := Zeroconf.mk true false]> (sessions w))
      by (rewrite Hs2, Hs1; done).
    assert (L02 : listed d (zs ++ [next_session w])
                    (bs ++ map f (ServiceDiscovery.nameservers self)) w w2).
    { pose proof (listed_trans _ _ _ _ _ _ _ _ L1 L2) as (Ed & Eo & ?&?&?).
      unfold listed. rewrite Ed. by repeat split. }
    rewrite Hn02 in *. split; [|split; [simpl; lia|split]].
    + pose proof (listed_trans _ _ _ _ _ _ _ _ L02 L) as L'.
      rewrite <- !app_assoc in L'. simpl. unfold unicast_browsers in *. simpl.
      destruct L02 as (_ & _ & -> & _) in L'. exact L'.
    + intros z Hzr. destruct (decide (z = next_session w)) as [->|Hne].
      * rewrite Hold by lia. rewrite Hs02. by rewrite fn_lookup_insert.
      * apply Hnew. simpl in Hzr. lia.
    + intros z Hzr. rewrite Hold by lia. rewrite Hs02.
      rewrite fn_lookup_insert_ne by lia. done.
Qed.

Lemma unicast_browsers_length self w first services :
  length (unicast_browsers self w first services)
  = length services * length (ServiceDiscovery.nameservers self).
Proof.
  unfold unicast_browsers. revert first.
  induction services as [|s l IH]; intros first; simpl; [done|].
  by rewrite length_app, length_map, IH.
Qed.

(** The three writes [start] begins with, on a discovery without browsers. *)
Lemma start_steps d w :
  truthy (ServiceDiscovery._browsers (disc w d)) = false →
  ∃ w0, ServiceDiscovery.start d w
        = (if ServiceDiscovery.any_nameserver (ServiceDiscovery.nameservers (disc w d))
           then ServiceDiscovery._start_unicast_discovery d
           else ServiceDiscovery._start_multicast_discovery d) w0
    ∧ disc w0 d = ServiceDiscovery.with__browsers (Some [])
                    (ServiceDiscovery.with__zeroconfs (Some [])
                       (ServiceDiscovery.with_is_ready true (disc w d)))
    ∧ (∀ d', d' ≠ d → disc w0 d' = disc w d')
    ∧ svc w0 = svc w ∧ cont w0 = cont w ∧ calls w0 = calls w
    ∧ sessions w0 = sessions w ∧ next_session w0 = next_session w.
Proof.
  intros Ht. unfold ServiceDiscovery.start. rewrite bind_get_discovery, Ht.
  cbv beta iota. unfold negb. rewrite (bind_set_discovery _ _ _ w).
  unfold ServiceDiscovery._start_discovery.
  rewrite (bind_set_discovery d (ServiceDiscovery.with__zeroconfs (Some [])) _
             (mkWorld _ _ _ _ _ _)).
  rewrite (bind_set_discovery d (ServiceDiscovery.with__browsers (Some [])) _
             (mkWorld _ _ _ _ _ _)).
  rewrite bind_get_discovery. simpl. rewrite !fn_lookup_insert. simpl.
  eexists. split; [reflexivity|]. simpl. rewrite !fn_lookup_insert.
  repeat split; try done. intros d' Hd. by rewrite !fn_lookup_insert_ne.
Qed.

(** What [start] does in multicast mode. *)
Lemma start_multicast_spec d w :
  truthy (ServiceDiscovery._browsers (disc w d)) = false →
  ServiceDiscovery.any_nameserver (ServiceDiscovery.nameservers (disc w d)) = false →
  ∃ w', ServiceDiscovery.start d w = (Ok tt, w')
    ∧ disc w' d
      = ServiceDiscovery.with__browsers
          (Some [ServiceBrowser.mk (next_session w)
                   ("_" +:+ ServiceDiscovery.service_type (disc w d) +:+ "._tcp.local.")
                   None (ServiceDiscovery.lookup_interval (disc w d))])
          (ServiceDiscovery.with__zeroconfs (Some [next_session w])
             (ServiceDiscovery.with_is_ready true (disc w d)))
    ∧ (∀ d', d' ≠ d → disc w' d' = disc w d')
    ∧ sessions w' (next_session w) = Zeroconf.mk false false
    ∧ (∀ z, z ≠ next_session w → sessions w' z = sessions w z)
    ∧ next_session w' = S (next_session w)
    ∧ svc w' = svc w ∧ cont w' = cont w ∧ calls w' = calls w
    ∧ ServiceDiscovery.start d w' = (Ok tt, w').
Proof.
  intros Ht Hn. destruct (start_steps d w Ht) as (w0 & E & Ed & Eo & Es & Ec & Ek & Ese & Ene).
  rewrite Hn in E. rewrite E. clear E.
  unfold ServiceDiscovery._start_multicast_discovery.
  rewrite bind_get_discovery, bind_new_session.
  set (w1 := mkWorld (svc w0) (cont w0) (disc w0)
               (<[next_session w0 := Zeroconf.mk false false]> (sessions w0))
               (S (next_session w0)) (calls w0)).
  destruct (_zeroconfs_append_listed d (next_session w0) [] [] w1)
    as (w2 & E2 & L2 & Hs2 & Hn2);
    [unfold w1; simpl; by rewrite Ed | unfold w1; simpl; by rewrite Ed |].
  destruct (listed_lists _ _ _ _ _ L2) as [Hz2 Hb2].
  destruct (_browsers_append_listed d
              (ServiceBrowser.mk (next_session w0)
                 ("_" +:+ ServiceDiscovery.service_type (disc w0 d) +:+ "._tcp.local.")
                 None (ServiceDiscovery.lookup_interval (disc w0 d))) _ _ w2 Hz2 Hb2)
    as (w3 & E3 & L3 & Hs3 & Hn3).
  exists w3. rewrite (bind_ok _ _ _ _ _ E2). split; [exact E3|].
  pose proof (listed_trans _ _ _ _ _ _ _ _ L2 L3) as (Ed3 & Eo3 & Es3 & Ec3 & Ek3).
  simpl in Ed3, Eo3, Es3, Ec3, Ek3. rewrite Ed in Ed3. simpl in Ed3.
  rewrite Ene in Ed3. split; [exact Ed3|]. split.
  { intros d' Hd. rewrite Eo3 by done. by apply Eo. }
  rewrite Hs3, Hs2, Hn3, Hn2. simpl. rewrite Ene, Ese.
  split; [by rewrite fn_lookup_insert|]. split.
  { intros z Hz. by rewrite fn_lookup_insert_ne. }
  split; [done|]. split; [congruence|]. split; [congruence|]. split; [congruence|].
  unfold ServiceDiscovery.start. rewrite bind_get_discovery, Ed3. done.
Qed.

(** X11. [start()] on a discovery without browsers and without a
    non-empty nameserver address returns, sets [is_ready], and opens one
    multicast session with one browser for [_<service_type>._tcp.local.]
    polling at [lookup_interval]; nothing else changes.  A second
    [start()] then changes nothing. *)
Theorem start_multicast d w :
  truthy (ServiceDiscovery._browsers (disc w d)) = false →
  ServiceDiscovery.any_nameserver (ServiceDiscovery.nameservers (disc w d)) = false →
  ∃ w', ServiceDiscovery.start d w = (Ok tt, w')
    ∧ disc w' d
      = ServiceDiscovery.with__browsers
          (Some [ServiceBrowser.mk (next_session w)
                   ("_" +:+ ServiceDiscovery.service_type (disc w d) +:+ "._tcp.local.")
                   None (ServiceDiscovery.lookup_interval (disc w d))])
          (ServiceDiscovery.with__zeroconfs (Some [next_session w])
             (ServiceDiscovery.with_is_ready true (disc w d)))
    ∧ (∀ d', d' ≠ d → disc w' d' = disc w d')
    ∧ sessions w' (next_session w) = Zeroconf.mk false false
    ∧ (∀ z, z ≠ next_session w → sessions w' z = sessions w z)
    ∧ next_session w' = S (next_session w)
    ∧ svc w' = svc w ∧ cont w' = cont w ∧ calls w' = calls w
    ∧ ServiceDiscovery.start d w' = (Ok tt, w').
Proof. exact (start_multicast_spec d w). Qed.

(** What [start] does in unicast mode. *)
Lemma start_unicast_spec d w :
  truthy (ServiceDiscovery._browsers (disc w d)) = false →
  ServiceDiscovery.any_nameserver (ServiceDiscovery.nameservers (disc w d)) = true →
  ∃ w', ServiceDiscovery.start d w = (Ok tt, w')
    ∧ disc w' d
      = ServiceDiscovery.with__browsers
          (Some (unicast_browsers (disc w d) w (next_session w)
                   (ServiceDiscovery.services (disc w d))))
          (ServiceDiscovery.with__zeroconfs
             (Some (seq (next_session w) (length (ServiceDiscovery.services (disc w d)))))
             (ServiceDiscovery.with_is_ready true (disc w d)))
    ∧ length (unicast_browsers (disc w d) w (next_session w)
                (ServiceDiscovery.services (disc w d)))
      = length (ServiceDiscovery.services (disc w d))
        * length (ServiceDiscovery.nameservers (disc w d))
    ∧ (∀ d', d' ≠ d → disc w' d' = disc w d')
    ∧ next_session w' = next_session w + length (ServiceDiscovery.services (disc w d))
    ∧ (∀ z, next_session w ≤ z < next_session w' → sessions w' z = Zeroconf.mk true false)
    ∧ (∀ z, z < next_session w → sessions w' z = sessions w z)
    ∧ svc w' = svc w ∧ cont w' = cont w ∧ calls w' = calls w.
Proof.
  intros Ht Hn. destruct (start_steps d w Ht) as (w0 & E & Ed & Eo & Es & Ec & Ek & Ese & Ene).
  rewrite Hn in E. rewrite E. clear E.
  unfold ServiceDiscovery._start_unicast_discovery. rewrite bind_get_discovery.
  destruct (unicast_loop d (disc w0 d) (ServiceDiscovery.services (disc w0 d)) [] [] w0)
    as (w' & E & (Ed' & Eo' & Es' & Ec' & Ek') & Hnext & Hnew & Hold).
  { by rewrite Ed. }
  { by rewrite Ed. }
  exists w'. split; [exact E|]. clear E.
  assert (Hu : unicast_browsers (disc w0 d) w0 (next_session w0)
                 (ServiceDiscovery.services (disc w0 d))
               = unicast_browsers (disc w d) w (next_session w)
                   (ServiceDiscovery.services (disc w d))).
  { unfold unicast_browsers. rewrite Ed, Es, Ene. done. }
  simpl in Ed'. rewrite Hu in Ed'. rewrite Ed' , Ed, Ene. simpl.
  split; [done|]. split; [apply unicast_browsers_length|]. split.
  { intros d' Hd. rewrite Eo' by done. by apply Eo. }
  rewrite Ed, Ene in Hnext. simpl in Hnext.
  rewrite Ed, Ene in Hnew. simpl in Hnew. rewrite Ene, Ese in Hold.
  split; [done|]. split; [intros z Hz; apply Hnew; lia|].
  split; [done|]. repeat split; congruence.
Qed.

(** X12. [start()] on a discovery without browsers and with a non-empty
    nameserver address returns, sets [is_ready], and opens one unicast
    session per registered service, in registration order, each with one
    browser per nameserver for [_<type>._sub._<service_type>._tcp.local.]
    of its service; that is as many browsers as services times
    nameservers, and nothing else changes. *)
Theorem start_unicast d w :
  truthy (ServiceDiscovery._browsers (disc w d)) = false →
  ServiceDiscovery.any_nameserver (ServiceDiscovery.nameservers (disc w d)) = true →
  ∃ w', ServiceDiscovery.start d w = (Ok tt, w')
    ∧ disc w' d
      = ServiceDiscovery.with__browsers
          (Some (unicast_browsers (disc w d) w (next_session w)
                   (ServiceDiscovery.services (disc w d))))
          (ServiceDiscovery.with__zeroconfs
             (Some (seq (next_session w) (length (ServiceDiscovery.services (disc w d)))))
             (ServiceDiscovery.with_is_ready true (disc w d)))
    ∧ length (unicast_browsers (disc w d) w (next_session w)
                (ServiceDiscovery.services (disc w d)))
      = length (ServiceDiscovery.services (disc w d))
        * length (ServiceDiscovery.nameservers (disc w d))
    ∧ (∀ d', d' ≠ d → disc w' d' = disc w d')
    ∧ next_session w' = next_session w + length (ServiceDiscovery.services (disc w d))
    ∧ (∀ z, next_session w ≤ z < next_session w' → sessions w' z = Zeroconf.mk true false)
    ∧ (∀ z, z < next_session w → sessions w' z = sessions w z)
    ∧ svc w' = svc w ∧ cont w' = cont w ∧ calls w' = calls w.
Proof. exact (start_unicast_spec d w). Qed.

Lemma start_multicast_witness :
  ∃ w', ServiceDiscovery.start 0 blank = (Ok tt, w')
    ∧ ServiceDiscovery._browsers (disc w' 0)
      = Some [ServiceBrowser.mk 0 "_machinekit._tcp.local." None 500]
    ∧ sessions w' 0 = Zeroconf.mk false false.
Proof.
  destruct (start_multicast 0 blank) as (w' & E & Ed & _ & Hs & _).
  - vm_compute. reflexivity.
  - vm_compute. reflexivity.
  - exists w'. split; [exact E|]. rewrite Ed. split; [vm_compute; reflexivity | exact Hs].
Defined.

(** A discovery with two nameservers over services 0 and 1. *)
Definition two_nameservers : World :=
  @serve_all ascii_codec 0 [Register (PService 0); Register (PService 1)]
    (set_discovery 0 (λ _, ServiceDiscovery.__init__ "machinekit"
       (ServiceDiscoveryFilter.__init__ "" []) ["10.0.0.1"; "10.0.0.2"] _LOOKUP_INTERVAL)
       blank).2.

Lemma start_unicast_witness :
  ∃ w', ServiceDiscovery.start 0 two_nameservers = (Ok tt, w')
    ∧ ServiceDiscovery._zeroconfs (disc w' 0) = Some [0; 1]
    ∧ fmap (M:=option) (map ServiceBrowser.addr) (ServiceDiscovery._browsers (disc w' 0))
      = Some [Some "10.0.0.1"; Some "10.0.0.2"; Some "10.0.0.1"; Some "10.0.0.2"]
    ∧ sessions w' 1 = Zeroconf.mk true false.
Proof.
  destruct (start_unicast 0 two_nameservers) as (w' & E & Ed & _ & _ & Hn & Hs & _).
  - vm_compute. reflexivity.
  - vm_compute. reflexivity.
  - exists w'. split; [exact E|]. rewrite Ed.
    split; [vm_compute; reflexivity|]. split; [vm_compute; reflexivity|].
    apply Hs. rewrite Hn. vm_compute. split; repeat constructor.
Defined.

(** ** The types browsers ask for *)

Lemma append_assoc (a b c : string) : (a +:+ b) +:+ c = a +:+ b +:+ c.
Proof. induction a as [|x a IH]; [done|]. by rewrite !append_cons, IH. Qed.

Lemma append_nil_r (a : string) : a +:+ "" = a.
Proof. induction a as [|x a IH]; [done|]. by rewrite append_cons, IH. Qed.

Section WithCodec.
Context `{Codec}.

(** X2. The browsers [start()] creates ask for types a service accepts:
    when the discovery's [service_type] is the service's [base_type], and
    the service has protocol [tcp] and domain [local] as a constructed one,
    [typestring] of the service is a substring of the type of every
    browser, multicast or unicast.  So [matches_service_info] on a record
    announced under the type of one of these browsers comes down to the
    comparison of [type] with the decoded [b'service'] value. *)
Theorem browser_types_contain_typestring d w self :
  truthy (ServiceDiscovery._browsers (disc w d)) = false →
  Service.base_type self = ServiceDiscovery.service_type (disc w d) →
  Service.protocol self = "tcp" →
  Service.domain self = "local" →
  ∃ w' browsers,
    ServiceDiscovery.start d w = (Ok tt, w')
    ∧ ServiceDiscovery._browsers (disc w' d) = Some browsers
    ∧ ∀ browser info,
        browser ∈ browsers →
        ServiceInfo.type info = ServiceBrowser.type_ browser →
        str_in (Service.typestring self) (ServiceInfo.type info) = true
        ∧ Service.matches_service_info self info
          = match Service.txt_decode (ServiceInfo.get info "service") with
            | Ok service => Ok (String.eqb (Service.type self) service)
            | Raise e => Raise e
            end.
Proof.
  intros Ht Hb Hp Hd.
  assert (Hts : Service.typestring self
                = "_" +:+ ServiceDiscovery.service_type (disc w d) +:+ "._tcp.local.").
  { unfold Service.typestring. by rewrite Hb, Hp, Hd. }
  assert (Hm : ∀ info, str_in (Service.typestring self) (ServiceInfo.type info) = true →
            str_in (Service.typestring self) (ServiceInfo.type info) = true
            ∧ Service.matches_service_info self info
              = match Service.txt_decode (ServiceInfo.get info "service") with
                | Ok service => Ok (String.eqb (Service.type self) service)
                | Raise e => Raise e
                end).
  { intros info Hin. split; [done|]. unfold Service.matches_service_info.
    destruct (Service.txt_decode _); [|done]. by rewrite Hin, andb_true_r. }
  destruct (ServiceDiscovery.any_nameserver
              (ServiceDiscovery.nameservers (disc w d))) eqn:Hn.
  - destruct (start_unicast_spec d w Ht Hn) as (w' & E & Ed & _).
    exists w'. eexists. split; [exact E|]. rewrite Ed. split; [done|].
    intros browser info Hin Hty. apply Hm. rewrite Hty, Hts. clear Hm Hty.
    unfold unicast_browsers in Hin. apply list_elem_of_In, in_flat_map in Hin.
    destruct Hin as ([z s] & _ & Hin). apply in_map_iff in Hin as (ns & <- & _).
    cbn [ServiceBrowser.type_ fst snd]. apply str_in_spec.
    exists ("_" +:+ Service.type (svc w s) +:+ "._sub."), "".
    rewrite append_nil_r, !append_assoc. reflexivity.
  - destruct (start_multicast_spec d w Ht Hn) as (w' & E & Ed & _).
    exists w'. eexists. split; [exact E|]. rewrite Ed. split; [done|].
    intros browser info Hin Hty. apply Hm. rewrite Hty, Hts. clear Hm Hty.
    apply list_elem_of_singleton in Hin as ->. cbn [ServiceBrowser.type_].
    apply str_in_spec. exists "", "". by rewrite append_nil, append_nil_r.
Qed.
End WithCodec.

Lemma browser_types_contain_typestring_witness :
  @Service.matches_service_info ascii_codec (Service.__init__ "webtalk") record_a = Ok true.
Proof.
  destruct (@browser_types_contain_typestring ascii_codec 0 blank (Service.__init__ "webtalk"))
    as (w' & browsers & E & Eb & Hall).
  - vm_compute. reflexivity.
  - reflexivity.
  - reflexivity.
  - reflexivity.
  - assert (Ew : w' = (ServiceDiscovery.start 0 blank).2) by (rewrite E; reflexivity).
    clear E. subst w'.
    assert (Eb' : ServiceDiscovery._browsers (disc (ServiceDiscovery.start 0 blank).2 0)
                  = Some [ServiceBrowser.mk 0 "_machinekit._tcp.local." None 500])
      by (vm_compute; reflexivity).
    rewrite Eb' in Eb. injection Eb as <-. clear Eb'.
    destruct (Hall (ServiceBrowser.mk 0 "_machinekit._tcp.local." None 500) record_a
                (list_elem_of_here _ _) eq_refl) as [_ Hm].
    rewrite Hm. vm_compute. reflexivity.
Defined.

(** ** A discovery over a sequence of calls *)

(** Discovery [d] has its flag and its two lists as they were, and no
    session was opened or closed. *)
Definition same_lists (d : nat) : relation World :=
  λ w w', ServiceDiscovery.is_ready (disc w' d) = ServiceDiscovery.is_ready (disc w d)
          ∧ ServiceDiscovery._browsers (disc w' d) = ServiceDiscovery._browsers (disc w d)
          ∧ ServiceDiscovery._zeroconfs (disc w' d) = ServiceDiscovery._zeroconfs (disc w d)
          ∧ sessions w' = sessions w ∧ next_session w' = next_session w.

#[local] Instance same_lists_refl d : Reflexive (same_lists d).
Proof. by intros w. Qed.

#[local] Instance same_lists_trans d : Transitive (same_lists d).
Proof. intros w1 w2 w3 (?&?&?&?&?) (?&?&?&?&?). repeat split; congruence. Qed.

Lemma set_services_same_lists d d' l :
  preserves (same_lists d) (set_discovery d' (ServiceDiscovery.with_services l)).
Proof.
  intros w. unfold same_lists. simpl. destruct (decide (d' = d)) as [->|Hne].
  - by rewrite fn_lookup_insert.
  - by rewrite fn_lookup_insert_ne.
Qed.

Lemma services_append_same_lists d d' s :
  preserves (same_lists d) (ServiceDiscovery.services_append d' s).
Proof.
  intros w. unfold same_lists. simpl. destruct (decide (d' = d)) as [->|Hne].
  - by rewrite fn_lookup_insert.
  - by rewrite fn_lookup_insert_ne.
Qed.

#[local] Hint Resolve set_services_same_lists services_append_same_lists : frame.

Lemma registry_same_lists d d' item :
  preserves (same_lists d) (ServiceDiscovery.register d' item)
  ∧ preserves (same_lists d) (ServiceDiscovery.unregister d' item).
Proof.
  split; unfold ServiceDiscovery.register, ServiceDiscovery.unregister,
    ServiceDiscovery._verify_item_and_run, ServiceDiscovery.services_remove; frame.
Qed.

(** The invariant of discovery [d] over the sessions opened from number
    [first] on: a discovery with a browser is ready and has its list of
    sessions, one without has no session listed, and a session that is
    open is listed. *)
Definition tracked (first d : nat) (w : World) : Prop :=
  (truthy (ServiceDiscovery._browsers (disc w d)) = true →
     ServiceDiscovery.is_ready (disc w d) = true
     ∧ is_Some (ServiceDiscovery._zeroconfs (disc w d)))
  ∧ (truthy (ServiceDiscovery._browsers (disc w d)) = false →
     truthy (ServiceDiscovery._zeroconfs (disc w d)) = false)
  ∧ (∀ z, first ≤ z < next_session w → Zeroconf.closed (sessions w z) = false →
       ∃ zs, ServiceDiscovery._zeroconfs (disc w d) = Some zs ∧ z ∈ zs)
  ∧ first ≤ next_session w.

Lemma tracked_same_lists first d w w' :
  same_lists d w w' → tracked first d w → tracked first d w'.
Proof.
  intros (Hi & Hb & Hz & Hs & Hn). unfold tracked. by rewrite Hi, Hb, Hz, Hs, Hn.
Qed.

Lemma truthy_listed {A} (zs : list A) z : z ∈ zs → truthy (Some zs) = true.
Proof. destruct zs; [intros Hz; by apply elem_of_nil in Hz | done]. Qed.

Section WithCodec.
Context `{Codec}.

(** [stop] on a discovery with browsers and a session list. *)
Lemma stop_lists d w zs :
  truthy (ServiceDiscovery._browsers (disc w d)) = true →
  ServiceDiscovery._zeroconfs (disc w d) = Some zs →
  ∃ w', ServiceDiscovery.stop d w = (Ok tt, w')
    ∧ ServiceDiscovery._browsers (disc w' d) = Some []
    ∧ ServiceDiscovery._zeroconfs (disc w' d) = Some []
    ∧ next_session w' = next_session w
    ∧ (∀ z, z ∈ zs → Zeroconf.closed (sessions w' z) = true)
    ∧ (∀ z, z ∉ zs → sessions w' z = sessions w z).
Proof.
  intros Ht Hzs. unfold ServiceDiscovery.stop. rewrite bind_get_discovery, Ht.
  rewrite (bind_set_discovery _ _ _ w).
  unfold ServiceDiscovery._stop_discovery. rewrite bind_get_discovery. simpl.
  rewrite fn_lookup_insert. simpl. rewrite Hzs.
  match goal with |- context [(for_each zs close_session ≫= _) ?w0] =>
    destruct (for_each_close_session zs w0)
      as (w1 & E1 & Hs1 & Hc1 & Hd1 & Hn1 & Hk1 & Hin1 & _ & Hout1)
  end.
  assert (Hd1' : disc w1 d = ServiceDiscovery.with_is_ready false (disc w d))
    by (rewrite Hd1; simpl; by rewrite fn_lookup_insert).
  rewrite (bind_ok _ _ _ _ _ E1). rewrite bind_get_discovery.
  rewrite Hd1'. simpl. rewrite Hzs. cbv beta iota.
  run_set_discovery. rewrite bind_get_discovery. simpl.
  rewrite fn_lookup_insert, Hd1'. simpl.
  destruct (ServiceDiscovery._browsers (disc w d)) as [bs|] eqn:Hbs; [|done].
  cbv beta iota. run_set_discovery. rewrite bind_get_discovery. simpl.
  rewrite !fn_lookup_insert. simpl.
  match goal with |- context [for_each ?l Service.clear_service_infos ?w3] =>
    destruct (for_each_clear_service_infos l w3) as (w' & E & Hd & Hs & Hn & _)
  end.
  exists w'. split; [exact E|]. rewrite Hd, Hs, Hn. simpl. rewrite !fn_lookup_insert.
  simpl in Hn1. by repeat split.
Qed.

Lemma tracked_start first d w : tracked first d w → tracked first d (ServiceDiscovery.start d w).2.
Proof.
  intros (Hr & He & Ho & Hf).
  destruct (truthy (ServiceDiscovery._browsers (disc w d))) eqn:Ht.
  { unfold ServiceDiscovery.start. rewrite bind_get_discovery, Ht. simpl.
    unfold tracked. by rewrite Ht. }
  assert (Hold : ∀ z, first ≤ z < next_session w → Zeroconf.closed (sessions w z) = true).
  { intros z Hz. destruct (Zeroconf.closed (sessions w z)) eqn:Ec; [done|].
    destruct (Ho z Hz Ec) as (zs & Ezs & Hin). specialize (He eq_refl).
    rewrite Ezs, (truthy_listed zs z Hin) in He. done. }
  destruct (ServiceDiscovery.any_nameserver (ServiceDiscovery.nameservers (disc w d))) eqn:Hn.
  - destruct (start_unicast_spec d w Ht Hn)
      as (w' & -> & Ed & Hlen & _ & Hnext & Hnew & Hkeep & _).
    simpl. unfold tracked. rewrite Ed. simpl. repeat split; try done.
    + intros Hb.
      destruct (ServiceDiscovery.services (disc w d)) as [|s l]; [done|].
      destruct (ServiceDiscovery.nameservers (disc w d)) as [|ns nss]; [done|].
      destruct (unicast_browsers _ _ _ _); [|done]. simpl in Hlen. lia.
    + intros z Hz Hc. eexists. split; [done|]. apply elem_of_seq.
      destruct (decide (z < next_session w)) as [Hlt|Hge]; [|lia].
      rewrite (Hkeep z Hlt), Hold in Hc by lia. done.
    + lia.
  - destruct (start_multicast_spec d w Ht Hn)
      as (w' & -> & Ed & _ & Hnew & Hkeep & Hnext & _).
    simpl. unfold tracked. rewrite Ed. simpl. repeat split; try done.
    + intros z Hz Hc. eexists. split; [done|]. apply list_elem_of_singleton.
      destruct (decide (z = next_session w)) as [->|Hne]; [done|].
      rewrite (Hkeep z Hne), Hold in Hc by lia. done.
    + lia.
Qed.

Lemma tracked_stop first d w : tracked first d w → tracked first d (ServiceDiscovery.stop d w).2.
Proof.
  intros (Hr & He & Ho & Hf).
  destruct (truthy (ServiceDiscovery._browsers (disc w d))) eqn:Ht.
  - destruct (Hr eq_refl) as [_ [zs Hzs]].
    destruct (stop_lists d w zs Ht Hzs) as (w' & -> & Hb & Hz & Hn & Hin & Hout).
    simpl. unfold tracked. rewrite Hb, Hz, Hn. simpl. repeat split; try done.
    intros z Hlt Hc. destruct (decide (z ∈ zs)) as [Hzin|Hzout].
    + by rewrite (Hin z Hzin) in Hc.
    + rewrite (Hout z Hzout) in Hc. destruct (Ho z Hlt Hc) as (zs' & Ezs & Hin').
      rewrite Hzs in Ezs. injection Ezs as <-. done.
  - unfold ServiceDiscovery.stop. rewrite bind_get_discovery, Ht. simpl.
    unfold tracked. by rewrite Ht.
Qed.

Lemma stop_leaves_no_browser first d w :
  tracked first d w →
  truthy (ServiceDiscovery._browsers (disc (ServiceDiscovery.stop d w).2 d)) = false.
Proof.
  intros (Hr & _). destruct (truthy (ServiceDiscovery._browsers (disc w d))) eqn:Ht.
  - destruct (Hr eq_refl) as [_ [zs Hzs]].
    destruct (stop_lists d w zs Ht Hzs) as (w' & -> & Hb & _). simpl. by rewrite Hb.
  - unfold ServiceDiscovery.stop. by rewrite bind_get_discovery, Ht.
Qed.

Lemma serve_all_snoc d rs r w :
  serve_all d (rs ++ [r]) w = (serve d r (serve_all d rs w)).2.
Proof. revert w. induction rs as [|r' rs IH]; intros w; simpl; [done | apply IH]. Qed.

Lemma tracked_serve first d r w : tracked first d w → tracked first d (serve d r w).2.
Proof.
  destruct r as [| |item|item|zeroconf type_ name|zeroconf type_ name]; simpl.
  - apply tracked_start.
  - apply tracked_stop.
  - apply tracked_same_lists. by destruct (registry_same_lists d d item) as [Hr _].
  - apply tracked_same_lists. by destruct (registry_same_lists d d item) as [_ Hu].
  - destruct (events_same_discoveries d zeroconf type_ name) as [Ha _].
    destruct (Ha w) as (Hd & Hs & Hn). apply tracked_same_lists.
    unfold same_lists. by rewrite Hd, Hs, Hn.
  - destruct (events_same_discoveries d zeroconf type_ name) as [_ Hr].
    destruct (Hr w) as (Hd & Hs & Hn). apply tracked_same_lists.
    unfold same_lists. by rewrite Hd, Hs, Hn.
Qed.

Lemma tracked_serve_all first d rs w :
  tracked first d w → tracked first d (serve_all d rs w).
Proof.
  revert w. induction rs as [|r rs IH]; intros w Hw; simpl; [done|].
  by apply IH, tracked_serve.
Qed.

(** A discovery without browsers and sessions, as a constructed one, is
    tracked from the next session on. *)
Lemma tracked_idle d w :
  truthy (ServiceDiscovery._browsers (disc w d)) = false →
  truthy (ServiceDiscovery._zeroconfs (disc w d)) = false →
  tracked (next_session w) d w.
Proof.
  intros Hb Hz. unfold tracked. rewrite Hb. repeat split; try done. lia.
Qed.

(** X13. Whatever is called on a discovery that had no browser and no
    session to begin with, as a constructed one, and in whatever order:
    if it has a browser, it is ready and has its list of sessions; and
    [start()] and [stop()] return, they never raise. *)
Theorem discovery_stays_well_formed d rs w :
  truthy (ServiceDiscovery._browsers (disc w d)) = false →
  truthy (ServiceDiscovery._zeroconfs (disc w d)) = false →
  (truthy (ServiceDiscovery._browsers (disc (serve_all d rs w) d)) = true →
     ServiceDiscovery.is_ready (disc (serve_all d rs w) d) = true
     ∧ is_Some (ServiceDiscovery._zeroconfs (disc (serve_all d rs w) d)))
  ∧ (∃ w', ServiceDiscovery.start d (serve_all d rs w) = (Ok tt, w'))
  ∧ (∃ w', ServiceDiscovery.stop d (serve_all d rs w) = (Ok tt, w')).
Proof.
  intros Ht Hz.
  destruct (tracked_serve_all _ d rs w (tracked_idle d w Ht Hz)) as (Hw & _).
  split; [exact Hw|]. set (w1 := serve_all d rs w) in *. split.
  - destruct (truthy (ServiceDiscovery._browsers (disc w1 d))) eqn:Ht1.
    + exists w1. unfold ServiceDiscovery.start. by rewrite bind_get_discovery, Ht1.
    + destruct (ServiceDiscovery.any_nameserver
                  (ServiceDiscovery.nameservers (disc w1 d))) eqn:Hn.
      * destruct (start_unicast_spec d w1 Ht1 Hn) as (w' & E & _). by exists w'.
      * destruct (start_multicast_spec d w1 Ht1 Hn) as (w' & E & _). by exists w'.
  - destruct (truthy (ServiceDiscovery._browsers (disc w1 d))) eqn:Ht1.
    + destruct (Hw eq_refl) as [_ [zs Hzs]].
      destruct (stop_lists d w1 zs Ht1 Hzs) as (w' & E & _). by exists w'.
    + exists w1. unfold ServiceDiscovery.stop. by rewrite bind_get_discovery, Ht1.
Qed.

(** X17. No session is lost track of: after any sequence of calls on a
    discovery that had no browser and no session to begin with, every
    session opened since that is still open is listed in [_zeroconfs], and
    the discovery has a browser, so that the next [stop()] closes it; after
    that [stop()] every session opened since the beginning is closed. *)
Theorem open_sessions_are_listed d rs w :
  truthy (ServiceDiscovery._browsers (disc w d)) = false →
  truthy (ServiceDiscovery._zeroconfs (disc w d)) = false →
  (∀ z, next_session w ≤ z < next_session (serve_all d rs w) →
     Zeroconf.closed (sessions (serve_all d rs w) z) = false →
     truthy (ServiceDiscovery._browsers (disc (serve_all d rs w) d)) = true
     ∧ ∃ zs, ServiceDiscovery._zeroconfs (disc (serve_all d rs w) d) = Some zs ∧ z ∈ zs)
  ∧ (∀ z, next_session w ≤ z < next_session (serve_all d (rs ++ [Stop]) w) →
     Zeroconf.closed (sessions (serve_all d (rs ++ [Stop]) w) z) = true).
Proof.
  intros Ht Hz. pose proof (tracked_idle d w Ht Hz) as Hw. split.
  - destruct (tracked_serve_all _ d rs w Hw) as (_ & He & Ho & _).
    intros z Hlt Hc. destruct (Ho z Hlt Hc) as (zs & Ezs & Hin). split; [|by exists zs].
    destruct (truthy (ServiceDiscovery._browsers (disc (serve_all d rs w) d))) eqn:Hb;
      [done|].
    specialize (He eq_refl). by rewrite Ezs, (truthy_listed zs z Hin) in He.
  - rewrite serve_all_snoc. simpl.
    pose proof (tracked_serve_all _ d rs w Hw) as Hw1.
    pose proof (stop_leaves_no_browser _ d _ Hw1) as Hb.
    destruct (tracked_stop _ d _ Hw1) as (_ & He & Ho & _).
    intros z Hlt. destruct (Zeroconf.closed _) eqn:Ec; [done|].
    destruct (Ho z Hlt Ec) as (zs & Ezs & Hin).
    specialize (He Hb). by rewrite Ezs, (truthy_listed zs z Hin) in He.
Qed.
End WithCodec.

Definition restarted : World :=
  @serve_all ascii_codec 0 [Register (PService 0); Start; Stop; Start] blank.

Lemma discovery_stays_well_formed_witness :
  (truthy (ServiceDiscovery._browsers (disc restarted 0)) = true →
     ServiceDiscovery.is_ready (disc restarted 0) = true
     ∧ is_Some (ServiceDiscovery._zeroconfs (disc restarted 0)))
  ∧ (∃ w', @ServiceDiscovery.start 0 restarted = (Ok tt, w'))
  ∧ (∃ w', @ServiceDiscovery.stop ascii_codec 0 restarted = (Ok tt, w')).
Proof.
  apply (@discovery_stays_well_formed ascii_codec 0
           [Register (PService 0); Start; Stop; Start] blank).
  - vm_compute. reflexivity.
  - vm_compute. reflexivity.
Defined.

Lemma open_sessions_are_listed_witness :
  Zeroconf.closed
    (sessions (@serve_all ascii_codec 0 ([Register (PService 0); Start] ++ [Stop]) blank) 0)
  = true.
Proof.
  destruct (@open_sessions_are_listed ascii_codec 0 [Register (PService 0); Start] blank)
    as [_ Hclosed].
  - vm_compute. reflexivity.
  - vm_compute. reflexivity.
  - apply Hclosed.
    assert (E : next_session
                  (@serve_all ascii_codec 0 ([Register (PService 0); Start] ++ [Stop]) blank)
                = 1) by (vm_compute; reflexivity).
    rewrite E. change (next_session blank) with 0. lia.
Defined.

(** ** Members of a container *)

Lemma callback_eqb_spec (a b : callback) : bool_decide (a = b) = true ↔ a = b.
Proof. apply bool_decide_eq_true. Qed.

Lemma fn_insert_twice {B} (f : nat → B) i x y j :
  (<[i := y]> (<[i := x]> f)) j = (<[i := y]> f) j.
Proof.
  destruct (decide (i = j)) as [->|Hne].
  - by rewrite !fn_lookup_insert.
  - by rewrite !fn_lookup_insert_ne.
Qed.

Lemma bind_get_container {B} c (k : ServiceContainer.t → M B) w :
  (get_container c ≫= k) w = k (cont w c) w.
Proof. reflexivity. Qed.

Lemma bind_set_container {B} c f (k : unit → M B) w :
  (set_container c f ≫= k) w
  = k tt (mkWorld (svc w) (<[c := f (cont w c)]> (cont w)) (disc w)
                  (sessions w) (next_session w) (calls w)).
Proof. reflexivity. Qed.

(** What [remove_service] does with a member that has the container's
    bound method among its subscribers. *)
Lemma container_remove_spec c s w pre rest cpre crest :
  ServiceContainer._services (cont w c) = pre ++ s :: rest → s ∉ pre →
  Service.on_ready_changed (svc w s) = cpre ++ BoundUpdateServicesReady c :: crest →
  BoundUpdateServicesReady c ∉ cpre →
  ServiceContainer.remove_service c (PService s) w
  = (Ok tt, mkWorld (<[s := Service.with_on_ready_changed (cpre ++ crest) (svc w s)]> (svc w))
                    (<[c := ServiceContainer.with__services (pre ++ rest) (cont w c)]> (cont w))
                    (disc w) (sessions w) (next_session w) (calls w)).
Proof.
  intros Hs Hpre Hc Hcpre. unfold ServiceContainer.remove_service.
  rewrite bind_get_container, Hs, (list_remove_first Nat.eqb nat_eqb_spec) by done.
  rewrite (bind_set_container _ _ _ w). rewrite bind_get_service. simpl.
  rewrite Hc, (list_remove_first _ callback_eqb_spec) by done. reflexivity.
Qed.

(** X14. Adding a service to a container and removing it again is a
    round trip, for a service that was not a member and was not
    subscribed to by the container: both calls return, and every
    container, every service and the rest of the store are as before. *)
Theorem container_add_then_remove c s w :
  s ∉ ServiceContainer._services (cont w c) →
  BoundUpdateServicesReady c ∉ Service.on_ready_changed (svc w s) →
  ∃ w', (ServiceContainer.add_service c (PService s);;
         ServiceContainer.remove_service c (PService s)) w = (Ok tt, w')
    ∧ (∀ i, cont w' i = cont w i) ∧ (∀ i, svc w' i = svc w i)
    ∧ disc w' = disc w ∧ sessions w' = sessions w
    ∧ next_session w' = next_session w ∧ calls w' = calls w.
Proof.
  intros Hs Hc. unfold ServiceContainer.add_service.
  set (w1 := mkWorld
    (<[s := Service.with_on_ready_changed
              (Service.on_ready_changed (svc w s) ++ [BoundUpdateServicesReady c]) (svc w s)]>
       (svc w))
    (<[c := ServiceContainer.with__services
              (ServiceContainer._services (cont w c) ++ [s]) (cont w c)]> (cont w))
    (disc w) (sessions w) (next_session w) (calls w)).
  assert (E1 : (set_container c (λ self, ServiceContainer.with__services
                   (ServiceContainer._services self ++ [s]) self);;
                set_service s (λ o, Service.with_on_ready_changed
                   (Service.on_ready_changed o ++ [BoundUpdateServicesReady c]) o)) w
               = (Ok tt, w1)) by reflexivity.
  rewrite (bind_ok _ _ _ _ _ E1).
  rewrite (container_remove_spec c s w1 (ServiceContainer._services (cont w c)) []
             (Service.on_ready_changed (svc w s)) []); try done.
  - eexists. split; [reflexivity|]. unfold w1. simpl. rewrite !app_nil_r.
    repeat split.
    + intros i. rewrite fn_insert_twice.
      destruct (decide (c = i)) as [->|Hne];
        [rewrite fn_lookup_insert | by rewrite fn_lookup_insert_ne].
      rewrite fn_lookup_insert. by destruct (cont w i).
    + intros i. rewrite fn_insert_twice.
      destruct (decide (s = i)) as [->|Hne];
        [rewrite fn_lookup_insert | by rewrite fn_lookup_insert_ne].
      rewrite fn_lookup_insert. by destruct (svc w i).
  - unfold w1. simpl. by rewrite fn_lookup_insert.
  - unfold w1. simpl. by rewrite fn_lookup_insert.
Qed.

Lemma container_add_then_remove_witness :
  ∃ w', (ServiceContainer.add_service 0 (PService 0);;
         ServiceContainer.remove_service 0 (PService 0)) blank = (Ok tt, w')
    ∧ cont w' 0 = ServiceContainer.__init__ ∧ svc w' 0 = Service.__init__ "webtalk".
Proof.
  destruct (container_add_then_remove 0 0 blank) as (w' & E & Hc & Hs & _).
  - vm_compute. apply not_elem_of_nil.
  - vm_compute. apply not_elem_of_nil.
  - exists w'. split; [exact E|]. rewrite Hc, Hs. split; reflexivity.
Defined.

(** X15. [ServiceContainer.remove_service] of a service returns exactly
    when the service is a member and the container's bound method is among
    the service's subscribers; it raises [ValueError] in all other cases. *)
Theorem container_remove_outcome c s w :
  ((∃ w', ServiceContainer.remove_service c (PService s) w = (Ok tt, w'))
   ↔ s ∈ ServiceContainer._services (cont w c)
     ∧ BoundUpdateServicesReady c ∈ Service.on_ready_changed (svc w s))
  ∧ (∀ e w', ServiceContainer.remove_service c (PService s) w = (Raise e, w') →
       e = ValueError).
Proof.
  destruct (decide (s ∈ ServiceContainer._services (cont w c))) as [Hs|Hs].
  - destruct (list_remove_present Nat.eqb nat_eqb_spec _ _ Hs) as (pre & rest & Es & Hpre).
    destruct (decide (BoundUpdateServicesReady c ∈ Service.on_ready_changed (svc w s)))
      as [Hc|Hc].
    + destruct (list_remove_present _ callback_eqb_spec _ _ Hc)
        as (cpre & crest & Ec & Hcpre).
      rewrite (container_remove_spec c s w pre rest cpre crest) by done.
      split; [split; [done | intros _; by eexists] | intros e w' [=]].
    + unfold ServiceContainer.remove_service.
      rewrite bind_get_container, Es, (list_remove_first Nat.eqb nat_eqb_spec) by done.
      rewrite (bind_set_container _ _ _ w). rewrite bind_get_service. simpl.
      rewrite (list_remove_absent _ callback_eqb_spec) by done.
      split; [split; [intros [w' [=]] | intros [_ ?]; done] | by intros e w' [= <- _]].
  - unfold ServiceContainer.remove_service.
    rewrite bind_get_container, (list_remove_absent Nat.eqb nat_eqb_spec) by done.
    split; [split; [intros [w' [=]] | intros [? _]; done] | by intros e w' [= <- _]].
Qed.

(** X16. A failing [remove_service] is not undone: when the service is a
    member whose subscribers do not hold the container's bound method (the
    subscriber list is public), the call raises [ValueError] after it took
    the first occurrence of the service out of [_services]; the services
    themselves are untouched.  For a non-member nothing changes. *)
Theorem container_remove_fails_half_done c s w :
  BoundUpdateServicesReady c ∉ Service.on_ready_changed (svc w s) →
  ∃ w', ServiceContainer.remove_service c (PService s) w = (Raise ValueError, w')
    ∧ svc w' = svc w
    ∧ match list_remove Nat.eqb s (ServiceContainer._services (cont w c)) with
      | Some l => ServiceContainer._services (cont w' c) = l
      | None => w' = w
      end.
Proof.
  intros Hc. unfold ServiceContainer.remove_service. rewrite bind_get_container.
  destruct (list_remove Nat.eqb s _) as [l|]; [|by exists w].
  rewrite (bind_set_container _ _ _ w). rewrite bind_get_service. simpl.
  rewrite (list_remove_absent _ callback_eqb_spec) by done.
  eexists. split; [reflexivity|]. simpl. by rewrite fn_lookup_insert.
Qed.

(** Container 0 holds service 0, whose subscribers were then cleared. *)
Definition unsubscribed : World :=
  (set_service 0 (Service.with_on_ready_changed [])
     (ServiceContainer.add_service 0 (PService 0) blank).2).2.

Lemma container_remove_fails_half_done_witness :
  ServiceContainer._services (cont unsubscribed 0) = [0]
  ∧ ∃ w', ServiceContainer.remove_service 0 (PService 0) unsubscribed
          = (Raise ValueError, w')
    ∧ ServiceContainer._services (cont w' 0) = [].
Proof.
  split; [vm_compute; reflexivity|].
  destruct (container_remove_fails_half_done 0 0 unsubscribed) as (w' & E & _ & Hl).
  - vm_compute. apply not_elem_of_nil.
  - exists w'. split; [exact E|]. exact Hl.
Defined.

(** ** A record handed over and withdrawn *)

Section WithCodec.
Context `{Codec}.

(** X18. A record handed to a service without records, then any record
    withdrawn: both calls return, the service is ready in between, and in
    the end it has no record and is as constructed but for its
    subscribers, which were called with [True], then with [False]. *)
Theorem add_then_remove_record s info other w :
  Service.service_infos (svc w s) = [] →
  Service.ready (svc w s) = false →
  (∃ uri, Service.txt_decode (ServiceInfo.get info "dsn") = Ok uri) →
  (∃ uuid, Service.txt_decode (ServiceInfo.get info "uuid") = Ok uuid) →
  ∃ w1 w', Service.add_service_info s info w = (Ok tt, w1)
    ∧ Service.remove_service_info s other w1 = (Ok tt, w')
    ∧ Service.ready (svc w1 s) = true
    ∧ svc w' s = Service.mk (Service.type (svc w s)) (Service.domain (svc w s))
                   (Service.base_type (svc w s)) (Service.protocol (svc w s))
                   "" "" "" (PyInt 0) false [] (Service.on_ready_changed (svc w s))
    ∧ ∃ evs, calls w' = calls w ++ evs
        ∧ calls_of_service s evs
          = map (λ cb, (cb, true)) (Service.on_ready_changed (svc w s))
            ++ map (λ cb, (cb, false)) (Service.on_ready_changed (svc w s)).
Proof.
  intros Hi Hr [uri Euri] [uuid Euuid].
  pose proof (mutate_spec s (AddRecord info) w) as Ha.
  unfold resolved in Ha. simpl in Ha. rewrite Hi in Ha. simpl in Ha.
  rewrite Euri, Euuid in Ha. simpl in Ha. destruct Ha as (w1 & E1 & (Es1 & _)).
  assert (Hc1 : consistent (svc w1 s)) by (by eapply (mutate_consistent s (AddRecord info))).
  pose proof (mutate_spec s (RemoveRecord other) w1) as Hm.
  rewrite (remove_drops_first _ other Hc1) in Hm. rewrite Es1 in Hm.
  unfold resolved in Hm. simpl in Hm. destruct Hm as (w' & E & (Es & _)).
  exists w1, w'. split; [exact E1|]. split; [exact E|]. split; [by rewrite Es1|].
  split; [exact Es|].
  destruct (mutate_calls s (AddRecord info) w w1 E1) as [_ Hf1].
  destruct (mutate_calls s (RemoveRecord other) w1 w' E) as [_ Hf].
  destruct Hf1 as (evs1 & Ek1 & Hevs1); [by rewrite Es1, Hr|].
  destruct Hf as (evs & Ek & Hevs); [by rewrite Es, Es1|].
  exists (evs1 ++ evs). split; [by rewrite Ek, Ek1, app_assoc|].
  unfold calls_of_service in *. rewrite omap_app, Hevs1, Hevs. by rewrite Es, Es1.
Qed.
End WithCodec.

Lemma add_then_remove_record_witness :
  ∃ w1 w', @Service.add_service_info ascii_codec 0 record_a blank = (Ok tt, w1)
    ∧ @Service.remove_service_info ascii_codec 0 record_b w1 = (Ok tt, w')
    ∧ Service.ready (svc w1 0) = true
    ∧ svc w' 0 = Service.__init__ "webtalk".
Proof.
  destruct (@add_then_remove_record ascii_codec 0 record_a record_b blank)
    as (w1 & w' & E1 & E & Hr & Es & _).
  - vm_compute. reflexivity.
  - vm_compute. reflexivity.
  - vm_compute. eexists. reflexivity.
  - vm_compute. eexists. reflexivity.
  - exists w1, w'. split; [exact E1|]. split; [exact E|]. split; [exact Hr|]. exact Es.
Defined.
